(** * Stream verification viewer: parser, discrepancy classifier, filter engine

    A shallow embedding of the JavaScript sources of the viewer
    ([JSONParser], [DiscrepancyManager], [ScreenshotViewer]) and the
    properties of its natural-language specification, stated over it.

    JavaScript values that come out of [JSON.parse] are embedded as the
    inductive type [value]; exceptions are explicit in the result type
    [outcome]; the three global singletons are records threaded through
    the operations. *)

From stdpp Require Import base option list strings gmap fin_maps pretty.

Open Scope Z_scope.

(** ** JavaScript values *)

#[local] Set Warnings "-register-all".

(** The values [JSON.parse] can produce, plus [undefined] (what reading an
    absent property gives). Numbers are integers, taken in the range where a
    JavaScript number is exact: every number the viewer computes with is a
    count, an index or a length. Fractional numbers of a document (a
    confidence, an airtime) are only copied by the code, and have no
    representation here. Objects are finite maps from property names to
    values. *)
Inductive value :=
| VUndef
| VNull
| VBool (b : bool)
| VNum (n : Z)
| VStr (s : string)
| VArr (items : list value)
| VObj (fields : gmap string value).

(** Results of running JavaScript code: a value, a thrown exception, or
    [Unmodelled] where the code leaves the fragment of the language this
    development gives a meaning to (relational comparison of operands that
    are not both numbers; the text and the division of numbers outside the
    range where JavaScript numbers are exact). *)
Inductive outcome (A : Type) :=
| Ok (a : A)
| Throw (msg : string)
| Unmodelled.
Arguments Ok {A} a.
Arguments Throw {A} msg.
Arguments Unmodelled {A}.

#[global] Instance outcome_ret : MRet outcome := fun A a => Ok a.
#[global] Instance outcome_bind : MBind outcome := fun A B k m =>
  match m with
  | Ok a => k a
  | Throw e => Throw e
  | Unmodelled => Unmodelled
  end.

(** [Array.prototype.map] with a callback that may throw: left to right,
    stopping at the first exception. *)
Fixpoint mapM {A B} (f : A → outcome B) (l : list A) : outcome (list B) :=
  match l with
  | [] => Ok []
  | x :: l' => y ← f x; ys ← mapM f l'; Ok (y :: ys)
  end.

(** [Array.prototype.filter], likewise. *)
Fixpoint filterM {A} (f : A → outcome bool) (l : list A) : outcome (list A) :=
  match l with
  | [] => Ok []
  | x :: l' =>
      f x ≫= λ b : bool,
      ys ← filterM f l'; Ok (if b then x :: ys else ys)
  end.

(** ToBoolean. The falsy values are [undefined], [null], [false], [0] and
    the empty string; arrays and objects are truthy. *)
Definition truthy (v : value) : bool :=
  match v with
  | VUndef | VNull => false
  | VBool b => b
  | VNum n => negb (n =? 0)
  | VStr s => negb (String.eqb s "")
  | VArr _ | VObj _ => true
  end.

(** [a || b] on already evaluated operands. *)
Definition js_or (a b : value) : value := if truthy a then a else b.

Definition nullish (v : value) : bool :=
  match v with VUndef | VNull => true | _ => false end.

(** Reading a property of a value that is neither [null] nor [undefined].
    None of the property names the viewer reads is an own or inherited
    property of an array, a string, a number or a boolean, so these all read
    as [undefined]. *)
Definition prop (v : value) (k : string) : value :=
  match v with
  | VObj m => default VUndef (m !! k)
  | _ => VUndef
  end.

(** [v.k]: a TypeError on [null] and [undefined]. *)
Definition get (v : value) (k : string) : outcome value :=
  if nullish v then Throw "TypeError: cannot read properties of null or undefined"
  else Ok (prop v k).

(** [v?.k] *)
Definition get_opt (v : value) (k : string) : value :=
  if nullish v then VUndef else prop v k.

(** Strict equality [===], which on these values is also the SameValueZero
    comparison of [Set.prototype.has]. Primitives are compared by value.
    Arrays and objects are compared by identity: two different nodes of a
    parsed document are never the same object. *)
Definition strict_eq (a b : value) : bool :=
  match a, b with
  | VUndef, VUndef => true
  | VNull, VNull => true
  | VBool x, VBool y => Bool.eqb x y
  | VNum x, VNum y => x =? y
  | VStr x, VStr y => String.eqb x y
  | _, _ => false
  end.

Definition primitive (v : value) : bool :=
  match v with VArr _ | VObj _ => false | _ => true end.

(** [a > b] and [a < b], on numbers. *)
Definition js_gt (a b : value) : outcome bool :=
  match a, b with
  | VNum x, VNum y => Ok (y <? x)
  | _, _ => Unmodelled
  end.

Definition js_lt (a b : value) : outcome bool :=
  match a, b with
  | VNum x, VNum y => Ok (x <? y)
  | _, _ => Unmodelled
  end.

(** The outcomes of conversions made from left to right, where the text of
    a number may be missing. The first exception is thrown, whatever the
    other conversions give: an [Unmodelled] text never hides an
    exception. *)
Fixpoint collect {A} (l : list (outcome A)) : outcome (list A) :=
  match l with
  | [] => Ok []
  | o :: l' =>
      match o, collect l' with
      | Throw e, _ => Throw e
      | _, Throw e => Throw e
      | Ok a, Ok l'' => Ok (a :: l'')
      | _, _ => Unmodelled
      end
  end.

(** [parts.join(sep)] on strings. *)
Fixpoint join (sep : string) (l : list string) : string :=
  match l with
  | [] => ""
  | [x] => x
  | x :: l' => x +:+ sep +:+ join sep l'
  end.

(** The integers of magnitude below [2^53]: each is a JavaScript number of
    its own, and is printed digit by digit. *)
Definition safe (n : Z) : bool := Z.abs n <? 2 ^ 53.

(** ToString, as template literals, [Array.prototype.join] and the text
    properties of the page apply it.
    - A number in the safe range is printed in decimal. Outside it
      JavaScript prints the shortest digits that identify the number, or an
      exponent: the text is [Unmodelled].
    - An array is converted by [Array.prototype.toString], which joins the
      conversions of its elements with commas, [null] and [undefined]
      giving the empty string.
    - An object of a parsed document is converted by
      [Object.prototype.toString], unless it has an own property
      [toString]. No value of a document is callable, so with that
      property the conversion finds no method that gives a primitive
      ([valueOf] gives the object back) and throws a TypeError. *)
Fixpoint to_string (v : value) : outcome string :=
  match v with
  | VUndef => Ok "undefined"
  | VNull => Ok "null"
  | VBool true => Ok "true"
  | VBool false => Ok "false"
  | VNum n => if safe n then Ok (pretty n) else Unmodelled
  | VStr s => Ok s
  | VArr items =>
      match collect (map (λ x, if nullish x then Ok "" else to_string x) items) with
      | Ok texts => Ok (join "," texts)
      | Throw e => Throw e
      | Unmodelled => Unmodelled
      end
  | VObj fields =>
      match fields !! "toString" with
      | Some _ => Throw "TypeError: Cannot convert object to primitive value"
      | None => Ok "[object Object]"
      end
  end.

(** ToString of a value whose text is written to the page and not kept:
    what is left is whether the conversion throws. *)
Definition converts (v : value) : outcome unit :=
  match to_string v with
  | Throw e => Throw e
  | _ => Ok ()
  end.

(** A template literal, as the list of its pieces: the texts between the
    holes and the conversions of the holes, made from left to right. The
    text is [None] when no conversion throws and the text of a number is
    missing. *)
Definition template (pieces : list (outcome string)) : outcome (option string) :=
  match collect pieces with
  | Ok texts => Ok (Some (join "" texts))
  | Throw e => Throw e
  | Unmodelled => Ok None
  end.

(** The text of [arr.length] in a template literal: a length is an integer
    below [2^32]. *)
Definition length_text {A} (l : list A) : string :=
  pretty (Z.of_nat (length l)).

(** [Array.prototype.forEach] threading an accumulator. *)
Fixpoint foldM {A S} (f : S → A → outcome S) (s : S) (l : list A) : outcome S :=
  match l with
  | [] => Ok s
  | x :: l' => s' ← f s x; foldM f s' l'
  end.

(** [arr.length] as a JavaScript number. *)
Definition len {A} (l : list A) : Z := Z.of_nat (length l).

(** What [Array.prototype.join] makes of an element: [null] and [undefined]
    give the empty string, anything else its ToString. *)
Definition join_cell (v : value) : outcome string :=
  if nullish v then Ok "" else to_string v.

(** [items.join(sep)] on values. *)
Definition array_join (sep : string) (items : list value) : outcome string :=
  texts ← collect (map join_cell items); Ok (join sep texts).

(** The double quote inside the string literals of the source. *)
Definition dquote : string := String (Ascii.ascii_of_nat 34) EmptyString.

(** The line feed of the string literals of the source. *)
Definition newline : string := String (Ascii.ascii_of_nat 10) EmptyString.

(** ** The result model: what [JSONParser.parseResult] builds *)

(** The shape of each record is fixed by the object literal that builds it;
    the fields hold whatever value the document had, or the default. *)
Record Screenshot := {
  filename : value;
  s3Key : value;
  timestamp : value;
  url : value;
  cacheKey : value
}.

Record MLGame := {
  ml_class : value;
  confidence : value;
  box : value
}.

Record MLInference := {
  ml_games : list MLGame;
  numberOfGames : value;
  latencyMs : value;
  isUniformFrame : value;
  ml_error : value
}.

Record PostGame := {
  gameId : value;
  pg_gameSessionId : value
}.

Record PostProcessed := {
  pp_games : list PostGame;
  gameCount : value;
  eventType : value;
  appliedThreshold : value;
  slidingWindowState : value;
  pp_error : value
}.

Record DBSession := {
  db_gameSessionId : value;
  db_gameIdentifier : value;
  gameName : value;
  startTime : value;
  endTime : value;
  trueAirtime : value;
  matchesScreenshot : value
}.

Record DBGameCount := {
  gc_timestamp : value;
  gc_gameSessionId : value;
  gc_gameIdentifier : value
}.

(** [screenshot], [mlInference] and [postProcessed] are [null] ([None]) or
    an object. *)
Record FrameResult := {
  index : value;
  screenshot : option Screenshot;
  mlInference : option MLInference;
  postProcessed : option PostProcessed;
  dbSessions : list DBSession;
  dbGameCounts : list DBGameCount;
  discrepancyFlags : value;
  hasDiscrepancy : value
}.

Record SessionMetadata := {
  sessionId : value;
  platform : value;
  channel : value;
  date : value;
  sm_startTime : value;
  sm_endTime : value;
  analyzedAt : value;
  total : value
}.

Record DiscrepancyStats := {
  st_total : Z;
  withDiscrepancies : Z;
  mlVsPostprocessing : Z;
  postprocessingVsDb : Z;
  missingInDb : Z;
  extraInDb : Z
}.

(** ** JSONParser *)

Module JSONParser.

(** The fields of the parser object. *)
Record t := {
  analysisData : value;
  sessionMetadata : option SessionMetadata;
  results : list FrameResult;
  discrepancyCount : Z
}.

Definition constructor : t :=
  {| analysisData := VNull; sessionMetadata := None;
     results := []; discrepancyCount := 0 |}.

(** [x.map(f)] where [x] need not be an array. *)
Definition array_map {B} (x : value) (f : value → outcome B) : outcome (list B) :=
  match x with
  | VArr items => mapM f items
  | _ => Throw "TypeError: map is not a function"
  end.

Definition isArray (x : value) : bool :=
  match x with VArr _ => true | _ => false end.

Definition parseScreenshot (screenshot : value) : outcome (option Screenshot) :=
  if negb (truthy screenshot) then Ok None else
  filename ← get screenshot "filename";
  s3_key ← get screenshot "s3_key";
  timestamp ← get screenshot "timestamp";
  url ← get screenshot "url";
  cache_key ← get screenshot "cache_key";
  Ok (Some {| filename := filename; s3Key := s3_key; timestamp := timestamp;
              url := js_or url VNull; cacheKey := js_or cache_key VNull |}).

Definition parseMLGame (game : value) : outcome MLGame :=
  class ← get game "class";
  confidence ← get game "confidence";
  box ← get game "box";
  Ok {| ml_class := class; confidence := confidence; box := js_or box VNull |}.

Definition parseMLInference (mlInference : value) : outcome (option MLInference) :=
  if negb (truthy mlInference) then Ok None else
  games ← get mlInference "games";
  games' ← array_map (js_or games (VArr [])) parseMLGame;
  number_of_games ← get mlInference "number_of_games";
  latency_ms ← get mlInference "latency_ms";
  is_uniform_frame ← get mlInference "is_uniform_frame";
  error ← get mlInference "error";
  Ok (Some {| ml_games := games';
              numberOfGames := js_or number_of_games (VNum 0);
              latencyMs := js_or latency_ms (VNum 0);
              isUniformFrame := js_or is_uniform_frame (VBool false);
              ml_error := js_or error VNull |}).

Definition parsePostGame (game : value) : outcome PostGame :=
  game_id ← get game "game_id";
  game_session_id ← get game "game_session_id";
  Ok {| gameId := game_id; pg_gameSessionId := game_session_id |}.

Definition parsePostProcessed (postProcessed : value) : outcome (option PostProcessed) :=
  if negb (truthy postProcessed) then Ok None else
  games ← get postProcessed "games";
  games' ← array_map (js_or games (VArr [])) parsePostGame;
  game_count ← get postProcessed "game_count";
  event_type ← get postProcessed "event_type";
  applied_threshold ← get postProcessed "applied_threshold";
  sliding_window_state ← get postProcessed "sliding_window_state";
  error ← get postProcessed "error";
  Ok (Some {| pp_games := games';
              gameCount := js_or game_count (VNum 0);
              eventType := js_or event_type (VStr "UNKNOWN");
              appliedThreshold := js_or applied_threshold (VBool false);
              slidingWindowState := js_or sliding_window_state (VArr []);
              pp_error := js_or error VNull |}).

Definition parseDBSession (session : value) : outcome DBSession :=
  game_session_id ← get session "game_session_id";
  game_identifier ← get session "game_identifier";
  game_name ← get session "game_name";
  start_time ← get session "start_time";
  end_time ← get session "end_time";
  true_airtime ← get session "true_airtime";
  matches_screenshot ← get session "matches_screenshot";
  Ok {| db_gameSessionId := game_session_id;
        db_gameIdentifier := game_identifier;
        gameName := js_or game_name game_identifier;
        startTime := start_time;
        endTime := end_time;
        trueAirtime := js_or true_airtime (VNum 0);
        matchesScreenshot :=
          VBool (negb (strict_eq matches_screenshot (VBool false))) |}.

Definition parseDBSessions (dbSessions : value) : outcome (list DBSession) :=
  if negb (truthy dbSessions) || negb (isArray dbSessions) then Ok [] else
  array_map dbSessions parseDBSession.

Definition parseDBGameCount (count : value) : outcome DBGameCount :=
  timestamp ← get count "timestamp";
  game_session_id ← get count "game_session_id";
  game_identifier ← get count "game_identifier";
  Ok {| gc_timestamp := timestamp; gc_gameSessionId := game_session_id;
        gc_gameIdentifier := game_identifier |}.

Definition parseDBGameCounts (dbGameCounts : value) : outcome (list DBGameCount) :=
  if negb (truthy dbGameCounts) || negb (isArray dbGameCounts) then Ok [] else
  array_map dbGameCounts parseDBGameCount.

(** [a || b || c || d], each operand read only when the ones before it are
    falsy. *)
Definition hasAnyDiscrepancy (flags : value) : outcome value :=
  if negb (truthy flags) then Ok (VBool false) else
  a ← get flags "ml_vs_postprocessing";
  if truthy a then Ok a else
  b ← get flags "postprocessing_vs_db";
  if truthy b then Ok b else
  c ← get flags "missing_in_db";
  if truthy c then Ok c else
  get flags "extra_in_db".

Definition parseResult (result : value) : outcome FrameResult :=
  index ← get result "index";
  screenshot ← get result "screenshot";
  screenshot' ← parseScreenshot screenshot;
  ml_inference ← get result "ml_inference";
  mlInference' ← parseMLInference ml_inference;
  post_processed ← get result "post_processed";
  postProcessed' ← parsePostProcessed post_processed;
  db_sessions ← get result "db_sessions";
  dbSessions' ← parseDBSessions db_sessions;
  db_game_counts ← get result "db_game_counts";
  dbGameCounts' ← parseDBGameCounts db_game_counts;
  discrepancy_flags ← get result "discrepancy_flags";
  hasDiscrepancy' ← hasAnyDiscrepancy discrepancy_flags;
  Ok {| index := index;
        screenshot := screenshot';
        mlInference := mlInference';
        postProcessed := postProcessed';
        dbSessions := dbSessions';
        dbGameCounts := dbGameCounts';
        discrepancyFlags := js_or discrepancy_flags (VObj ∅);
        hasDiscrepancy := hasDiscrepancy' |}.

(** The first half of [validateAndParse]: the two checks of the required
    fields, then the metadata object. Nothing is assigned to the parser
    before this has succeeded. *)
Definition validateAndMetadata (data : value)
  : outcome (SessionMetadata * list value) :=
  session_id ← get data "session_id";
  if negb (truthy session_id)
  then Throw "Missing required field: session_id" else
  results ← get data "results";
  match results with
  | VArr raw =>
      platform ← get data "platform";
      channel ← get data "channel";
      date ← get data "date";
      start_time ← get data "start_time";
      end_time ← get data "end_time";
      analyzed_at ← get data "analyzed_at";
      total ← get data "total";
      Ok ({| sessionId := session_id;
             platform := js_or platform (VStr "unknown");
             channel := js_or channel (VStr "unknown");
             date := js_or date (VStr "unknown");
             sm_startTime := js_or start_time VNull;
             sm_endTime := js_or end_time VNull;
             analyzedAt := js_or analyzed_at VNull;
             total := js_or total (VNum (len raw)) |}, raw)
  | _ => Throw "Missing or invalid results array"
  end.

(** [this.results.filter(r => r.hasDiscrepancy).length] *)
Definition countDiscrepancies (rs : list FrameResult) : Z :=
  len (filter (λ r, truthy (hasDiscrepancy r) = true) rs).

(** [validateAndParse] assigns [sessionMetadata], then parses the results;
    [results], [discrepancyCount] and [analysisData] are assigned only when
    every result has parsed. The parser after the call is returned with the
    outcome, so that a call that throws half-way shows what it left. *)
Definition validateAndParse (this : t) (data : value) : t * outcome unit :=
  match validateAndMetadata data with
  | Ok (metadata, raw) =>
      let this1 :=
        {| analysisData := analysisData this;
           sessionMetadata := Some metadata;
           results := results this;
           discrepancyCount := discrepancyCount this |} in
      match mapM parseResult raw with
      | Ok rs =>
          ({| analysisData := data;
              sessionMetadata := Some metadata;
              results := rs;
              discrepancyCount := countDiscrepancies rs |}, Ok ())
      | Throw e => (this1, Throw e)
      | Unmodelled => (this1, Unmodelled)
      end
  | Throw e => (this, Throw e)
  | Unmodelled => (this, Unmodelled)
  end.

Definition getAllResults (this : t) : list FrameResult := results this.

Definition getMetadata (this : t) : option SessionMetadata := sessionMetadata this.

(** One round of the [forEach] of [getDiscrepancyStats]. *)
Definition countFlags (stats : DiscrepancyStats) (result : FrameResult)
  : outcome DiscrepancyStats :=
  let bump (b : bool) (n : Z) := if b then n + 1 else n in
  f1 ← get (discrepancyFlags result) "ml_vs_postprocessing";
  f2 ← get (discrepancyFlags result) "postprocessing_vs_db";
  f3 ← get (discrepancyFlags result) "missing_in_db";
  f4 ← get (discrepancyFlags result) "extra_in_db";
  Ok {| st_total := st_total stats;
        withDiscrepancies := withDiscrepancies stats;
        mlVsPostprocessing := bump (truthy f1) (mlVsPostprocessing stats);
        postprocessingVsDb := bump (truthy f2) (postprocessingVsDb stats);
        missingInDb := bump (truthy f3) (missingInDb stats);
        extraInDb := bump (truthy f4) (extraInDb stats) |}.

Definition getDiscrepancyStats (this : t) : outcome DiscrepancyStats :=
  foldM countFlags
    {| st_total := len (results this);
       withDiscrepancies := discrepancyCount this;
       mlVsPostprocessing := 0; postprocessingVsDb := 0;
       missingInDb := 0; extraInDb := 0 |}
    (results this).

(** [criteria.k], a read of the criteria object of the viewer. *)
Definition criterion (criteria : gmap string value) (k : string) : bool :=
  truthy (default VUndef (criteria !! k)).

(** [c && !result.discrepancyFlags.k]: the flag is read only when the
    criterion is set. *)
Definition rejects (c : bool) (result : FrameResult) (k : string) : outcome bool :=
  if c then f ← get (discrepancyFlags result) k; Ok (negb (truthy f))
  else Ok false.

(** The callback of [filterResults]. *)
Definition matchesCriteria (criteria : gmap string value) (result : FrameResult)
  : outcome bool :=
  if criterion criteria "onlyDiscrepancies" && negb (truthy (hasDiscrepancy result))
  then Ok false else
  rejects (criterion criteria "mlVsPost") result "ml_vs_postprocessing" ≫= λ r1 : bool,
  if r1 then Ok false else
  rejects (criterion criteria "postVsDb") result "postprocessing_vs_db" ≫= λ r2 : bool,
  if r2 then Ok false else
  rejects (criterion criteria "missingInDb") result "missing_in_db" ≫= λ r3 : bool,
  if r3 then Ok false else
  rejects (criterion criteria "extraInDb") result "extra_in_db" ≫= λ r4 : bool,
  if r4 then Ok false else
  Ok true.

Definition filterResults (this : t) (criteria : gmap string value)
  : outcome (list FrameResult) :=
  filterM (matchesCriteria criteria) (results this).

Definition clear (this : t) : t :=
  {| analysisData := VNull; sessionMetadata := None;
     results := []; discrepancyCount := 0 |}.

(** [this.results.find(r => r.index === index)], called with a number;
    [None] is the [undefined] of a search that finds nothing. *)
Definition getResult (this : t) (index' : Z) : option FrameResult :=
  List.find (λ r, strict_eq (index r) (VNum index')) (results this).

Definition csvHeaders : list string :=
  ["Index"; "Timestamp"; "ML Games"; "Post-Processed Games"; "DB Sessions";
   "ML vs Post"; "Post vs DB"; "Missing in DB"; "Extra in DB"].

(** [flag ? 'YES' : 'NO'] *)
Definition yesNo (flag : value) : value :=
  VStr (if truthy flag then "YES" else "NO").

(** The callback of the [map] of [exportAsCSV]: the cells of one row, before
    [join] turns them into text. *)
Definition csvRow (result : FrameResult) : outcome (list value) :=
  let timestamp' :=
    js_or (match screenshot result with
           | Some s => timestamp s
           | None => VUndef
           end) (VStr "") in
  let mlGames :=
    js_or (match mlInference result with
           | Some ml => numberOfGames ml
           | None => VUndef
           end) (VNum 0) in
  let postGames :=
    js_or (match postProcessed result with
           | Some pp => gameCount pp
           | None => VUndef
           end) (VNum 0) in
  let dbSessions' := js_or (VNum (len (dbSessions result))) (VNum 0) in
  f1 ← get (discrepancyFlags result) "ml_vs_postprocessing";
  f2 ← get (discrepancyFlags result) "postprocessing_vs_db";
  f3 ← get (discrepancyFlags result) "missing_in_db";
  f4 ← get (discrepancyFlags result) "extra_in_db";
  Ok [index result; timestamp'; mlGames; postGames; dbSessions';
      yesNo f1; yesNo f2; yesNo f3; yesNo f4].

(** [row.join(',')] *)
Definition csvLine (row : list value) : outcome string :=
  array_join "," row.

(** [exportAsCSV]: the rows are all built before the first is joined. *)
Definition exportAsCSV (this : t) : outcome string :=
  rows ← mapM csvRow (results this);
  lines ← collect (map csvLine rows);
  Ok (join newline (join "," csvHeaders :: lines)).

End JSONParser.

(** ** DiscrepancyManager *)

Inductive Details :=
| MlVsPostDetails (mlGames : list MLGame) (postGames : list PostGame)
    (slidingWindow : value)
| PostVsDbDetails (postGames : list PostGame) (sessions : list DBSession)
| MissingInDbDetails (missingGames : list PostGame)
    (expectedCount : value) (actualCount : value)
| ExtraInDbDetails (extraSessions : list DBSession).

(** A record of [analyzeResult]. Its [description] is built by a template
    literal; it is [None] where the text holds a number outside the range
    that is printed in decimal, which this development gives no text to. *)
Record Discrepancy := {
  type : string;
  title : string;
  description : option string;
  severity : string;
  details : Details
}.

Record CompareResult (A B : Type) := {
  onlyInFirst : list A;
  onlyInSecond : list B;
  inBoth : list A;
  match_ : bool
}.
Arguments onlyInFirst {A B} _.
Arguments onlyInSecond {A B} _.
Arguments inBoth {A B} _.
Arguments match_ {A B} _.

Module DiscrepancyManager.

Record t := { currentResult : option FrameResult }.

Definition constructor : t := {| currentResult := None |}.

(** [result.mlInference?.numberOfGames] *)
Definition mlCount (result : FrameResult) : value :=
  match mlInference result with
  | Some ml => numberOfGames ml
  | None => VUndef
  end.

(** [result.postProcessed?.gameCount] *)
Definition postCount (result : FrameResult) : value :=
  match postProcessed result with
  | Some pp => gameCount pp
  | None => VUndef
  end.

(** [result.mlInference?.games || []] *)
Definition mlGamesOf (result : FrameResult) : list MLGame :=
  match mlInference result with
  | Some ml => ml_games ml
  | None => []
  end.

(** [result.postProcessed?.games || []] *)
Definition postGamesOf (result : FrameResult) : list PostGame :=
  match postProcessed result with
  | Some pp => pp_games pp
  | None => []
  end.

(** [result.postProcessed?.slidingWindowState || []] *)
Definition slidingWindowOf (result : FrameResult) : value :=
  js_or (match postProcessed result with
         | Some pp => slidingWindowState pp
         | None => VUndef
         end) (VArr []).

Definition analyzeMlVsPost (result : FrameResult) : outcome Discrepancy :=
  let mlGames := js_or (mlCount result) (VNum 0) in
  let postGames := js_or (postCount result) (VNum 0) in
  let record description severity :=
    {| type := "ml-vs-post";
       title := "ML API vs Post-Processing Mismatch";
       description := description;
       severity := severity;
       details := MlVsPostDetails (mlGamesOf result) (postGamesOf result)
                    (slidingWindowOf result) |} in
  js_gt mlGames postGames ≫= λ more : bool,
  if more then
    description ←
      template
        [Ok "ML detected "; to_string mlGames;
         Ok " game(s), but post-processing filtered down to ";
         to_string postGames;
         Ok ". This is normal for sliding window logic building up threshold."];
    Ok (record description "info")
  else
    js_lt mlGames postGames ≫= λ fewer : bool,
    if fewer then
      description ←
        template
          [Ok "ML detected "; to_string mlGames;
           Ok " game(s), but post-processing returned ";
           to_string postGames; Ok ". This should not happen!"];
      Ok (record description "error")
    else
      description ←
        template
          [Ok "ML and post-processing both show "; to_string mlGames;
           Ok " games, but with different game IDs."];
      Ok (record description "warning").

(** [result.dbSessions?.length || 0]: [dbSessions] is always an array. *)
Definition dbSessionCount (result : FrameResult) : value :=
  js_or (VNum (len (dbSessions result))) (VNum 0).

(** [analyzePostVsDb] compares nothing: the post-processed count can be any
    value of the document, and its conversion in the description can
    throw. The second hole is a length. *)
Definition analyzePostVsDb (result : FrameResult) : outcome Discrepancy :=
  let postGames := js_or (postCount result) (VNum 0) in
  description ←
    template
      [Ok "Post-processing shows "; to_string postGames;
       Ok " game(s), but database has "; Ok (length_text (dbSessions result));
       Ok " session(s). This indicates a DB write issue."];
  Ok {| type := "post-vs-db";
        title := "Post-Processing vs Database Mismatch";
        description := description;
        severity := "error";
        details := PostVsDbDetails (postGamesOf result) (dbSessions result) |}.

(** [new Set(ids).has(k)]: membership by SameValueZero. *)
Definition set_has (ids : list value) (k : value) : bool :=
  existsb (strict_eq k) ids.

Definition analyzeMissingInDb (result : FrameResult) : Discrepancy :=
  let postGames := postGamesOf result in
  let dbSessionIds := map db_gameSessionId (dbSessions result) in
  let missingGames :=
    List.filter (λ game, negb (set_has dbSessionIds (pg_gameSessionId game)))
      postGames in
  {| type := "missing-in-db";
     title := "Games Missing in Database";
     description :=
       Some (length_text missingGames
             +:+ " game(s) from post-processing are missing in the database.");
     severity := "error";
     details := MissingInDbDetails missingGames (VNum (len postGames))
                  (dbSessionCount result) |}.

Definition analyzeExtraInDb (result : FrameResult) : Discrepancy :=
  let postGameIds := map pg_gameSessionId (postGamesOf result) in
  let extraSessions :=
    List.filter (λ s, negb (set_has postGameIds (db_gameSessionId s)))
      (dbSessions result) in
  {| type := "extra-in-db";
     title := "Extra Sessions in Database";
     description :=
       Some (length_text extraSessions
             +:+ " session(s) in database that were not in post-processing output.");
     severity := "warning";
     details := ExtraInDbDetails extraSessions |}.

(** The four [if (flag) discrepancies.push(...)] of [analyzeResult], in
    order. *)
Definition analyses (result : FrameResult) : outcome (list Discrepancy) :=
  f1 ← get (discrepancyFlags result) "ml_vs_postprocessing";
  d1 ← (if truthy f1 then d ← analyzeMlVsPost result; Ok [d] else Ok []);
  f2 ← get (discrepancyFlags result) "postprocessing_vs_db";
  d2 ← (if truthy f2 then d ← analyzePostVsDb result; Ok [d] else Ok []);
  f3 ← get (discrepancyFlags result) "missing_in_db";
  let d3 := if truthy f3 then [analyzeMissingInDb result] else [] in
  f4 ← get (discrepancyFlags result) "extra_in_db";
  let d4 := if truthy f4 then [analyzeExtraInDb result] else [] in
  Ok (d1 ++ d2 ++ d3 ++ d4).

(** [analyzeResult] first stores its argument in [currentResult]. *)
Definition analyzeResult (this : t) (result : FrameResult)
  : t * outcome (list Discrepancy) :=
  ({| currentResult := Some result |}, analyses result).

(** [compareGameLists(list1, list2, key1, key2)]. The reads [item[key1]]
    and [item[key2]] are the functions [key1] and [key2]; the two [Set]s of
    identifiers are finite sets. *)
Section compareGameLists.
Context {A B K : Type} `{Countable K}.

Definition compareGameLists (list1 : list A) (list2 : list B)
    (key1 : A → K) (key2 : B → K) : CompareResult A B :=
  let ids1 : gset K := list_to_set (key1 <$> list1) in
  let ids2 : gset K := list_to_set (key2 <$> list2) in
  let inFirst := filter (λ item, key1 item ∉ ids2) list1 in
  let inSecond := filter (λ item, key2 item ∉ ids1) list2 in
  let inBoth' := filter (λ item, key1 item ∈ ids2) list1 in
  {| onlyInFirst := inFirst;
     onlyInSecond := inSecond;
     inBoth := inBoth';
     match_ := (length inFirst =? 0)%nat && (length inSecond =? 0)%nat |}.
End compareGameLists.



(** The [parts] array of [formatAirtime], for a whole number of seconds
    below [2^53]. [%] is exact, and gives the remainder that has the sign of
    the dividend. [seconds / 3600] is a division of floating-point numbers;
    below [2^53] its [Math.floor] is the floor of the exact quotient: the
    quotient is below [2^42], where two neighbouring numbers are at most
    [2^-11] apart, and a quotient that is not whole is at least [1/3600]
    away from the next whole number. *)
Definition airtimeParts (seconds : Z) : list string :=
  let hours := seconds / 3600 in
  let minutes := Z.rem seconds 3600 / 60 in
  let secs := Z.rem seconds 60 in
  let parts1 := if 0 <? hours then [pretty hours +:+ "h"] else [] in
  let parts2 := if 0 <? minutes then parts1 ++ [pretty minutes +:+ "m"] else parts1 in
  if (0 <? secs) || (length parts2 =? 0)%nat
  then parts2 ++ [pretty secs +:+ "s"] else parts2.

(** [formatAirtime(seconds)]: the arithmetic is modelled on whole numbers
    below [2^53]. From there on the division rounds and the numbers are no
    longer printed digit by digit. *)
Definition formatAirtime (seconds : value) : outcome string :=
  if negb (truthy seconds) then Ok "0s" else
  match seconds with
  | VNum n => if n <? 2 ^ 53 then Ok (join " " (airtimeParts n)) else Unmodelled
  | _ => Unmodelled
  end.

End DiscrepancyManager.

(** ** ComparisonDisplay *)

Module ComparisonDisplay.

(** The functions of the comparison panel write HTML to elements of the
    page, which are taken to exist; what is modelled is what they compute
    to write. *)

(** [windowState.length === 0] *)
Definition lengthIsZero (windowState : value) : bool :=
  match windowState with
  | VArr items => (length items =? 0)%nat
  | VStr s => (String.length s =? 0)%nat
  | _ => strict_eq (prop windowState "length") (VNum 0)
  end.

(** [renderSlidingWindow(windowState)]. Only an array has a [forEach]. The
    only step of its loop that can throw is the conversion of [gameId] in
    the template literal: the conversions are made first, in the order of
    the loop, then the texts are put together. *)
Definition renderSlidingWindow (windowState : value) : outcome string :=
  if negb (truthy windowState) || lengthIsZero windowState then Ok "" else
  match windowState with
  | VArr items =>
      texts ← collect (map to_string items);
      Ok (fold_left
            (λ html text,
               html +:+ "<div class=" +:+ dquote +:+ "sliding-window-item"
               +:+ dquote +:+ ">" +:+ text +:+ "</div>")
            texts
            ("<div class=" +:+ dquote +:+ "sliding-window" +:+ dquote +:+ ">"
             +:+ "<h4>Sliding Window State</h4>"
             +:+ "<div class=" +:+ dquote +:+ "sliding-window-items"
             +:+ dquote +:+ ">")
          +:+ "</div></div>")
  | _ => Throw "TypeError: forEach is not a function"
  end.



End ComparisonDisplay.

(** ** ScreenshotViewer *)

(** [arr.findIndex(f)]: the first position whose element satisfies [f],
    or [-1]. *)
Fixpoint findIndex {A} (f : A → bool) (l : list A) : Z :=
  match l with
  | [] => -1
  | x :: l' =>
      if f x then 0
      else let i := findIndex f l' in if i =? -1 then -1 else i + 1
  end.

Module ScreenshotViewer.

(** The fields of the viewer. Rendering ([displayCurrent],
    [renderTimeline] and what they call) writes to the page only and
    leaves these fields as they are. The operations below give the fields
    after a call and the outcome of [applyFilters] in it; the timeline
    that [loadResults], [updateFilter] and [clearFilters] render last, and
    the exception that rendering can end with, are added by [rendered]. *)
Record t := {
  results : list FrameResult;
  filteredResults : list FrameResult;
  currentIndex : Z;
  filterCriteria : gmap string value;
  showBoundingBoxes : value
}.

Definition noCriteria : gmap string value :=
  <["onlyDiscrepancies" := VBool false]>
  (<["mlVsPost" := VBool false]>
  (<["postVsDb" := VBool false]>
  (<["missingInDb" := VBool false]>
  (<["extraInDb" := VBool false]> ∅)))).

Definition constructor : t :=
  {| results := []; filteredResults := []; currentIndex := 0;
     filterCriteria := noCriteria; showBoundingBoxes := VBool false |}.

Definition set_results (rs : list FrameResult) (this : t) : t :=
  {| results := rs; filteredResults := filteredResults this;
     currentIndex := currentIndex this;
     filterCriteria := filterCriteria this;
     showBoundingBoxes := showBoundingBoxes this |}.

Definition set_filteredResults (rs : list FrameResult) (this : t) : t :=
  {| results := results this; filteredResults := rs;
     currentIndex := currentIndex this;
     filterCriteria := filterCriteria this;
     showBoundingBoxes := showBoundingBoxes this |}.

Definition set_currentIndex (i : Z) (this : t) : t :=
  {| results := results this; filteredResults := filteredResults this;
     currentIndex := i;
     filterCriteria := filterCriteria this;
     showBoundingBoxes := showBoundingBoxes this |}.

Definition set_filterCriteria (c : gmap string value) (this : t) : t :=
  {| results := results this; filteredResults := filteredResults this;
     currentIndex := currentIndex this;
     filterCriteria := c;
     showBoundingBoxes := showBoundingBoxes this |}.

Definition set_showBoundingBoxes (b : value) (this : t) : t :=
  {| results := results this; filteredResults := filteredResults this;
     currentIndex := currentIndex this;
     filterCriteria := filterCriteria this;
     showBoundingBoxes := b |}.

(** [applyFilters] filters the results held by the global parser
    ([window.jsonParser]), falls back to the viewer's own [results] and
    repairs the position. It has no [return] statement: a caller gets
    [undefined]. When [filterResults] throws, nothing has been assigned. *)
Definition applyFilters (parser : JSONParser.t) (this : t) : t * outcome value :=
  match JSONParser.filterResults parser (filterCriteria this) with
  | Ok filtered =>
      let this1 := set_filteredResults filtered this in
      let this2 :=
        if (len (filteredResults this1) =? 0) && (0 <? len (results this1))
        then set_filteredResults (results this1) this1 else this1 in
      let this3 :=
        if len (filteredResults this2) <=? currentIndex this2
        then set_currentIndex 0 this2 else this2 in
      (this3, Ok VUndef)
  | Throw e => (this, Throw e)
  | Unmodelled => (this, Unmodelled)
  end.

Definition loadResults (parser : JSONParser.t) (this : t)
    (results : list FrameResult) : t * outcome value :=
  match applyFilters parser (set_results results this) with
  | (this1, Ok _) => (set_currentIndex 0 this1, Ok VUndef)
  | (this1, Throw e) => (this1, Throw e)
  | (this1, Unmodelled) => (this1, Unmodelled)
  end.

Definition next (this : t) : t :=
  if currentIndex this <? len (filteredResults this) - 1
  then set_currentIndex (currentIndex this + 1) this else this.

Definition previous (this : t) : t :=
  if 0 <? currentIndex this
  then set_currentIndex (currentIndex this - 1) this else this.

Definition first (this : t) : t := set_currentIndex 0 this.

Definition last (this : t) : t :=
  set_currentIndex (len (filteredResults this) - 1) this.

(** [jumpTo(index)], called with a number. *)
Definition jumpTo (this : t) (index' : Z) : t * bool :=
  let resultIndex :=
    findIndex (λ r, strict_eq (index r) (VNum index')) (filteredResults this) in
  if negb (resultIndex =? -1)
  then (set_currentIndex resultIndex this, true)
  else (this, false).

Definition toggleBoundingBoxes (this : t) (enabled : value) : t :=
  set_showBoundingBoxes enabled this.

Definition updateFilter (parser : JSONParser.t) (this : t)
    (filterName : string) (enabled : value) : t * outcome value :=
  applyFilters parser
    (set_filterCriteria (<[filterName := enabled]> (filterCriteria this)) this).

Definition clearFilters (parser : JSONParser.t) (this : t) : t * outcome value :=
  applyFilters parser (set_filterCriteria noCriteria this).

(** [this.filteredResults[this.currentIndex]] *)
Definition getCurrentResult (this : t) : option FrameResult :=
  if currentIndex this <? 0 then None
  else filteredResults this !! Z.to_nat (currentIndex this).

(** The operations a user can fire on a loaded viewer. *)
Inductive op :=
| UpdateFilter (filterName : string) (enabled : value)
| ClearFilters
| Next
| Previous
| First
| Last
| JumpTo (index' : Z).

(** The viewer after one operation; for an operation that throws, the
    viewer as the exception left it. *)
Definition step (parser : JSONParser.t) (this : t) (o : op) : t :=
  match o with
  | UpdateFilter filterName enabled => (updateFilter parser this filterName enabled).1
  | ClearFilters => (clearFilters parser this).1
  | Next => next this
  | Previous => previous this
  | First => first this
  | Last => last this
  | JumpTo i => (jumpTo this i).1
  end.

Definition run (parser : JSONParser.t) (this : t) (ops : list op) : t :=
  fold_left (step parser) ops this.

(** The [disabled] values [updateNavigationButtons] gives to the four
    buttons. *)
Record NavigationButtons := {
  prevBtn : bool;
  firstBtn : bool;
  nextBtn : bool;
  lastBtn : bool
}.

Definition updateNavigationButtons (this : t) : NavigationButtons :=
  {| prevBtn := currentIndex this =? 0;
     firstBtn := currentIndex this =? 0;
     nextBtn := len (filteredResults this) - 1 <=? currentIndex this;
     lastBtn := len (filteredResults this) - 1 <=? currentIndex this |}.

(** One round of the loop of [preloadAdjacent]: what the offset [i] adds to
    [toPreload]. *)
Definition preloadCandidate (this : t) (i : Z) : list value :=
  let index' := currentIndex this + i in
  if (0 <=? index') && (index' <? len (filteredResults this))
     && negb (index' =? currentIndex this)
  then
    match filteredResults this !! Z.to_nat index' with
    | Some result =>
        let key :=
          match screenshot result with Some s => s3Key s | None => VUndef end in
        if truthy key then [key] else []
    | None => []
    end
  else [].

(** The [toPreload] list of [preloadAdjacent]; [preloadImages] is called
    with it when it is not empty. *)
Definition preloadAdjacent (this : t) : list value :=
  concat (map (preloadCandidate this) [-1; 0; 1; 2; 3]).

(** The [title] of a timeline item, a template literal with the holes
    [result.index] and [result.screenshot?.timestamp || 'N/A']. The text
    goes to the page; a conversion that throws ends [renderTimeline]. *)
Definition timelineTitle (result : FrameResult) : outcome unit :=
  _ ← converts (index result);
  converts (js_or (match screenshot result with
                   | Some s => timestamp s
                   | None => VUndef
                   end) (VStr "N/A")).

(** The loop of [renderTimeline] from the position [i] on: the items
    appended to the track, each being the position its click handler will
    set, and how the loop ends. An item whose title throws is not
    appended; the items before it are on the page. *)
Fixpoint timelineItems (rs : list FrameResult) (i : Z) : list Z * outcome value :=
  match rs with
  | [] => ([], Ok VUndef)
  | r :: rs' =>
      match timelineTitle r with
      | Ok _ => let '(items, o) := timelineItems rs' (i + 1) in (i :: items, o)
      | Throw e => ([], Throw e)
      | Unmodelled => ([], Unmodelled)
      end
  end.

(** [renderTimeline] empties the track, then appends one item per filtered
    result. *)
Definition renderTimeline (this : t) : list Z * outcome value :=
  timelineItems (filteredResults this) 0.

(** The end of [loadResults], [updateFilter] and [clearFilters]: when
    [applyFilters] has returned (and [loadResults] has reset the position)
    the timeline is rendered; [displayCurrent], which comes last, is
    asynchronous and never throws into its caller. [before] is the
    timeline on the page before the call, which stays when [applyFilters]
    throws. *)
Definition rendered (before : list Z) (r : t * outcome value)
  : t * list Z * outcome value :=
  match r with
  | (this1, Ok _) =>
      let '(items, o) := renderTimeline this1 in (this1, items, o)
  | (this1, o) => (this1, before, o)
  end.

(** The click handler of a timeline item. *)
Definition clickTimelineItem (this : t) (index' : Z) : t :=
  set_currentIndex index' this.

End ScreenshotViewer.

(** ** The application: main.js *)

Module Main.

(** The two singletons the handlers act on, the timeline items of the page,
    and [appState.jsonLoaded]. *)
Record App := {
  parser : JSONParser.t;
  viewer : ScreenshotViewer.t;
  timeline : list Z;
  jsonLoaded : bool
}.

Definition init : App :=
  {| parser := JSONParser.constructor;
     viewer := ScreenshotViewer.constructor;
     timeline := [];
     jsonLoaded := false |}.

(** [formatTimestamp(timestamp)] as [displaySessionInfo] writes it to the
    page. A falsy timestamp is shown as [N/A]. Otherwise [new Date]
    converts the timestamp to a primitive, which throws when [to_string]
    does; the [catch] then returns the timestamp itself, and writing it to
    the page converts it again, outside the [try]. The text of a date is
    not modelled. *)
Definition showTimestamp (timestamp : value) : outcome unit :=
  if negb (truthy timestamp) then Ok () else converts timestamp.

(** [displaySessionInfo(metadata)]: five fields of the metadata are
    written to the page, then the two counts of the statistics, then the
    time of the analysis. *)
Definition displaySessionInfo (p : JSONParser.t) (metadata : option SessionMetadata)
  : outcome unit :=
  match metadata with
  | None => Throw "TypeError: cannot read properties of null or undefined"
  | Some metadata =>
      _ ← converts (platform metadata);
      _ ← converts (channel metadata);
      _ ← converts (date metadata);
      _ ← converts (sessionId metadata);
      _ ← converts (total metadata);
      _ ← JSONParser.getDiscrepancyStats p;
      showTimestamp (analyzedAt metadata)
  end.

(** The click handler of the load button, past its two guards, from the
    moment the file has been read: on the document [JSON.parse] made of it
    ([None] when the file cannot be read or is not JSON). The [try] block
    parses the document, sets [jsonLoaded], shows the session
    information, then loads the results into the viewer, which renders the
    timeline. An exception at any of these steps ends in the [catch],
    which sets [jsonLoaded] to false and undoes nothing of what the steps
    before it did. *)
Definition loadAnalysis (app : App) (data : option value) : App :=
  let failed (p : JSONParser.t) (v : ScreenshotViewer.t) (items : list Z) :=
    {| parser := p; viewer := v; timeline := items; jsonLoaded := false |} in
  match data with
  | None => failed (parser app) (viewer app) (timeline app)
  | Some data =>
      match JSONParser.validateAndParse (parser app) data with
      | (p, Ok _) =>
          match displaySessionInfo p (JSONParser.sessionMetadata p) with
          | Ok _ =>
              match ScreenshotViewer.rendered (timeline app)
                      (ScreenshotViewer.loadResults p (viewer app)
                         (JSONParser.results p)) with
              | (v, items, Ok _) =>
                  {| parser := p; viewer := v; timeline := items;
                     jsonLoaded := true |}
              | (v, items, _) => failed p v items
              end
          | _ => failed p (viewer app) (timeline app)
          end
      | (p, _) => failed p (viewer app) (timeline app)
      end
  end.

(** A call of [updateFilter] or [clearFilters] from a handler, with the
    rendering it ends with. An exception is not caught by the handler:
    the page stays as the exception left it. *)
Definition refiltered (app : App) (r : ScreenshotViewer.t * outcome value) : App :=
  let '(v, items, _) := ScreenshotViewer.rendered (timeline app) r in
  {| parser := parser app; viewer := v; timeline := items;
     jsonLoaded := jsonLoaded app |}.

Definition moved (app : App) (v : ScreenshotViewer.t) : App :=
  {| parser := parser app; viewer := v; timeline := timeline app;
     jsonLoaded := jsonLoaded app |}.

(** The keys of the keyboard shortcuts; [KeyB] carries the new state of
    the bounding-box check box. *)
Inductive key := ArrowLeft | ArrowRight | Home | End_ | KeyB (checked : bool).

(** What a user can do on the page: load a file, press a button or change a
    filter check box, press a key, click the [n]-th item of the timeline,
    change the bounding-box check box, change the highlight check box. *)
Inductive event :=
| Load (data : option value)
| Button (o : ScreenshotViewer.op)
| Key (k : key)
| ClickItem (n : nat)
| Boxes (checked : bool)
| Highlight.

Definition handle (app : App) (e : event) : App :=
  match e with
  | Load data => loadAnalysis app data
  | Button (ScreenshotViewer.UpdateFilter filterName enabled) =>
      refiltered app
        (ScreenshotViewer.updateFilter (parser app) (viewer app) filterName enabled)
  | Button ScreenshotViewer.ClearFilters =>
      refiltered app (ScreenshotViewer.clearFilters (parser app) (viewer app))
  | Button o => moved app (ScreenshotViewer.step (parser app) (viewer app) o)
  | Key k =>
      if jsonLoaded app then
        moved app
          match k with
          | ArrowLeft => ScreenshotViewer.previous (viewer app)
          | ArrowRight => ScreenshotViewer.next (viewer app)
          | Home => ScreenshotViewer.first (viewer app)
          | End_ => ScreenshotViewer.last (viewer app)
          | KeyB checked =>
              ScreenshotViewer.toggleBoundingBoxes (viewer app) (VBool checked)
          end
      else app
  | ClickItem n =>
      match timeline app !! n with
      | Some i => moved app (ScreenshotViewer.clickTimelineItem (viewer app) i)
      | None => app
      end
  | Boxes checked =>
      moved app (ScreenshotViewer.toggleBoundingBoxes (viewer app) (VBool checked))
  | Highlight =>
      {| parser := parser app; viewer := viewer app;
         timeline := (ScreenshotViewer.renderTimeline (viewer app)).1;
         jsonLoaded := jsonLoaded app |}
  end.

Definition handleAll (app : App) (events : list event) : App :=
  fold_left handle events app.

End Main.

(** * Vocabulary of the properties *)

Import JSONParser.

(** ** Flags of a parsed result *)

(** The logical OR of the four discrepancy flags of a flags object. *)
Definition anyFlag (flags : value) : bool :=
  truthy (prop flags "ml_vs_postprocessing")
  || truthy (prop flags "postprocessing_vs_db")
  || truthy (prop flags "missing_in_db")
  || truthy (prop flags "extra_in_db").

(** What [parseResult] guarantees about the flags of its result: the flags
    value can be read, and [hasDiscrepancy] agrees with it. *)
Definition flags_ok (r : FrameResult) : Prop :=
  truthy (discrepancyFlags r) = true
  ∧ truthy (hasDiscrepancy r) = anyFlag (discrepancyFlags r).

(** The parser states the program can be in: the fresh parser, and any state
    after a call of [validateAndParse] (returning or throwing) or
    [clear]. *)
Inductive reachable : JSONParser.t → Prop :=
| reachable_new : reachable JSONParser.constructor
| reachable_parse p data :
    reachable p → reachable (validateAndParse p data).1
| reachable_clear p : reachable p → reachable (clear p).

(** The invariant of the parser: every result it holds has readable,
    consistent flags, and [discrepancyCount] is the count of the results
    whose [hasDiscrepancy] is truthy. *)
Definition parser_inv (p : JSONParser.t) : Prop :=
  Forall flags_ok (results p)
  ∧ discrepancyCount p = countDiscrepancies (results p).

(** ** Sample documents *)

(** An object literal. *)
Definition obj (fields : list (string * value)) : value :=
  VObj (list_to_map fields).

(** A frame with two detections, one confirmed game, and that game missing
    from the database. *)
Definition sample_frame : value :=
  obj [("index", VNum 7);
       ("ml_inference",
        obj [("games", VArr [obj [("class", VStr "slots"); ("confidence", VNum 1)];
                             obj [("class", VStr "poker"); ("confidence", VNum 1)]]);
             ("number_of_games", VNum 2)]);
       ("post_processed",
        obj [("games", VArr [obj [("game_id", VStr "slots");
                                  ("game_session_id", VStr "gs-42")]]);
             ("game_count", VNum 1)]);
       ("db_sessions", VArr [obj [("game_session_id", VStr "gs-7");
                                  ("game_identifier", VStr "roulette")]]);
       ("discrepancy_flags",
        obj [("ml_vs_postprocessing", VBool true);
             ("missing_in_db", VBool true);
             ("extra_in_db", VBool true)])].

(** A frame with an index and nothing else. *)
Definition bare_frame : value := obj [("index", VNum 8)].

Definition bare_result : FrameResult :=
  {| index := VNum 8; screenshot := None; mlInference := None;
     postProcessed := None; dbSessions := []; dbGameCounts := [];
     discrepancyFlags := VObj ∅; hasDiscrepancy := VBool false |}.

Definition sample_document : value :=
  obj [("session_id", VStr "s-1");
       ("results", VArr [sample_frame; bare_frame])].

Definition sample_parser : JSONParser.t :=
  (validateAndParse JSONParser.constructor sample_document).1.

(** What [parseResult] makes of [sample_frame]. *)
Definition sample_result : FrameResult :=
  {| index := VNum 7;
     screenshot := None;
     mlInference :=
       Some {| ml_games :=
                 [{| ml_class := VStr "slots"; confidence := VNum 1; box := VNull |};
                  {| ml_class := VStr "poker"; confidence := VNum 1; box := VNull |}];
               numberOfGames := VNum 2; latencyMs := VNum 0;
               isUniformFrame := VBool false; ml_error := VNull |};
     postProcessed :=
       Some {| pp_games :=
                 [{| gameId := VStr "slots"; pg_gameSessionId := VStr "gs-42" |}];
               gameCount := VNum 1; eventType := VStr "UNKNOWN";
               appliedThreshold := VBool false; slidingWindowState := VArr [];
               pp_error := VNull |};
     dbSessions :=
       [{| db_gameSessionId := VStr "gs-7"; db_gameIdentifier := VStr "roulette";
           gameName := VStr "roulette"; startTime := VUndef; endTime := VUndef;
           trueAirtime := VNum 0; matchesScreenshot := VBool true |}];
     dbGameCounts := [];
     discrepancyFlags :=
       obj [("ml_vs_postprocessing", VBool true);
            ("missing_in_db", VBool true);
            ("extra_in_db", VBool true)];
     hasDiscrepancy := VBool true |}.

(** ** Counts compared by the classifier *)

(** The number held by a count field. *)
Definition count_of (v : value) : Z :=
  match v with VNum n => n | _ => 0 end.

(** The inference count of a result: the recorded [numberOfGames], and [0]
    when the result has no inference stage. *)
Definition inferenceCount (r : FrameResult) : Z :=
  match mlInference r with
  | Some ml => count_of (numberOfGames ml)
  | None => 0
  end.

(** The post-processed count of a result, likewise. *)
Definition postProcessedCount (r : FrameResult) : Z :=
  match postProcessed r with
  | Some pp => count_of (gameCount pp)
  | None => 0
  end.

(** The counts of the stages a result has are numbers. *)
Definition numericCounts (r : FrameResult) : Prop :=
  (∀ ml, mlInference r = Some ml → ∃ n, numberOfGames ml = VNum n)
  ∧ (∀ pp, postProcessed r = Some pp → ∃ n, gameCount pp = VNum n).

(** A count field of a raw stage that follows the schema: absent, or a
    number. *)
Definition countField (v : value) : Prop := v = VUndef ∨ ∃ n, v = VNum n.

(** A stage has failed when it carries an [error]. *)
Definition inferenceFailed (r : FrameResult) : bool :=
  match mlInference r with
  | Some ml => truthy (ml_error ml)
  | None => false
  end.

Definition postProcessedFailed (r : FrameResult) : bool :=
  match postProcessed r with
  | Some pp => truthy (pp_error pp)
  | None => false
  end.

(** The counts as the specification words them: an absent or failed stage
    counts as [0]. *)
Definition spec_inferenceCount (r : FrameResult) : Z :=
  if inferenceFailed r then 0 else inferenceCount r.

Definition spec_postProcessedCount (r : FrameResult) : Z :=
  if postProcessedFailed r then 0 else postProcessedCount r.

(** The severity the specification gives to two counts. *)
Definition spec_severity (inference post : Z) : string :=
  if post <? inference then "info"
  else if inference <? post then "error"
  else "warning".

(** A frame whose inference stage failed after reporting two games. *)
Definition failed_frame : value :=
  obj [("index", VNum 3);
       ("ml_inference",
        obj [("number_of_games", VNum 2); ("error", VStr "timeout")]);
       ("post_processed", obj [("game_count", VNum 1)]);
       ("discrepancy_flags", obj [("ml_vs_postprocessing", VBool true)])].

Definition failed_result : FrameResult :=
  {| index := VNum 3;
     screenshot := None;
     mlInference :=
       Some {| ml_games := []; numberOfGames := VNum 2; latencyMs := VNum 0;
               isUniformFrame := VBool false; ml_error := VStr "timeout" |};
     postProcessed :=
       Some {| pp_games := []; gameCount := VNum 1; eventType := VStr "UNKNOWN";
               appliedThreshold := VBool false; slidingWindowState := VArr [];
               pp_error := VNull |};
     dbSessions := [];
     dbGameCounts := [];
     discrepancyFlags := obj [("ml_vs_postprocessing", VBool true)];
     hasDiscrepancy := VBool true |}.

(** ** Identifiers compared by the classifier *)

(** The post-processed games of a result: the games of its post-processed
    stage, and none when the result has no such stage. *)
Definition postProcessedGames (r : FrameResult) : list PostGame :=
  match postProcessed r with
  | Some pp => pp_games pp
  | None => []
  end.

(** The [gameSessionId]s of the post-processed games of a result are
    primitive values (strings, in a document that follows the schema). *)
Definition postIdsPrimitive (r : FrameResult) : Prop :=
  Forall (λ g, primitive (pg_gameSessionId g) = true) (postProcessedGames r).

(** The same of its database sessions. *)
Definition dbIdsPrimitive (r : FrameResult) : Prop :=
  Forall (λ s, primitive (db_gameSessionId s) = true) (dbSessions r).

(** A frame with two post-processed games and two database sessions, one
    of which is the session of the second game. *)
Definition mixed_frame : value :=
  obj [("index", VNum 4);
       ("post_processed",
        obj [("games", VArr [obj [("game_id", VStr "slots");
                                  ("game_session_id", VStr "gs-1")];
                             obj [("game_id", VStr "poker");
                                  ("game_session_id", VStr "gs-2")]]);
             ("game_count", VNum 2)]);
       ("db_sessions", VArr [obj [("game_session_id", VStr "gs-2");
                                  ("game_identifier", VStr "poker")];
                             obj [("game_session_id", VStr "gs-3");
                                  ("game_identifier", VStr "roulette")]]);
       ("discrepancy_flags",
        obj [("postprocessing_vs_db", VBool true);
             ("missing_in_db", VBool true);
             ("extra_in_db", VBool true)])].

Definition slots_game : PostGame :=
  {| gameId := VStr "slots"; pg_gameSessionId := VStr "gs-1" |}.

Definition poker_game : PostGame :=
  {| gameId := VStr "poker"; pg_gameSessionId := VStr "gs-2" |}.

Definition poker_session : DBSession :=
  {| db_gameSessionId := VStr "gs-2"; db_gameIdentifier := VStr "poker";
     gameName := VStr "poker"; startTime := VUndef; endTime := VUndef;
     trueAirtime := VNum 0; matchesScreenshot := VBool true |}.

Definition roulette_session : DBSession :=
  {| db_gameSessionId := VStr "gs-3"; db_gameIdentifier := VStr "roulette";
     gameName := VStr "roulette"; startTime := VUndef; endTime := VUndef;
     trueAirtime := VNum 0; matchesScreenshot := VBool true |}.

(** What [parseResult] makes of [mixed_frame]. *)
Definition mixed_result : FrameResult :=
  {| index := VNum 4;
     screenshot := None;
     mlInference := None;
     postProcessed :=
       Some {| pp_games := [slots_game; poker_game];
               gameCount := VNum 2; eventType := VStr "UNKNOWN";
               appliedThreshold := VBool false; slidingWindowState := VArr [];
               pp_error := VNull |};
     dbSessions := [poker_session; roulette_session];
     dbGameCounts := [];
     discrepancyFlags :=
       obj [("postprocessing_vs_db", VBool true);
            ("missing_in_db", VBool true);
            ("extra_in_db", VBool true)];
     hasDiscrepancy := VBool true |}.

(** A result whose two games are the games of its two sessions, in another
    order. *)
Definition matched_result : FrameResult :=
  {| index := VNum 5;
     screenshot := None;
     mlInference := None;
     postProcessed :=
       Some {| pp_games := [slots_game; poker_game];
               gameCount := VNum 2; eventType := VStr "UNKNOWN";
               appliedThreshold := VBool false; slidingWindowState := VArr [];
               pp_error := VNull |};
     dbSessions :=
       [poker_session;
        {| db_gameSessionId := VStr "gs-1"; db_gameIdentifier := VStr "slots";
           gameName := VStr "slots"; startTime := VUndef; endTime := VUndef;
           trueAirtime := VNum 0; matchesScreenshot := VBool true |}];
     dbGameCounts := [];
     discrepancyFlags := VObj ∅;
     hasDiscrepancy := VBool false |}.

(** The records of a list of discrepancies that have a given [type]. *)
Definition ofType (ty : string) (ds : list Discrepancy) : list Discrepancy :=
  filter (λ d, type d = ty) ds.

(** ** Lists to reconcile *)

(** Game objects with a [gameId] and a [gameSessionId]; [item.gameId] of an
    object without the property is [undefined] ([None]). *)
Definition game (gameId' gameSessionId' : string) : gmap string string :=
  <["gameId" := gameId']> (<["gameSessionId" := gameSessionId']> ∅).

Definition byGameId (item : gmap string string) : option string :=
  item !! "gameId".

(** ** Filtered views *)

(** The callback of [filterResults] on a result whose flags can be read. *)
Definition matches (criteria : gmap string value) (r : FrameResult) : bool :=
  let rejected (k flag : string) :=
    criterion criteria k && negb (truthy (prop (discrepancyFlags r) flag)) in
  negb (criterion criteria "onlyDiscrepancies" && negb (truthy (hasDiscrepancy r)))
  && negb (rejected "mlVsPost" "ml_vs_postprocessing")
  && negb (rejected "postVsDb" "postprocessing_vs_db")
  && negb (rejected "missingInDb" "missing_in_db")
  && negb (rejected "extraInDb" "extra_in_db").

(** The view [applyFilters] settles on: the filtered results, or all the
    results of the viewer when the filter left none. *)
Definition shown (filtered all : list FrameResult) : list FrameResult :=
  if (len filtered =? 0) && (0 <? len all) then all else filtered.

(** The invariant of a loaded viewer. *)
Definition viewer_inv (v : ScreenshotViewer.t) : Prop :=
  ScreenshotViewer.results v ≠ []
  ∧ ScreenshotViewer.filteredResults v ≠ []
  ∧ 0 ≤ ScreenshotViewer.currentIndex v
      < len (ScreenshotViewer.filteredResults v).

(** A session of one frame without discrepancies, and a viewer on it that
    asks for discrepancies only. *)
Definition bare_document : value :=
  obj [("session_id", VStr "s-2"); ("results", VArr [bare_frame])].

Definition bare_parser : JSONParser.t :=
  (validateAndParse JSONParser.constructor bare_document).1.

Definition onlyDiscrepancies : gmap string value :=
  <["onlyDiscrepancies" := VBool true]> ScreenshotViewer.noCriteria.

Definition bare_viewer : ScreenshotViewer.t :=
  (ScreenshotViewer.loadResults bare_parser ScreenshotViewer.constructor
     (results bare_parser)).1.

Definition sample_viewer : ScreenshotViewer.t :=
  (ScreenshotViewer.loadResults sample_parser ScreenshotViewer.constructor
     (results sample_parser)).1.

(** ** Raw results with fields left out *)


(** The code returns (it neither throws nor leaves the model). *)
Definition returns {A} (m : outcome A) : Prop := ∃ a, m = Ok a.

(** A database session that says nothing about the screenshot. *)
Definition plain_session : value :=
  obj [("game_session_id", VStr "gs-7"); ("game_identifier", VStr "roulette")].

(** A detection without a confidence. *)
Definition plain_detection : value := obj [("class", VStr "slots")].

(** A frame with an index, whose list of detections holds a [null]. *)
Definition null_detection_frame : value :=
  obj [("index", VNum 1); ("ml_inference", obj [("games", VArr [VNull])])].

(** * Vocabulary of the further properties *)

(** A flag of a result is set. *)
Definition flagSet (k : string) (r : FrameResult) : bool :=
  truthy (prop (discrepancyFlags r) k).

(** A document whose results hold a frame that does not parse. *)
Definition broken_document : value :=
  obj [("session_id", VStr "s-3"); ("platform", VStr "web");
       ("results", VArr [bare_frame; null_detection_frame])].

(** The four category toggles of the filter, each with the flag it asks
    for. *)
Definition categoryCriteria : list (string * string) :=
  [("mlVsPost", "ml_vs_postprocessing");
   ("postVsDb", "postprocessing_vs_db");
   ("missingInDb", "missing_in_db");
   ("extraInDb", "extra_in_db")].

(** The evidence lists of the two database records. *)
Definition missingGamesOf (d : Discrepancy) : list PostGame :=
  match details d with
  | MissingInDbDetails missing _ _ => missing
  | _ => []
  end.

Definition extraSessionsOf (d : Discrepancy) : list DBSession :=
  match details d with
  | ExtraInDbDetails extra => extra
  | _ => []
  end.


(** ** Reading an airtime back *)

(** The digit a character stands for: the codes 48 to 57 are the
    characters [0] to [9]. *)
Definition digit_of (c : Ascii.ascii) : option Z :=
  let code := Z.of_N (Ascii.N_of_ascii c) in
  if (48 <=? code) && (code <=? 57) then Some (code - 48) else None.

(** The codes of the letters [h], [m] and [s]. *)
Definition is_letter (code : Z) (c : Ascii.ascii) : bool :=
  Z.of_N (Ascii.N_of_ascii c) =? code.

(** The number of seconds a text such as [1h 2m 3s] stands for: [total] is
    the sum of the components read so far, [acc] the number being read. *)
Fixpoint readAirtime (s : string) (total acc : Z) : Z :=
  match s with
  | EmptyString => total
  | String c s' =>
      match digit_of c with
      | Some d => readAirtime s' total (10 * acc + d)
      | None =>
          if is_letter 104 c then readAirtime s' (total + 3600 * acc) 0
          else if is_letter 109 c then readAirtime s' (total + 60 * acc) 0
          else if is_letter 115 c then readAirtime s' (total + acc) 0
          else readAirtime s' total acc
      end
  end.

(** ** Positions of the viewer *)

(** The position of the viewer is a position of its filtered view. *)
Definition inView (v : ScreenshotViewer.t) : Prop :=
  0 ≤ ScreenshotViewer.currentIndex v
    < len (ScreenshotViewer.filteredResults v).

(** The names of the five criteria [filterResults] reads. *)
Definition criteriaNames : list string :=
  ["onlyDiscrepancies"; "mlVsPost"; "postVsDb"; "missingInDb"; "extraInDb"].

(** ** Values that can be turned into text *)

(** An object with an own property [toString] cannot be converted to a
    string, nor can an array that holds such an object, at any depth. *)
Fixpoint convertible (v : value) : bool :=
  match v with
  | VObj fields =>
      match fields !! "toString" with Some _ => false | None => true end
  | VArr items => forallb convertible items
  | _ => true
  end.

(** A value whose text this development gives: it can be converted, and
    the numbers in it are in the range that is printed in decimal. *)
Fixpoint printable (v : value) : bool :=
  match v with
  | VObj fields =>
      match fields !! "toString" with Some _ => false | None => true end
  | VArr items => forallb printable items
  | VNum n => safe n
  | _ => true
  end.

(** The message of the TypeError of a conversion. *)
Definition conversion_error : string :=
  "TypeError: Cannot convert object to primitive value".

(** ** The application *)

(** The six fields of a document that the page shows as the information
    of the session. *)
Definition sessionFields : list string :=
  ["platform"; "channel"; "date"; "session_id"; "total"; "analyzed_at"].

(** The information of the session of a document can be written to the
    page. *)
Definition sessionWritable (data : value) : bool :=
  forallb (λ k, convertible (prop data k)) sessionFields.

(** The title of the timeline item of a result can be written: its index
    and the timestamp of its screenshot can be converted. *)
Definition titleWritable (r : FrameResult) : bool :=
  convertible (index r)
  && match screenshot r with
     | Some s => convertible (timestamp s)
     | None => true
     end.

(** The number of results at the head of a view whose titles can be
    written: the items [renderTimeline] appends before it stops. *)
Fixpoint titledPrefix (rs : list FrameResult) : nat :=
  match rs with
  | [] => 0
  | r :: rs' => if titleWritable r then S (titledPrefix rs') else 0
  end.

(** An event that is not a load of a document whose session information
    cannot be written. *)
Definition clean (e : Main.event) : Prop :=
  match e with
  | Main.Load (Some data) => sessionWritable data = true
  | _ => True
  end.

(** What every state of the page satisfies: the parser is consistent, and
    every item of the timeline stands for a position of the view. *)
Definition app_inv (app : Main.App) : Prop :=
  parser_inv (Main.parser app)
  ∧ Forall (λ i, 0 ≤ i < len (ScreenshotViewer.filteredResults (Main.viewer app)))
      (Main.timeline app).

(** The viewer is in step with the parser: it holds the results of the
    parser, its view is the filter of the current criteria (or all the
    results when the filter leaves none), and the position is inside the
    view as soon as there are results. *)
Definition in_step (app : Main.App) : Prop :=
  ScreenshotViewer.results (Main.viewer app)
  = JSONParser.results (Main.parser app)
  ∧ ScreenshotViewer.filteredResults (Main.viewer app)
    = shown (List.filter
               (matches (ScreenshotViewer.filterCriteria (Main.viewer app)))
               (JSONParser.results (Main.parser app)))
        (JSONParser.results (Main.parser app))
  ∧ (JSONParser.results (Main.parser app) ≠ [] → inView (Main.viewer app)).

(** A document whose platform cannot be written to the page. *)
Definition unwritable_document : value :=
  obj [("session_id", VStr "s-5");
       ("platform", obj [("toString", VNum 1)]);
       ("results", VArr [bare_frame])].

(** A frame whose index cannot be written, and what [parseResult] makes
    of it. *)
Definition untitled_frame : value :=
  obj [("index", obj [("toString", VNum 1)])].

Definition untitled_result : FrameResult :=
  {| index := obj [("toString", VNum 1)]; screenshot := None;
     mlInference := None; postProcessed := None; dbSessions := [];
     dbGameCounts := []; discrepancyFlags := VObj ∅;
     hasDiscrepancy := VBool false |}.

(** A document whose second frame has an index that cannot be written. *)
Definition untitled_document : value :=
  obj [("session_id", VStr "s-6");
       ("results", VArr [bare_frame; untitled_frame])].

(** A document with three frames: the sample frame, a bare one, and a
    frame with a screenshot. *)
Definition shot_frame : value :=
  obj [("index", VNum 9);
       ("screenshot", obj [("filename", VStr "9.png"); ("s3_key", VStr "shots/9.png")])].

Definition long_document : value :=
  obj [("session_id", VStr "s-4");
       ("results", VArr [sample_frame; bare_frame; shot_frame])].

Definition long_viewer : ScreenshotViewer.t :=
  Main.viewer (Main.handleAll Main.init [Main.Load (Some long_document);
                                         Main.Key Main.ArrowRight]).

(** ** The rows of the export *)

(** The cells [csvRow] makes for a result whose flags can be read. *)
Definition csvCells (r : FrameResult) : list value :=
  [index r;
   js_or (match screenshot r with Some s => timestamp s | None => VUndef end)
     (VStr "");
   js_or (match mlInference r with Some ml => numberOfGames ml | None => VUndef end)
     (VNum 0);
   js_or (match postProcessed r with Some pp => gameCount pp | None => VUndef end)
     (VNum 0);
   VNum (len (dbSessions r));
   yesNo (prop (discrepancyFlags r) "ml_vs_postprocessing");
   yesNo (prop (discrepancyFlags r) "postprocessing_vs_db");
   yesNo (prop (discrepancyFlags r) "missing_in_db");
   yesNo (prop (discrepancyFlags r) "extra_in_db")].
(** * Properties *)

(** ** Reading values *)

Lemma truthy_not_nullish v : truthy v = true → nullish v = false.
Proof. by destruct v. Qed.

Lemma get_ok v k : nullish v = false → get v k = Ok (prop v k).
Proof. unfold get. by intros ->. Qed.

Lemma get_truthy v k : truthy v = true → get v k = Ok (prop v k).
Proof. intros Hv. by apply get_ok, truthy_not_nullish. Qed.

Lemma get_inv v k x : get v k = Ok x → nullish v = false ∧ x = prop v k.
Proof. unfold get. destruct (nullish v); [done|]. by intros [= <-]. Qed.

Lemma js_or_truthy a b : truthy b = true → truthy (js_or a b) = true.
Proof. unfold js_or. by destruct (truthy a) eqn:Ha. Qed.

Lemma js_or_absent b : js_or VUndef b = b.
Proof. done. Qed.

Lemma js_or_num n : js_or (VNum n) (VNum 0) = VNum n.
Proof. unfold js_or; simpl. destruct (Z.eqb_spec n 0) as [->|]; done. Qed.

Lemma strict_eq_true a b : strict_eq a b = true → a = b.
Proof.
  destruct a, b; simpl; try done.
  - by intros ->%Bool.eqb_prop.
  - by intros ->%Z.eqb_eq.
  - by intros ->%String.eqb_eq.
Qed.

Lemma strict_eq_refl a : primitive a = true → strict_eq a a = true.
Proof.
  destruct a; simpl; try done; intros _.
  - by destruct b.
  - apply Z.eqb_refl.
  - apply String.eqb_refl.
Qed.

Lemma strict_eq_primitive a b :
  primitive a = true → strict_eq a b = true ↔ a = b.
Proof.
  intros Ha. split; [apply strict_eq_true|]. intros <-. by apply strict_eq_refl.
Qed.

(** ** The monad *)

Lemma bind_ok {A B} (m : outcome A) (k : A → outcome B) b :
  m ≫= k = Ok b → ∃ a, m = Ok a ∧ k a = Ok b.
Proof. destruct m; simpl; [eauto | done | done]. Qed.

Lemma mapM_ok {A B} (f : A → outcome B) l l' :
  mapM f l = Ok l' → Forall2 (λ x y, f x = Ok y) l l'.
Proof.
  revert l'. induction l as [|x l IH]; intros l'; simpl.
  - intros [= <-]. constructor.
  - intros (y & Hy & (ys & Hys & [= <-])%bind_ok)%bind_ok.
    constructor; [done | by apply IH].
Qed.

Lemma mapM_total {A B} (f : A → outcome B) l :
  Forall (λ x, ∃ y, f x = Ok y) l → ∃ l', mapM f l = Ok l'.
Proof.
  induction 1 as [|x l [y Hy] _ [l' Hl']]; simpl; [by eexists|].
  rewrite Hy; simpl. rewrite Hl'; simpl. by eexists.
Qed.

Lemma filterM_ok {A} (f : A → outcome bool) (g : A → bool) l :
  Forall (λ x, f x = Ok (g x)) l → filterM f l = Ok (List.filter g l).
Proof.
  induction 1 as [|x l Hx _ IH]; simpl; [done|].
  rewrite Hx; simpl. rewrite IH; simpl. by destruct (g x).
Qed.

Lemma hasAnyDiscrepancy_spec flags :
  ∃ v, hasAnyDiscrepancy flags = Ok v
       ∧ truthy v = anyFlag (js_or flags (VObj ∅))
       ∧ (truthy flags = false → v = VBool false).
Proof.
  unfold hasAnyDiscrepancy, js_or, anyFlag.
  destruct (truthy flags) eqn:Hf; simpl; [|by eexists].
  rewrite !get_truthy by done; simpl.
  destruct (truthy (prop flags "ml_vs_postprocessing")) eqn:H1; simpl;
    [by eexists|].
  destruct (truthy (prop flags "postprocessing_vs_db")) eqn:H2; simpl;
    [by eexists|].
  destruct (truthy (prop flags "missing_in_db")) eqn:H3; simpl;
    [by eexists|].
  by eexists.
Qed.

Lemma parseResult_inv raw r :
  parseResult raw = Ok r →
  ∃ s ml pp db gc h,
    parseScreenshot (prop raw "screenshot") = Ok s
    ∧ parseMLInference (prop raw "ml_inference") = Ok ml
    ∧ parsePostProcessed (prop raw "post_processed") = Ok pp
    ∧ parseDBSessions (prop raw "db_sessions") = Ok db
    ∧ parseDBGameCounts (prop raw "db_game_counts") = Ok gc
    ∧ hasAnyDiscrepancy (prop raw "discrepancy_flags") = Ok h
    ∧ r = {| index := prop raw "index"; screenshot := s; mlInference := ml;
             postProcessed := pp; dbSessions := db; dbGameCounts := gc;
             discrepancyFlags := js_or (prop raw "discrepancy_flags") (VObj ∅);
             hasDiscrepancy := h |}.
Proof.
  unfold parseResult.
  intros (i & [Hn ->]%get_inv & H)%bind_ok.
  rewrite !get_ok in H by done. simpl in H.
  apply bind_ok in H as (s & Hs & H).
  apply bind_ok in H as (ml & Hml & H).
  apply bind_ok in H as (pp & Hpp & H).
  apply bind_ok in H as (db & Hdb & H).
  apply bind_ok in H as (gc & Hgc & H).
  apply bind_ok in H as (h & Hh & [= <-]).
  by exists s, ml, pp, db, gc, h.
Qed.

Lemma parseResult_flags_ok raw r : parseResult raw = Ok r → flags_ok r.
Proof.
  intros (s & ml & pp & db & gc & h & _ & _ & _ & _ & _ & Hh & ->)%parseResult_inv.
  destruct (hasAnyDiscrepancy_spec (prop raw "discrepancy_flags"))
    as (v & Hv & Hor & _).
  rewrite Hv in Hh. injection Hh as <-.
  split; simpl; [by apply js_or_truthy | done].
Qed.

Lemma countFlags_ok stats r :
  truthy (discrepancyFlags r) = true →
  ∃ stats', countFlags stats r = Ok stats'
            ∧ withDiscrepancies stats' = withDiscrepancies stats.
Proof.
  intros Hr. unfold countFlags. rewrite !get_truthy by done. simpl.
  by eexists.
Qed.

Lemma foldM_countFlags rs : ∀ stats,
  Forall flags_ok rs →
  ∃ stats', foldM countFlags stats rs = Ok stats'
            ∧ withDiscrepancies stats' = withDiscrepancies stats.
Proof.
  induction rs as [|r rs IH]; intros stats Hrs; simpl; [by eexists|].
  apply Forall_cons in Hrs as [[Hr _] Hrs].
  destruct (countFlags_ok stats r Hr) as (s1 & -> & <-). simpl.
  by apply IH.
Qed.

Lemma validateAndParse_results p data p' :
  validateAndParse p data = (p', Ok ()) →
  ∃ metadata raw,
    validateAndMetadata data = Ok (metadata, raw)
    ∧ Forall2 (λ x r, parseResult x = Ok r) raw (results p')
    ∧ sessionMetadata p' = Some metadata
    ∧ discrepancyCount p' = countDiscrepancies (results p')
    ∧ analysisData p' = data.
Proof.
  unfold validateAndParse.
  destruct (validateAndMetadata data) as [[metadata raw]| |]; [|done..].
  destruct (mapM parseResult raw) as [rs| |] eqn:Hrs; [|done..].
  intros [= <-]. exists metadata, raw. simpl.
  split_and!; try done. by apply mapM_ok.
Qed.

Lemma validateAndParse_inv p data :
  parser_inv p → parser_inv (validateAndParse p data).1.
Proof.
  intros Hp. unfold validateAndParse.
  destruct (validateAndMetadata data) as [[metadata raw]| |]; [|done..].
  destruct (mapM parseResult raw) as [rs| |] eqn:Hrs; [|done..].
  split; simpl; [|done].
  apply mapM_ok in Hrs.
  induction Hrs as [|x r raw' rs' Hx _ IH]; constructor; [|done].
  by eapply parseResult_flags_ok.
Qed.

Lemma reachable_inv p : reachable p → parser_inv p.
Proof.
  induction 1 as [|p data _ IH|p _ _].
  - by split; [constructor|].
  - by apply validateAndParse_inv.
  - by split; [constructor|].
Qed.

Lemma count_any_flag rs :
  Forall flags_ok rs →
  countDiscrepancies rs
  = len (filter (λ r, anyFlag (discrepancyFlags r) = true) rs).
Proof.
  unfold countDiscrepancies, len. intros Hrs. f_equal. f_equal.
  induction Hrs as [|r rs [_ Hr] _ IH]; [done|].
  rewrite !filter_cons, IH, Hr. by repeat case_decide.
Qed.

Example sample_frame_parses : parseResult sample_frame = Ok sample_result.
Proof. vm_compute. reflexivity. Qed.

Example sample_document_parses :
  JSONParser.results sample_parser = [sample_result; bare_result].
Proof. vm_compute. reflexivity. Qed.

Example sample_parser_count : discrepancyCount sample_parser = 1.
Proof. vm_compute. reflexivity. Qed.

Example bare_frame_parses : parseResult bare_frame = Ok bare_result.
Proof. vm_compute. reflexivity. Qed.

(** ** hasDiscrepancy and the statistics *)

(** C7. The [hasDiscrepancy] of a parsed result is truthy exactly when one of
    its four discrepancy flags is, and it is [false] when the raw result has
    no [discrepancy_flags]; in every state of the parser, the
    [withDiscrepancies] statistic is the number of results with at least one
    truthy flag. *)
Theorem hasDiscrepancy_is_or_of_flags raw r p :
  parseResult raw = Ok r →
  reachable p →
  discrepancyFlags r = js_or (prop raw "discrepancy_flags") (VObj ∅)
  ∧ truthy (hasDiscrepancy r) = anyFlag (discrepancyFlags r)
  ∧ (prop raw "discrepancy_flags" = VUndef → hasDiscrepancy r = VBool false)
  ∧ ∃ stats,
      getDiscrepancyStats p = Ok stats
      ∧ withDiscrepancies stats
        = len (filter (λ r, anyFlag (discrepancyFlags r) = true) (results p)).
Proof.
  intros Hr Hp. split_and!.
  - by apply parseResult_inv in Hr as (? & ? & ? & ? & ? & ? & _ & _ & _ & _ & _ & _ & ->).
  - by apply parseResult_flags_ok in Hr as [_ ?].
  - intros Habs.
    apply parseResult_inv in Hr
      as (? & ? & ? & ? & ? & h & _ & _ & _ & _ & _ & Hh & ->).
    rewrite Habs in Hh. injection Hh as <-. done.
  - apply reachable_inv in Hp as [Hall Hcount].
    unfold getDiscrepancyStats.
    edestruct (foldM_countFlags (results p)) as (stats & -> & Hw); [done|].
    exists stats. split; [done|].
    rewrite Hw. simpl. rewrite Hcount. by apply count_any_flag.
Qed.

Lemma hasDiscrepancy_is_or_of_flags_witness :
  truthy (hasDiscrepancy sample_result) = true
  ∧ ∃ stats,
      getDiscrepancyStats sample_parser = Ok stats
      ∧ withDiscrepancies stats = 1.
Proof.
  destruct (hasDiscrepancy_is_or_of_flags sample_frame sample_result sample_parser)
    as (_ & Hor & _ & stats & Hstats & Hw).
  - vm_compute. reflexivity.
  - apply reachable_parse, reachable_new.
  - split; [rewrite Hor; vm_compute; reflexivity|].
    exists stats. split; [done|]. rewrite Hw. vm_compute. reflexivity.
Defined.

(** ** The classifier *)

Import DiscrepancyManager.

Lemma flag_set_object flags k :
  truthy (prop flags k) = true → nullish flags = false.
Proof. by destruct flags. Qed.

(** A template literal whose holes hold numbers returns. *)
Ltac template_returns :=
  unfold template; simpl;
  repeat match goal with |- context [safe ?n] => destruct (safe n) end;
  simpl; by eexists.

Lemma mlCount_numeric r :
  numericCounts r → js_or (mlCount r) (VNum 0) = VNum (inferenceCount r).
Proof.
  intros [Hml _]. unfold mlCount, inferenceCount.
  destruct (mlInference r) as [ml|]; [|done].
  destruct (Hml ml eq_refl) as [n ->]. apply js_or_num.
Qed.

Lemma postCount_numeric r :
  numericCounts r → js_or (postCount r) (VNum 0) = VNum (postProcessedCount r).
Proof.
  intros [_ Hpp]. unfold postCount, postProcessedCount.
  destruct (postProcessed r) as [pp|]; [|done].
  destruct (Hpp pp eq_refl) as [n ->]. apply js_or_num.
Qed.

Lemma analyzeMlVsPost_numeric r :
  numericCounts r →
  ∃ d, analyzeMlVsPost r = Ok d
       ∧ type d = "ml-vs-post"
       ∧ severity d = spec_severity (inferenceCount r) (postProcessedCount r)
       ∧ details d = MlVsPostDetails (mlGamesOf r) (postGamesOf r)
                       (slidingWindowOf r).
Proof.
  intros Hn. unfold analyzeMlVsPost, spec_severity.
  rewrite (mlCount_numeric r Hn), (postCount_numeric r Hn). simpl.
  destruct (postProcessedCount r <? inferenceCount r); [template_returns|].
  destruct (inferenceCount r <? postProcessedCount r); template_returns.
Qed.

(** The records of the first two analyses have their type, whenever the
    analyses return. *)
Lemma analyzeMlVsPost_type r d : analyzeMlVsPost r = Ok d → type d = "ml-vs-post".
Proof.
  unfold analyzeMlVsPost.
  destruct (js_gt _ _) as [[]| |]; simpl; [| |done..].
  - destruct (template _) as [text| |]; simpl; [|done..]. by intros [= <-].
  - destruct (js_lt _ _) as [[]| |]; simpl; [| |done..];
      (destruct (template _) as [text| |]; simpl; [|done..]); by intros [= <-].
Qed.

Lemma analyzePostVsDb_type r d : analyzePostVsDb r = Ok d → type d = "post-vs-db".
Proof.
  unfold analyzePostVsDb.
  destruct (template _) as [text| |]; simpl; [|done..]. by intros [= <-].
Qed.

Lemma analyzePostVsDb_numeric r :
  numericCounts r →
  ∃ text,
    analyzePostVsDb r =
      Ok {| type := "post-vs-db";
            title := "Post-Processing vs Database Mismatch";
            description := text;
            severity := "error";
            details := PostVsDbDetails (postGamesOf r) (dbSessions r) |}.
Proof.
  intros Hn. unfold analyzePostVsDb. rewrite (postCount_numeric r Hn).
  template_returns.
Qed.

Lemma analyses_flags r :
  nullish (discrepancyFlags r) = false →
  analyses r =
    (d1 ← (if truthy (prop (discrepancyFlags r) "ml_vs_postprocessing")
           then d ← analyzeMlVsPost r; Ok [d] else Ok []);
     d2 ← (if truthy (prop (discrepancyFlags r) "postprocessing_vs_db")
           then d ← analyzePostVsDb r; Ok [d] else Ok []);
     Ok (d1
         ++ d2
         ++ (if truthy (prop (discrepancyFlags r) "missing_in_db")
             then [analyzeMissingInDb r] else [])
         ++ (if truthy (prop (discrepancyFlags r) "extra_in_db")
             then [analyzeExtraInDb r] else []))).
Proof.
  intros Hf. unfold analyses. rewrite !get_ok by done. simpl.
  destruct (if truthy _ then _ else _); [simpl|done..].
  by destruct (if truthy _ then _ else _).
Qed.

(** With numeric counts the four analyses all return; the list is the
    records of the flags that are set, in the fixed order. *)
Lemma analyses_numeric r :
  nullish (discrepancyFlags r) = false →
  numericCounts r →
  ∃ d1 d2,
    analyzeMlVsPost r = Ok d1
    ∧ type d1 = "ml-vs-post"
    ∧ severity d1 = spec_severity (inferenceCount r) (postProcessedCount r)
    ∧ analyzePostVsDb r = Ok d2
    ∧ type d2 = "post-vs-db"
    ∧ analyses r =
        Ok ((if truthy (prop (discrepancyFlags r) "ml_vs_postprocessing")
             then [d1] else [])
            ++ (if truthy (prop (discrepancyFlags r) "postprocessing_vs_db")
                then [d2] else [])
            ++ (if truthy (prop (discrepancyFlags r) "missing_in_db")
                then [analyzeMissingInDb r] else [])
            ++ (if truthy (prop (discrepancyFlags r) "extra_in_db")
                then [analyzeExtraInDb r] else [])).
Proof.
  intros Hf Hn. rewrite analyses_flags by done.
  destruct (analyzeMlVsPost_numeric r Hn) as (d1 & Hd1 & Ht1 & Hs1 & _).
  destruct (analyzePostVsDb_numeric r Hn) as (text & Hd2).
  eexists d1, _. split; [done|]. split; [done|]. split; [done|].
  split; [done|]. split; [done|]. rewrite Hd1, Hd2.
  by destruct (truthy (prop (discrepancyFlags r) "ml_vs_postprocessing")),
    (truthy (prop (discrepancyFlags r) "postprocessing_vs_db")).
Qed.

(** C1, as the classifier has it. For a result whose [ml_vs_postprocessing]
    flag is set and whose counts are numbers, [analyzeResult] returns, and
    returns exactly one ml-vs-post record, at the head of the list. Its
    severity is [info] when the inference count is greater than the
    post-processed count, [error] when it is less, [warning] when the two are
    equal, where a stage the result does not have counts as [0] and a stage
    that is present counts as what it recorded, failed or not. *)
Theorem analyzeResult_ml_vs_post (this : DiscrepancyManager.t) r :
  truthy (prop (discrepancyFlags r) "ml_vs_postprocessing") = true →
  numericCounts r →
  ∃ d rest,
    (analyzeResult this r).2 = Ok (d :: rest)
    ∧ type d = "ml-vs-post"
    ∧ Forall (λ d', type d' ≠ "ml-vs-post") rest
    ∧ (postProcessedCount r < inferenceCount r → severity d = "info")
    ∧ (inferenceCount r < postProcessedCount r → severity d = "error")
    ∧ (inferenceCount r = postProcessedCount r → severity d = "warning")
    ∧ (mlInference r = None → inferenceCount r = 0)
    ∧ (postProcessed r = None → postProcessedCount r = 0).
Proof.
  intros Hflag Hn. simpl.
  destruct (analyses_numeric r) as (d & d2 & _ & Ht & Hs & _ & Ht2 & ->);
    [by eapply flag_set_object | done |].
  rewrite Hflag. simpl.
  eexists d, _. split; [done|]. split; [done|].
  split.
  { apply Forall_app; split; [|apply Forall_app; split];
      (match goal with |- Forall _ (if ?b then _ else _) => destruct b end);
      repeat constructor; try done. by rewrite Ht2. }
  rewrite Hs. unfold spec_severity, inferenceCount, postProcessedCount.
  split_and!.
  - intros ?. by rewrite (proj2 (Z.ltb_lt _ _)).
  - intros ?. rewrite (proj2 (Z.ltb_ge _ _)) by lia.
    by rewrite (proj2 (Z.ltb_lt _ _)).
  - intros ->. by rewrite Z.ltb_irrefl.
  - by intros ->.
  - by intros ->.
Qed.

Lemma analyzeResult_ml_vs_post_witness :
  ∃ d rest,
    (analyzeResult DiscrepancyManager.constructor sample_result).2 = Ok (d :: rest)
    ∧ severity d = "info".
Proof.
  destruct (analyzeResult_ml_vs_post DiscrepancyManager.constructor sample_result)
    as (d & rest & Hd & _ & _ & Hinfo & _).
  - vm_compute. reflexivity.
  - split; intros ? [= <-]; by eexists.
  - exists d, rest. split; [done|]. apply Hinfo. vm_compute. reflexivity.
Defined.

(** C1, the counterexample. The result of [failed_frame] has a failed
    inference stage that recorded two games, and one post-processed game.
    With the failed stage counted as [0] the severity would be [error];
    the classifier compares [2] with [1] and says [info]. *)
Lemma failed_stage_counted_counterexample :
  parseResult failed_frame = Ok failed_result
  ∧ inferenceFailed failed_result = true
  ∧ spec_severity (spec_inferenceCount failed_result)
      (spec_postProcessedCount failed_result) = "error"
  ∧ ∃ d, (analyzeResult DiscrepancyManager.constructor failed_result).2 = Ok [d]
         ∧ severity d = "info".
Proof.
  split_and!; [by vm_compute..|].
  eexists. split; by vm_compute.
Qed.

Lemma set_has_elem_of ids k :
  primitive k = true → set_has ids k = true ↔ k ∈ ids.
Proof.
  intros Hk. unfold set_has. rewrite existsb_exists. split.
  - intros (x & Hx%list_elem_of_In & ->%strict_eq_true). done.
  - intros Hin. exists k. split; [by apply list_elem_of_In|].
    by apply strict_eq_refl.
Qed.

Lemma filter_sublist {A} (f : A → bool) l : sublist (List.filter f l) l.
Proof.
  induction l as [|x l IH]; simpl; [constructor|].
  destruct (f x); by constructor.
Qed.

Lemma elem_of_filter_bool {A} (f : A → bool) l x :
  x ∈ List.filter f l ↔ x ∈ l ∧ f x = true.
Proof. rewrite !list_elem_of_In. apply filter_In. Qed.

Lemma ofType_optional ty (b : bool) (d : Discrepancy) :
  ofType ty (if b then [d] else [])
  = if b && bool_decide (type d = ty) then [d] else [].
Proof.
  unfold ofType. destruct b; simpl; [|done].
  rewrite filter_cons, filter_nil. case_decide.
  - by rewrite bool_decide_eq_true_2.
  - by rewrite bool_decide_eq_false_2.
Qed.

Lemma ofType_analyses ty (b1 b2 b3 b4 : bool) (d1 d2 d3 d4 : Discrepancy) :
  ofType ty ((if b1 then [d1] else []) ++ (if b2 then [d2] else [])
             ++ (if b3 then [d3] else []) ++ (if b4 then [d4] else []))
  = (if b1 && bool_decide (type d1 = ty) then [d1] else [])
    ++ (if b2 && bool_decide (type d2 = ty) then [d2] else [])
    ++ (if b3 && bool_decide (type d3 = ty) then [d3] else [])
    ++ (if b4 && bool_decide (type d4 = ty) then [d4] else []).
Proof.
  rewrite <- !ofType_optional. unfold ofType. by rewrite !filter_app.
Qed.

Lemma ofType_other ty ds : Forall (λ d, type d ≠ ty) ds → ofType ty ds = [].
Proof.
  unfold ofType. induction 1 as [|d ds Hd _ IH]; [done|].
  by rewrite filter_cons_False.
Qed.

(** Whatever the counts are, a list that [analyses] returns is made of the
    records of the first two analyses, when they ran, then of the two
    database records of the flags that are set. *)
Lemma analyses_inv r ds :
  nullish (discrepancyFlags r) = false →
  analyses r = Ok ds →
  ∃ ds1 ds2,
    ds = ds1 ++ ds2
         ++ (if truthy (prop (discrepancyFlags r) "missing_in_db")
             then [analyzeMissingInDb r] else [])
         ++ (if truthy (prop (discrepancyFlags r) "extra_in_db")
             then [analyzeExtraInDb r] else [])
    ∧ Forall (λ d, type d = "ml-vs-post") ds1
    ∧ Forall (λ d, type d = "post-vs-db") ds2.
Proof.
  intros Hf. rewrite analyses_flags by done.
  assert (H1 : ∀ (b : bool) l,
            (if b then d ← analyzeMlVsPost r; Ok [d] else Ok []) = Ok l →
            Forall (λ d, type d = "ml-vs-post") l).
  { intros [] l; [|by intros [= <-]].
    destruct (analyzeMlVsPost r) as [d| |] eqn:Hd; [|done..].
    intros [= <-]. repeat constructor. by eapply analyzeMlVsPost_type. }
  assert (H2 : ∀ (b : bool) l,
            (if b then d ← analyzePostVsDb r; Ok [d] else Ok []) = Ok l →
            Forall (λ d, type d = "post-vs-db") l).
  { intros [] l; [|by intros [= <-]].
    destruct (analyzePostVsDb r) as [d| |] eqn:Hd; [|done..].
    intros [= <-]. repeat constructor. by eapply analyzePostVsDb_type. }
  destruct (if truthy (prop _ "ml_vs_postprocessing") then _ else _)
    as [ds1| |] eqn:Hds1; [|done..].
  destruct (if truthy (prop _ "postprocessing_vs_db") then _ else _)
    as [ds2| |] eqn:Hds2; [|done..].
  intros [= <-]. exists ds1, ds2. split; [done|].
  split; [by eapply H1 | by eapply H2].
Qed.

Lemma analyses_database_records r ds :
  nullish (discrepancyFlags r) = false →
  analyses r = Ok ds →
  ofType "missing-in-db" ds
  = (if truthy (prop (discrepancyFlags r) "missing_in_db")
     then [analyzeMissingInDb r] else [])
  ∧ ofType "extra-in-db" ds
    = (if truthy (prop (discrepancyFlags r) "extra_in_db")
       then [analyzeExtraInDb r] else []).
Proof.
  intros Hf Hds.
  destruct (analyses_inv r ds Hf Hds) as (ds1 & ds2 & -> & H1 & H2).
  unfold ofType. rewrite !filter_app. fold (ofType "missing-in-db" ds1).
  fold (ofType "missing-in-db" ds2). fold (ofType "extra-in-db" ds1).
  fold (ofType "extra-in-db" ds2).
  rewrite !ofType_other;
    [|eapply Forall_impl; [done|]; by intros d ->..].
  destruct (truthy (prop _ "missing_in_db")), (truthy (prop _ "extra_in_db"));
    done.
Qed.

Lemma length_text_len {A} (l : list A) : length_text l = pretty (len l).
Proof. done. Qed.

(** C2. For a result whose [missing_in_db] flag is set, every list of
    records that [analyzeResult] returns holds exactly one missing-in-db
    record. Its severity is [error]; its [missingGames] are the games of the
    post-processed stage of the result, in their order and as often as they
    occur, whose [gameSessionId] is the [gameSessionId] of no database
    session; the number that opens its description is the number of these
    games; its [expectedCount] is the number of post-processed games and its
    [actualCount] the number of database sessions. With numeric counts
    [analyzeResult] returns. *)
Theorem analyzeResult_missing_in_db (this : DiscrepancyManager.t) r :
  truthy (prop (discrepancyFlags r) "missing_in_db") = true →
  postIdsPrimitive r →
  (numericCounts r → returns (analyzeResult this r).2)
  ∧ ∀ ds,
      (analyzeResult this r).2 = Ok ds →
      ∃ d missing keep,
        ofType "missing-in-db" ds = [d]
        ∧ severity d = "error"
        ∧ details d = MissingInDbDetails missing
                        (VNum (len (postProcessedGames r)))
                        (VNum (len (dbSessions r)))
        ∧ missing = List.filter keep (postProcessedGames r)
        ∧ (∀ g, g ∈ postProcessedGames r →
                keep g = true ↔
                pg_gameSessionId g ∉ map db_gameSessionId (dbSessions r))
        ∧ (∀ g, g ∈ missing ↔
                g ∈ postProcessedGames r
                ∧ pg_gameSessionId g ∉ map db_gameSessionId (dbSessions r))
        ∧ sublist missing (postProcessedGames r)
        ∧ description d =
            Some (pretty (len missing)
                  +:+ " game(s) from post-processing are missing in the database.").
Proof.
  intros Hflag Hprim. pose proof (flag_set_object _ _ Hflag) as Hf.
  unfold postIdsPrimitive in Hprim. rewrite Forall_forall in Hprim.
  assert (Hkeep : ∀ g, g ∈ postProcessedGames r →
            negb (set_has (map db_gameSessionId (dbSessions r))
                    (pg_gameSessionId g)) = true ↔
            pg_gameSessionId g ∉ map db_gameSessionId (dbSessions r)).
  { intros g Hg. rewrite negb_true_iff, <- not_true_iff_false.
    by rewrite set_has_elem_of by by apply Hprim. }
  split.
  { intros Hn. simpl.
    destruct (analyses_numeric r Hf Hn) as (d1 & d2 & _ & _ & _ & _ & _ & ->).
    by eexists. }
  simpl. intros ds Hds.
  destruct (analyses_database_records r ds Hf Hds) as [Hm _].
  rewrite Hflag in Hm.
  eexists (analyzeMissingInDb r), _,
    (λ g, negb (set_has (map db_gameSessionId (dbSessions r))
                  (pg_gameSessionId g))).
  split; [done|]. split; [done|]. split.
  { simpl. unfold dbSessionCount. by rewrite js_or_num. }
  split; [done|]. split; [done|]. split.
  { intros g. rewrite elem_of_filter_bool. split.
    - intros [Hg Hk]. split; [done|]. by apply Hkeep.
    - intros [Hg Hk]. split; [done|]. by apply Hkeep. }
  split; [apply filter_sublist | done].
Qed.

Lemma analyzeResult_missing_in_db_witness :
  parseResult mixed_frame = Ok mixed_result
  ∧ ∃ ds d,
      (analyzeResult DiscrepancyManager.constructor mixed_result).2 = Ok ds
      ∧ ofType "missing-in-db" ds = [d]
      ∧ severity d = "error"
      ∧ details d = MissingInDbDetails [slots_game] (VNum 2) (VNum 2)
      ∧ description d =
          Some "1 game(s) from post-processing are missing in the database.".
Proof.
  split; [by vm_compute|].
  destruct (analyzeResult_missing_in_db DiscrepancyManager.constructor mixed_result)
    as [Hreturns Hrecord].
  - vm_compute. reflexivity.
  - unfold postIdsPrimitive. vm_compute. repeat constructor.
  - destruct Hreturns as [ds Hds]; [split; intros ? [= <-]; by eexists|].
    destruct (Hrecord ds Hds)
      as (d & missing & keep & Hd & Hs & Hdet & Hmissing & Hkeep & _ & _ & Hdesc).
    assert (Hslots : keep slots_game = true).
    { apply Hkeep; [vm_compute; apply list_elem_of_here|].
      vm_compute. intros Hin.
      repeat (apply elem_of_cons in Hin as [Hin|Hin]; [discriminate|]).
      by apply elem_of_nil in Hin. }
    assert (Hpoker : keep poker_game = false).
    { apply not_true_is_false. intros Hk. apply Hkeep in Hk.
      - apply Hk. vm_compute. apply list_elem_of_here.
      - vm_compute. apply list_elem_of_further, list_elem_of_here. }
    assert (Hm : missing = [slots_game]).
    { rewrite Hmissing. change (postProcessedGames mixed_result)
        with [slots_game; poker_game]. simpl. by rewrite Hslots, Hpoker. }
    exists ds, d. rewrite Hdet, Hdesc, Hm. split_and!; done.
Defined.

(** C3. For a result whose [extra_in_db] flag is set, every list of records
    that [analyzeResult] returns holds exactly one extra-in-db record. Its
    severity is [warning], not [error], and its [extraSessions] are the
    database sessions, in their order and as often as they occur, whose
    [gameSessionId] is the [gameSessionId] of no game of the post-processed
    stage of the result. With numeric counts [analyzeResult] returns. *)
Theorem analyzeResult_extra_in_db (this : DiscrepancyManager.t) r :
  truthy (prop (discrepancyFlags r) "extra_in_db") = true →
  dbIdsPrimitive r →
  (numericCounts r → returns (analyzeResult this r).2)
  ∧ ∀ ds,
      (analyzeResult this r).2 = Ok ds →
      ∃ d extra keep,
        ofType "extra-in-db" ds = [d]
        ∧ severity d = "warning"
        ∧ severity d ≠ "error"
        ∧ details d = ExtraInDbDetails extra
        ∧ extra = List.filter keep (dbSessions r)
        ∧ (∀ s, s ∈ dbSessions r →
                keep s = true ↔
                db_gameSessionId s ∉ map pg_gameSessionId (postProcessedGames r))
        ∧ (∀ s, s ∈ extra ↔
                s ∈ dbSessions r
                ∧ db_gameSessionId s ∉ map pg_gameSessionId (postProcessedGames r))
        ∧ sublist extra (dbSessions r).
Proof.
  intros Hflag Hprim. pose proof (flag_set_object _ _ Hflag) as Hf.
  unfold dbIdsPrimitive in Hprim. rewrite Forall_forall in Hprim.
  assert (Hkeep : ∀ s, s ∈ dbSessions r →
            negb (set_has (map pg_gameSessionId (postProcessedGames r))
                    (db_gameSessionId s)) = true ↔
            db_gameSessionId s ∉ map pg_gameSessionId (postProcessedGames r)).
  { intros s Hs. rewrite negb_true_iff, <- not_true_iff_false.
    by rewrite set_has_elem_of by by apply Hprim. }
  split.
  { intros Hn. simpl.
    destruct (analyses_numeric r Hf Hn) as (d1 & d2 & _ & _ & _ & _ & _ & ->).
    by eexists. }
  simpl. intros ds Hds.
  destruct (analyses_database_records r ds Hf Hds) as [_ He].
  rewrite Hflag in He.
  eexists (analyzeExtraInDb r), _,
    (λ s, negb (set_has (map pg_gameSessionId (postProcessedGames r))
                  (db_gameSessionId s))).
  split; [done|]. split; [done|]. split; [done|]. split; [done|].
  split; [done|]. split; [done|]. split; [|apply filter_sublist].
  intros s. rewrite elem_of_filter_bool. split.
  - intros [Hs Hk]. split; [done|]. by apply Hkeep.
  - intros [Hs Hk]. split; [done|]. by apply Hkeep.
Qed.

Lemma analyzeResult_extra_in_db_witness :
  parseResult mixed_frame = Ok mixed_result
  ∧ ∃ ds d,
      (analyzeResult DiscrepancyManager.constructor mixed_result).2 = Ok ds
      ∧ ofType "extra-in-db" ds = [d]
      ∧ severity d = "warning"
      ∧ details d = ExtraInDbDetails [roulette_session].
Proof.
  split; [by vm_compute|].
  destruct (analyzeResult_extra_in_db DiscrepancyManager.constructor mixed_result)
    as [Hreturns Hrecord].
  - vm_compute. reflexivity.
  - unfold dbIdsPrimitive. vm_compute. repeat constructor.
  - destruct Hreturns as [ds Hds]; [split; intros ? [= <-]; by eexists|].
    destruct (Hrecord ds Hds)
      as (d & extra & keep & Hd & Hs & _ & Hdet & Hextra & Hkeep & _).
    assert (Hpoker : keep poker_session = false).
    { apply not_true_is_false. intros Hk. apply Hkeep in Hk.
      - apply Hk. vm_compute. apply list_elem_of_further, list_elem_of_here.
      - vm_compute. apply list_elem_of_here. }
    assert (Hroulette : keep roulette_session = true).
    { apply Hkeep; [vm_compute; apply list_elem_of_further, list_elem_of_here|].
      vm_compute. intros Hin.
      repeat (apply elem_of_cons in Hin as [Hin|Hin]; [discriminate|]).
      by apply elem_of_nil in Hin. }
    assert (He : extra = [roulette_session]).
    { rewrite Hextra. change (dbSessions mixed_result)
        with [poker_session; roulette_session]. simpl.
      by rewrite Hpoker, Hroulette. }
    exists ds, d. rewrite Hdet, He. split_and!; done.
Defined.

(** ** List reconciliation *)

Section compareGameLists_facts.
Context {A B K : Type} `{Countable K}.

Lemma inBoth_keys (list1 : list A) (list2 : list B)
    (key1 : A → K) (key2 : B → K) k :
  k ∈ key1 <$> inBoth (compareGameLists list1 list2 key1 key2)
  ↔ k ∈ key1 <$> list1 ∧ k ∈ key2 <$> list2.
Proof.
  simpl. rewrite list_elem_of_fmap. split.
  - intros (x & -> & [Hin Hx]%list_elem_of_filter).
    rewrite elem_of_list_to_set in Hin. split; [|done].
    by apply list_elem_of_fmap_2.
  - intros [(x & -> & Hx)%list_elem_of_fmap Hk]. exists x. split; [done|].
    apply list_elem_of_filter. by rewrite elem_of_list_to_set.
Qed.

Lemma match_spec (list1 : list A) (list2 : list B)
    (key1 : A → K) (key2 : B → K) :
  match_ (compareGameLists list1 list2 key1 key2) = true
  ↔ onlyInFirst (compareGameLists list1 list2 key1 key2) = []
    ∧ onlyInSecond (compareGameLists list1 list2 key1 key2) = [].
Proof.
  simpl. rewrite andb_true_iff, !Nat.eqb_eq, !length_zero_iff_nil. done.
Qed.
End compareGameLists_facts.

(** C4, as the helper has it. Swapping the two lists (and their keys) swaps
    [onlyInFirst] with [onlyInSecond] and leaves [match] unchanged; [match]
    is true exactly when both differences are empty. [inBoth] is drawn from
    the first list, so after the swap it holds the items of the other list:
    the identifiers that occur in it are the same before and after. *)
Theorem compareGameLists_swap {A B K : Type} `{Countable K}
    (list1 : list A) (list2 : list B) (key1 : A → K) (key2 : B → K) :
  let c := compareGameLists list1 list2 key1 key2 in
  let c' := compareGameLists list2 list1 key2 key1 in
  onlyInFirst c' = onlyInSecond c
  ∧ onlyInSecond c' = onlyInFirst c
  ∧ match_ c' = match_ c
  ∧ (∀ k, k ∈ key2 <$> inBoth c' ↔ k ∈ key1 <$> inBoth c)
  ∧ (match_ c = true ↔ onlyInFirst c = [] ∧ onlyInSecond c = []).
Proof.
  intros c c'. split_and!.
  - done.
  - done.
  - simpl. apply andb_comm.
  - intros k. unfold c, c'. rewrite !inBoth_keys. tauto.
  - apply match_spec.
Qed.

(** C4, the counterexample. One game in each list, the same [gameId], a
    different [gameSessionId]: [inBoth] is the item of the first list, and
    after the swap the item of the other. *)
Lemma inBoth_swap_counterexample :
  inBoth (compareGameLists [game "a" "s1"] [game "a" "s2"] byGameId byGameId)
    = [game "a" "s1"]
  ∧ inBoth (compareGameLists [game "a" "s2"] [game "a" "s1"] byGameId byGameId)
    = [game "a" "s2"]
  ∧ inBoth (compareGameLists [game "a" "s1"] [game "a" "s2"] byGameId byGameId)
    ≠ inBoth (compareGameLists [game "a" "s2"] [game "a" "s1"] byGameId byGameId).
Proof.
  assert (H1 : inBoth (compareGameLists [game "a" "s1"] [game "a" "s2"]
                         byGameId byGameId) = [game "a" "s1"])
    by (vm_compute; reflexivity).
  assert (H2 : inBoth (compareGameLists [game "a" "s2"] [game "a" "s1"]
                         byGameId byGameId) = [game "a" "s2"])
    by (vm_compute; reflexivity).
  split_and!; [done..|].
  rewrite H1, H2. intros Heq.
  assert (Hl : game "a" "s1" !! "gameSessionId" = Some "s1") by done.
  apply (inj (λ x, [x])) in Heq.
  rewrite Heq in Hl. by vm_compute in Hl.
Qed.

(** ** The filter engine *)

Import ScreenshotViewer.

Lemma rejects_ok (c : bool) r k :
  truthy (discrepancyFlags r) = true →
  rejects c r k = Ok (c && negb (truthy (prop (discrepancyFlags r) k))).
Proof.
  intros Hr. unfold rejects. destruct c; [|done].
  by rewrite get_truthy.
Qed.

Lemma matchesCriteria_ok criteria r :
  truthy (discrepancyFlags r) = true →
  matchesCriteria criteria r = Ok (matches criteria r).
Proof.
  intros Hr. unfold matchesCriteria, matches.
  destruct (criterion criteria "onlyDiscrepancies" && _); [done|].
  rewrite !rejects_ok by done. simpl.
  destruct (criterion criteria "mlVsPost" && _); [done|]. simpl.
  destruct (criterion criteria "postVsDb" && _); [done|]. simpl.
  destruct (criterion criteria "missingInDb" && _); [done|]. simpl.
  by destruct (criterion criteria "extraInDb" && _).
Qed.

Lemma filterResults_ok p criteria :
  parser_inv p →
  filterResults p criteria = Ok (List.filter (matches criteria) (JSONParser.results p)).
Proof.
  intros [Hall _]. unfold filterResults. apply filterM_ok.
  eapply Forall_impl; [done|]. intros r [Hr _]. by apply matchesCriteria_ok.
Qed.

Lemma len_nil_iff {A} (l : list A) : len l = 0 ↔ l = [].
Proof. unfold len. destruct l; simpl; [done|]. split; [lia|done]. Qed.

Lemma len_pos {A} (l : list A) : l ≠ [] → 0 < len l.
Proof. unfold len. destruct l; simpl; [done|lia]. Qed.

(** What [applyFilters] leaves when the filter returns. *)
Lemma applyFilters_ok p v filtered :
  filterResults p (filterCriteria v) = Ok filtered →
  applyFilters p v =
    ({| results := results v;
        filteredResults := shown filtered (results v);
        currentIndex :=
          if len (shown filtered (results v)) <=? currentIndex v
          then 0 else currentIndex v;
        filterCriteria := filterCriteria v;
        showBoundingBoxes := showBoundingBoxes v |}, Ok VUndef).
Proof.
  intros Hf. unfold applyFilters, shown. rewrite Hf. simpl.
  destruct ((len filtered =? 0) && (0 <? len (results v))); simpl;
    by destruct (_ <=? _).
Qed.

Lemma shown_nonempty filtered all : all ≠ [] → shown filtered all ≠ [].
Proof.
  intros Hall. unfold shown.
  destruct (Z.eqb_spec (len filtered) 0) as [H0|H0]; simpl.
  - by rewrite (proj2 (Z.ltb_lt _ _) (len_pos _ Hall)).
  - by rewrite len_nil_iff in H0.
Qed.

(** C5, as the viewer has it. On a viewer with results, when the filter of
    the current criteria returns the empty list, [applyFilters] shows all the
    results of the viewer. It returns [undefined]: the fallback is not
    reported to the caller. *)
Theorem applyFilters_fallback p v :
  results v ≠ [] →
  filterResults p (filterCriteria v) = Ok [] →
  filteredResults (applyFilters p v).1 = results v
  ∧ (applyFilters p v).2 = Ok VUndef.
Proof.
  intros Hv Hf. rewrite (applyFilters_ok p v [] Hf). simpl.
  unfold shown. simpl.
  apply len_pos in Hv. by rewrite (proj2 (Z.ltb_lt _ _) Hv).
Qed.

Lemma applyFilters_fallback_witness :
  results bare_viewer ≠ []
  ∧ filterResults bare_parser
      (filterCriteria (set_filterCriteria onlyDiscrepancies bare_viewer)) = Ok []
  ∧ filteredResults
      (applyFilters bare_parser
         (set_filterCriteria onlyDiscrepancies bare_viewer)).1
    = results bare_viewer.
Proof.
  assert (H1 : results bare_viewer ≠ []) by (vm_compute; discriminate).
  assert (H2 : filterResults bare_parser
                 (filterCriteria (set_filterCriteria onlyDiscrepancies bare_viewer))
               = Ok []) by (vm_compute; reflexivity).
  split_and!; [done..|].
  by destruct (applyFilters_fallback bare_parser
                 (set_filterCriteria onlyDiscrepancies bare_viewer) H1 H2).
Defined.

(** C5, the counterexample. On the session of [bare_document], asking for
    discrepancies only makes [applyFilters] fall back to the full sequence;
    with no criteria it does not fall back. The caller gets [undefined] both
    times, not a flag that tells the two apart. *)
Lemma fallback_not_reported_counterexample :
  let fallen := set_filterCriteria onlyDiscrepancies bare_viewer in
  filterResults bare_parser (filterCriteria fallen) = Ok []
  ∧ filteredResults (applyFilters bare_parser fallen).1 = results bare_viewer
  ∧ (applyFilters bare_parser fallen).2 = Ok VUndef
  ∧ filterResults bare_parser (filterCriteria bare_viewer)
    = Ok (results bare_viewer)
  ∧ (applyFilters bare_parser bare_viewer).2 = Ok VUndef
  ∧ (applyFilters bare_parser fallen).2 ≠ Ok (VBool true).
Proof. simpl. split_and!; by vm_compute. Qed.

(** ** Navigation *)

Lemma findIndex_spec {A} (f : A → bool) (l : list A) :
  (findIndex f l = -1 ∧ Forall (λ x, f x = false) l)
  ∨ (∃ (k : nat) x,
       findIndex f l = Z.of_nat k
       ∧ l !! k = Some x
       ∧ f x = true
       ∧ ∀ (j : nat) y, (j < k)%nat → l !! j = Some y → f y = false).
Proof.
  induction l as [|a l IH]; simpl.
  - left. by split.
  - destruct (f a) eqn:Ha.
    + right. exists 0%nat, a. split_and!; try done. intros j y Hj. lia.
    + destruct IH as [[-> Hall]|(k & x & -> & Hk & Hx & Hfirst)].
      * left. split; [done|]. by constructor.
      * right. exists (S k), x.
        destruct (Z.eqb_spec (Z.of_nat k) (-1)) as [Hneg|_]; [lia|].
        split_and!; [lia|done|done|].
        intros [|j] y Hj; simpl; [by intros [= <-]|].
        apply Hfirst. lia.
Qed.

Lemma jumpTo_found v i (k : nat) :
  findIndex (λ r, strict_eq (index r) (VNum i)) (filteredResults v) = Z.of_nat k →
  jumpTo v i = (set_currentIndex (Z.of_nat k) v, true).
Proof.
  intros Hk. unfold jumpTo. rewrite Hk.
  destruct (Z.eqb_spec (Z.of_nat k) (-1)) as [Hneg|_]; [lia|done].
Qed.

Lemma jumpTo_missing v i :
  findIndex (λ r, strict_eq (index r) (VNum i)) (filteredResults v) = -1 →
  jumpTo v i = (v, false).
Proof. intros Hk. unfold jumpTo. by rewrite Hk. Qed.

Lemma index_is i r : strict_eq (index r) (VNum i) = true ↔ index r = VNum i.
Proof.
  split; [apply strict_eq_true|]. intros ->. simpl. apply Z.eqb_refl.
Qed.



(** ** The position stays inside the filtered view *)

Lemma applyFilters_inv p v :
  parser_inv p →
  results v ≠ [] →
  0 ≤ currentIndex v →
  viewer_inv (applyFilters p v).1.
Proof.
  intros Hp Hv Hi.
  rewrite (applyFilters_ok p v _ (filterResults_ok p (filterCriteria v) Hp)).
  set (filtered := List.filter _ _).
  pose proof (shown_nonempty filtered (results v) Hv) as Hview.
  split; [done|]. split; [done|]. simpl.
  apply len_pos in Hview.
  destruct (Z.leb_spec (len (shown filtered (results v))) (currentIndex v)); lia.
Qed.

Lemma loadResults_inv p v rs :
  parser_inv p → rs ≠ [] → viewer_inv (loadResults p v rs).1.
Proof.
  intros Hp Hrs. unfold loadResults.
  rewrite (applyFilters_ok p (set_results rs v) _
             (filterResults_ok p _ Hp)).
  simpl. set (filtered := List.filter _ _).
  pose proof (shown_nonempty filtered rs Hrs) as Hview.
  split; [done|]. split; [done|]. simpl.
  apply len_pos in Hview. lia.
Qed.

Lemma step_inv p v o : parser_inv p → viewer_inv v → viewer_inv (step p v o).
Proof.
  intros Hp (Hrs & Hview & Hlo & Hhi).
  destruct o as [filterName enabled| | | | | |i]; simpl.
  - by apply applyFilters_inv.
  - by apply applyFilters_inv.
  - unfold next. destruct (Z.ltb_spec (currentIndex v) (len (filteredResults v) - 1));
      (split; [done|]; split; [done|]; simpl; lia).
  - unfold previous. destruct (Z.ltb_spec 0 (currentIndex v));
      (split; [done|]; split; [done|]; simpl; lia).
  - split; [done|]. split; [done|]. simpl. lia.
  - split; [done|]. split; [done|]. simpl. lia.
  - destruct (findIndex_spec (λ r, strict_eq (index r) (VNum i)) (filteredResults v))
      as [[Hk _]|(k & x & Hk & Hx & _)].
    + by rewrite jumpTo_missing.
    + rewrite (jumpTo_found v i k Hk). simpl.
      split; [done|]. split; [done|]. simpl.
      apply lookup_lt_Some in Hx. unfold len. lia.
Qed.

Lemma run_inv p ops : ∀ v,
  parser_inv p → viewer_inv v → viewer_inv (run p v ops).
Proof.
  induction ops as [|o ops IH]; intros v Hp Hv; simpl; [done|].
  apply IH; [done|]. by apply step_inv.
Qed.

(** C10. Load a non-empty list of results into the viewer, in any state of
    the parser and from any earlier state of the viewer, then run any
    sequence of [updateFilter], [clearFilters], [next], [previous], [first],
    [last] and [jumpTo]: the filtered view is not empty and the position is
    inside it. *)
Theorem position_in_filtered_view p v0 rs ops :
  reachable p →
  rs ≠ [] →
  filteredResults (run p (loadResults p v0 rs).1 ops) ≠ []
  ∧ 0 ≤ currentIndex (run p (loadResults p v0 rs).1 ops)
      < len (filteredResults (run p (loadResults p v0 rs).1 ops)).
Proof.
  intros Hp%reachable_inv Hrs.
  destruct (run_inv p ops (loadResults p v0 rs).1) as (_ & Hview & Hpos);
    [done | by apply loadResults_inv | done].
Qed.

Lemma position_in_filtered_view_witness :
  let ops := [UpdateFilter "missingInDb" (VBool true); Last; Next;
              UpdateFilter "onlyDiscrepancies" (VBool true); JumpTo 8;
              ClearFilters; Last; Previous] in
  0 ≤ currentIndex
        (run sample_parser
           (loadResults sample_parser ScreenshotViewer.constructor
              (JSONParser.results sample_parser)).1 ops)
    < len (filteredResults
             (run sample_parser
                (loadResults sample_parser ScreenshotViewer.constructor
                   (JSONParser.results sample_parser)).1 ops)).
Proof.
  intros ops.
  apply (position_in_filtered_view sample_parser ScreenshotViewer.constructor
           (JSONParser.results sample_parser) ops).
  - apply reachable_parse, reachable_new.
  - vm_compute. discriminate.
Defined.

(** ** The parser, field by field *)





Lemma parseMLInference_eq x :
  parseMLInference x =
    if truthy x then
      games ← array_map (js_or (prop x "games") (VArr [])) parseMLGame;
      Ok (Some {| ml_games := games;
                  numberOfGames := js_or (prop x "number_of_games") (VNum 0);
                  latencyMs := js_or (prop x "latency_ms") (VNum 0);
                  isUniformFrame := js_or (prop x "is_uniform_frame") (VBool false);
                  ml_error := js_or (prop x "error") VNull |})
    else Ok None.
Proof.
  unfold parseMLInference. destruct (truthy x) eqn:Hx; [|done]. simpl.
  rewrite !get_truthy by done. simpl.
  by destruct (array_map _ _).
Qed.

Lemma parsePostProcessed_eq x :
  parsePostProcessed x =
    if truthy x then
      games ← array_map (js_or (prop x "games") (VArr [])) parsePostGame;
      Ok (Some {| pp_games := games;
                  gameCount := js_or (prop x "game_count") (VNum 0);
                  eventType := js_or (prop x "event_type") (VStr "UNKNOWN");
                  appliedThreshold := js_or (prop x "applied_threshold") (VBool false);
                  slidingWindowState :=
                    js_or (prop x "sliding_window_state") (VArr []);
                  pp_error := js_or (prop x "error") VNull |})
    else Ok None.
Proof.
  unfold parsePostProcessed. destruct (truthy x) eqn:Hx; [|done]. simpl.
  rewrite !get_truthy by done. simpl.
  by destruct (array_map _ _).
Qed.

Lemma parseDBSession_eq x :
  parseDBSession x =
    if nullish x then Throw "TypeError: cannot read properties of null or undefined"
    else
      Ok {| db_gameSessionId := prop x "game_session_id";
            db_gameIdentifier := prop x "game_identifier";
            gameName := js_or (prop x "game_name") (prop x "game_identifier");
            startTime := prop x "start_time";
            endTime := prop x "end_time";
            trueAirtime := js_or (prop x "true_airtime") (VNum 0);
            matchesScreenshot :=
              VBool (negb (strict_eq (prop x "matches_screenshot") (VBool false))) |}.
Proof.
  unfold parseDBSession, get. by destruct (nullish x).
Qed.

Lemma parseMLGame_eq x :
  parseMLGame x =
    if nullish x then Throw "TypeError: cannot read properties of null or undefined"
    else Ok {| ml_class := prop x "class"; confidence := prop x "confidence";
               box := js_or (prop x "box") VNull |}.
Proof. unfold parseMLGame, get. by destruct (nullish x). Qed.


Lemma validateAndMetadata_inv data metadata raw :
  validateAndMetadata data = Ok (metadata, raw) →
  truthy (prop data "session_id") = true
  ∧ prop data "results" = VArr raw
  ∧ metadata =
      {| sessionId := prop data "session_id";
         platform := js_or (prop data "platform") (VStr "unknown");
         channel := js_or (prop data "channel") (VStr "unknown");
         date := js_or (prop data "date") (VStr "unknown");
         sm_startTime := js_or (prop data "start_time") VNull;
         sm_endTime := js_or (prop data "end_time") VNull;
         analyzedAt := js_or (prop data "analyzed_at") VNull;
         total := js_or (prop data "total") (VNum (len raw)) |}.
Proof.
  unfold validateAndMetadata.
  intros (sid & [Hn ->]%get_inv & H)%bind_ok.
  destruct (truthy (prop data "session_id")) eqn:Hsid; [|done]. simpl in H.
  rewrite !get_ok in H by done. simpl in H.
  destruct (prop data "results") eqn:Hres; try done.
  by injection H as <- <-.
Qed.

Lemma js_or_countField v : countField v → ∃ n, js_or v (VNum 0) = VNum n.
Proof.
  intros [->|[n ->]]; [by exists 0|]. exists n. apply js_or_num.
Qed.

(** The results of documents whose count fields follow the schema have
    numeric counts. *)
Lemma parseResult_numericCounts raw r :
  parseResult raw = Ok r →
  countField (prop (prop raw "ml_inference") "number_of_games") →
  countField (prop (prop raw "post_processed") "game_count") →
  numericCounts r.
Proof.
  intros (s & ml & pp & db & gc & h & _ & Hml & Hpp & _ & _ & _ & ->)%parseResult_inv
    Hn Hc.
  split; simpl; intros x ->.
  - rewrite parseMLInference_eq in Hml.
    destruct (truthy _); [|done].
    apply bind_ok in Hml as (games & _ & [= <-]). simpl.
    by apply js_or_countField.
  - rewrite parsePostProcessed_eq in Hpp.
    destruct (truthy _); [|done].
    apply bind_ok in Hpp as (games & _ & [= <-]). simpl.
    by apply js_or_countField.
Qed.

Lemma strict_eq_false_iff v :
  strict_eq v (VBool false) = true ↔ v = VBool false.
Proof.
  split; [apply strict_eq_true|]. by intros ->.
Qed.

(** C8, as the parser has it. A field the document leaves out gets these
    values: [platform], [channel] and [date] the string [unknown]; [total]
    the number of results; [number_of_games], [latency_ms], [game_count] and
    [true_airtime] the number [0]; the lists [games],
    [sliding_window_state], [db_sessions] and [db_game_counts] the empty
    list; [is_uniform_frame] and [applied_threshold] the boolean [false];
    [matches_screenshot] the boolean [true], the parsed value being [false]
    only for a document that says [false]. *)
Theorem documented_defaults :
  (∀ p data p',
     validateAndParse p data = (p', Ok ()) →
     ∃ metadata,
       sessionMetadata p' = Some metadata
       ∧ (prop data "platform" = VUndef → platform metadata = VStr "unknown")
       ∧ (prop data "channel" = VUndef → channel metadata = VStr "unknown")
       ∧ (prop data "date" = VUndef → date metadata = VStr "unknown")
       ∧ (prop data "total" = VUndef
          → total metadata = VNum (len (JSONParser.results p'))))
  ∧ (∀ x ml,
       parseMLInference x = Ok (Some ml) →
       (prop x "games" = VUndef → ml_games ml = [])
       ∧ (prop x "number_of_games" = VUndef → numberOfGames ml = VNum 0)
       ∧ (prop x "latency_ms" = VUndef → latencyMs ml = VNum 0)
       ∧ (prop x "is_uniform_frame" = VUndef → isUniformFrame ml = VBool false))
  ∧ (∀ x pp,
       parsePostProcessed x = Ok (Some pp) →
       (prop x "games" = VUndef → pp_games pp = [])
       ∧ (prop x "game_count" = VUndef → gameCount pp = VNum 0)
       ∧ (prop x "applied_threshold" = VUndef → appliedThreshold pp = VBool false)
       ∧ (prop x "sliding_window_state" = VUndef
          → slidingWindowState pp = VArr []))
  ∧ (∀ x s,
       parseDBSession x = Ok s →
       (prop x "true_airtime" = VUndef → trueAirtime s = VNum 0)
       ∧ (prop x "matches_screenshot" = VUndef → matchesScreenshot s = VBool true)
       ∧ (matchesScreenshot s = VBool false
          ↔ prop x "matches_screenshot" = VBool false))
  ∧ (∀ raw r,
       parseResult raw = Ok r →
       (prop raw "db_sessions" = VUndef → dbSessions r = [])
       ∧ (prop raw "db_game_counts" = VUndef → dbGameCounts r = [])).
Proof.
  split_and!.
  - intros p data p' (metadata & raw & Hmd & Hrs & Hsome & _)%validateAndParse_results.
    exists metadata. split; [done|].
    apply validateAndMetadata_inv in Hmd as (_ & _ & ->). simpl.
    split_and!; intros ->; try done.
    simpl. unfold len. by rewrite (Forall2_length _ _ _ Hrs).
  - intros x ml. rewrite parseMLInference_eq.
    destruct (truthy x); [|done].
    destruct (array_map _ _) as [games| |] eqn:Hg; [|done..].
    intros [= <-]. simpl. split_and!; intros Habs; rewrite Habs in *; try done.
    simpl in Hg. by injection Hg as <-.
  - intros x pp. rewrite parsePostProcessed_eq.
    destruct (truthy x); [|done].
    destruct (array_map _ _) as [games| |] eqn:Hg; [|done..].
    intros [= <-]. simpl. split_and!; intros Habs; rewrite Habs in *; try done.
    simpl in Hg. by injection Hg as <-.
  - intros x s. rewrite parseDBSession_eq.
    destruct (nullish x); [done|]. intros [= <-]. simpl.
    split_and!; try (by intros ->).
    rewrite <- (strict_eq_false_iff (prop x "matches_screenshot")).
    destruct (strict_eq _ _); simpl; split; congruence.
  - intros raw r (s & ml & pp & db & gc & h & _ & _ & _ & Hdb & Hgc & _ & ->)%parseResult_inv.
    simpl. split; intros Habs; rewrite Habs in *.
    + by injection Hdb as <-.
    + by injection Hgc as <-.
Qed.

Lemma documented_defaults_witness :
  ∃ metadata,
    sessionMetadata sample_parser = Some metadata
    ∧ platform metadata = VStr "unknown"
    ∧ total metadata = VNum 2.
Proof.
  destruct documented_defaults as (Hmd & _).
  destruct (Hmd JSONParser.constructor sample_document sample_parser)
    as (metadata & Hsome & Hplatform & _ & _ & Htotal).
  - vm_compute. reflexivity.
  - exists metadata. split; [done|]. split.
    + apply Hplatform. vm_compute. reflexivity.
    + rewrite Htotal; vm_compute; reflexivity.
Defined.

(** C8, the counterexample. A session of [db_sessions] that has no
    [matches_screenshot] is parsed with [matchesScreenshot] true, not false;
    and the numeric field [confidence] of a detection that has none is
    [undefined], not [0]. *)
Lemma matches_screenshot_default_counterexample :
  prop plain_session "matches_screenshot" = VUndef
  ∧ (∃ s, parseDBSessions (VArr [plain_session]) = Ok [s]
          ∧ matchesScreenshot s = VBool true)
  ∧ prop plain_detection "confidence" = VUndef
  ∧ (∃ g, parseMLGame plain_detection = Ok g ∧ confidence g = VUndef).
Proof.
  split_and!; [by vm_compute | | by vm_compute |].
  - eexists. split; by vm_compute.
  - eexists. split; by vm_compute.
Qed.

(** ** Raw results with missing fields *)












(** * Further properties of the code *)

(** ** Conversions to text *)

(** Induction on values, through the elements of arrays. *)
Lemma value_array_ind (P : value → Prop) :
  (∀ v, JSONParser.isArray v = false → P v) →
  (∀ items, Forall P items → P (VArr items)) →
  ∀ v, P v.
Proof.
  intros Hbase Harr. fix IH 1. intros v.
  destruct v as [| | | | |items|]; try by apply Hbase.
  apply Harr. induction items as [|x items IHitems]; constructor.
  - apply IH.
  - apply IHitems.
Qed.

Lemma to_string_array items :
  to_string (VArr items) =
    match collect (map join_cell items) with
    | Ok texts => Ok (join "," texts)
    | Throw e => Throw e
    | Unmodelled => Unmodelled
    end.
Proof. done. Qed.

Lemma collect_cons_throw {A} (o : outcome A) l e :
  o = Throw e → collect (o :: l) = Throw e.
Proof. by intros ->. Qed.

Lemma collect_ok {A} (l : list (outcome A)) (texts : list A) :
  Forall2 (λ o a, o = Ok a) l texts → collect l = Ok texts.
Proof. induction 1 as [|o a l texts -> _ IH]; simpl; [done|]. by rewrite IH. Qed.

Lemma collect_ok_inv {A} (l : list (outcome A)) (texts : list A) :
  collect l = Ok texts → Forall2 (λ o a, o = Ok a) l texts.
Proof.
  revert texts. induction l as [|o l IH]; simpl; intros texts.
  - intros [= <-]. constructor.
  - destruct o as [a| |]; destruct (collect l) as [texts'| |]; try done.
    intros [= <-]. constructor; [done|]. by apply IH.
Qed.

(** [collect] throws exactly when one of the conversions throws. *)
Lemma collect_throws {A} (l : list (outcome A)) msg :
  Forall (λ o, ∀ e, o = Throw e → e = msg) l →
  (Exists (λ o, o = Throw msg) l → collect l = Throw msg)
  ∧ (Forall (λ o, o ≠ Throw msg) l → ∀ e, collect l ≠ Throw e).
Proof.
  induction 1 as [|o l Ho _ [IHthrow IHnot]]; simpl.
  { split; [by intros ?%Exists_nil | done]. }
  split.
  - intros [->|Hl]%Exists_cons; [done|]. rewrite (IHthrow Hl).
    destruct o as [a|e|]; [done| |done]. by rewrite (Ho e eq_refl).
  - intros [Hno Hl]%Forall_cons e. specialize (IHnot Hl).
    destruct o as [a|e'|].
    + destruct (collect l) as [texts|e''|]; [done| |done].
      by destruct (IHnot e'').
    + destruct Hno. by rewrite (Ho e' eq_refl).
    + destruct (collect l) as [texts|e''|]; [done| |done].
      by destruct (IHnot e'').
Qed.

Lemma forallb_false {A} (f : A → bool) l :
  forallb f l = false → ∃ x, x ∈ l ∧ f x = false.
Proof.
  induction l as [|x l IH]; simpl; [done|].
  destruct (f x) eqn:Hx; simpl.
  - intros (y & Hy & Hfy)%IH. exists y. split; [by right | done].
  - intros _. exists x. split; [by left | done].
Qed.

(** The conversion of a value throws exactly when the value is not
    [convertible], and then with the message of [conversion_error]. *)
Lemma to_string_convertible v :
  (convertible v = true → ∀ e, to_string v ≠ Throw e)
  ∧ (convertible v = false → to_string v = Throw conversion_error).
Proof.
  induction v as [v Hv|items IH] using value_array_ind.
  { destruct v as [| |[]|n| |items|fields]; simpl; try done.
    - by destruct (safe n).
    - by destruct (fields !! "toString"). }
  rewrite to_string_array. simpl.
  assert (Helem : Forall (λ x,
            (convertible x = true → ∀ e, join_cell x ≠ Throw e)
            ∧ (convertible x = false → join_cell x = Throw conversion_error))
            items).
  { eapply Forall_impl; [done|]. intros x [Hyes Hno]. unfold join_cell.
    split.
    - intros Hx e. destruct (nullish x); [done|]. by apply Hyes.
    - intros Hx. rewrite (Hno Hx). by destruct x. }
  assert (Hmsg : Forall (λ o, ∀ e, o = Throw e → e = conversion_error)
            (map join_cell items)).
  { apply Forall_map. eapply Forall_impl; [done|]. intros x [Hyes Hno] e He.
    destruct (convertible x) eqn:Hx.
    - by destruct (Hyes eq_refl e).
    - rewrite (Hno eq_refl) in He. by injection He. }
  destruct (collect_throws _ _ Hmsg) as [Hthrow Hnot]. split.
  - intros Hall e. rewrite forallb_forall in Hall.
    destruct (collect _) as [texts|e'|] eqn:Hc; [done| |done].
    destruct (Hnot) with e'; [|done].
    apply Forall_map, Forall_forall. intros x Hx.
    rewrite Forall_forall in Helem. destruct (Helem x Hx) as [Hyes _].
    apply Hyes. by apply Hall, list_elem_of_In.
  - intros (x & Hx & Hcx)%forallb_false. rewrite Hthrow; [done|].
    apply Exists_map, Exists_exists. exists x. split; [done|].
    rewrite Forall_forall in Helem. by apply Helem.
Qed.

Lemma to_string_throws v :
  convertible v = false → to_string v = Throw conversion_error.
Proof. apply to_string_convertible. Qed.

Lemma converts_convertible v :
  converts v = if convertible v then Ok () else Throw conversion_error.
Proof.
  unfold converts. destruct (to_string_convertible v) as [Hyes Hno].
  destruct (convertible v).
  - destruct (to_string v) as [text|e|]; [done| |done]. by destruct (Hyes eq_refl e).
  - by rewrite Hno.
Qed.

(** The conversion of a [printable] value returns. *)
Lemma to_string_printable v :
  printable v = true → returns (to_string v).
Proof.
  induction v as [v Hv|items IH] using value_array_ind.
  { unfold returns.
    destruct v as [| |[]|n| |items|fields]; simpl; intros Hp;
      [by exists "undefined" | by exists "null" | by exists "true"
      | by exists "false" | | by eexists | done |].
    - rewrite Hp. by eexists.
    - destruct (fields !! "toString"); [done|]. by exists "[object Object]". }
  intros Hall. rewrite to_string_array. simpl in Hall.
  rewrite forallb_forall in Hall.
  assert (Htexts : ∃ texts, collect (map join_cell items) = Ok texts).
  { clear -IH Hall. induction IH as [|x items Hx _ IHitems]; simpl.
    - by eexists.
    - destruct IHitems as [texts ->].
      { intros y Hy. apply Hall. by right. }
      unfold join_cell at 1. destruct (nullish x); [by eexists|].
      destruct Hx as [text ->]; [apply Hall; by left|]. by eexists. }
  destruct Htexts as [texts ->]. by eexists.
Qed.

Lemma printable_convertible v : printable v = true → convertible v = true.
Proof.
  intros [text Hv]%to_string_printable.
  destruct (convertible v) eqn:Hc; [done|].
  by rewrite (to_string_throws v Hc) in Hv.
Qed.

(** ** validateAndParse *)

Lemma validateAndMetadata_returns data :
  returns (validateAndMetadata data) ↔
    nullish data = false
    ∧ truthy (prop data "session_id") = true
    ∧ isArray (prop data "results") = true.
Proof.
  unfold validateAndMetadata, get. split.
  - intros [[metadata raw] H].
    destruct (nullish data); [done|]. simpl in H.
    destruct (truthy (prop data "session_id")); [|done]. simpl in H.
    by destruct (prop data "results").
  - intros (-> & Hsid & Harr). simpl. rewrite Hsid. simpl.
    destruct (prop data "results"); try done. by eexists.
Qed.

Lemma validateAndMetadata_errors data :
  nullish data = false →
  (truthy (prop data "session_id") = false →
   validateAndMetadata data = Throw "Missing required field: session_id")
  ∧ (truthy (prop data "session_id") = true →
     isArray (prop data "results") = false →
     validateAndMetadata data = Throw "Missing or invalid results array").
Proof.
  intros Hd. unfold validateAndMetadata, get. rewrite Hd. simpl.
  split.
  - by intros ->.
  - intros -> Harr. simpl. by destruct (prop data "results").
Qed.

(** X1. A call of [validateAndParse] that does not return leaves the
    results, the discrepancy count and the raw document of the parser as
    they were. When the two required fields pass the checks and it is a
    result that fails to parse, the metadata of the failed document has
    already replaced the old one; otherwise the parser is unchanged. *)
Theorem validateAndParse_failure p data :
  (validateAndParse p data).2 ≠ Ok () →
  JSONParser.results (validateAndParse p data).1 = JSONParser.results p
  ∧ discrepancyCount (validateAndParse p data).1 = discrepancyCount p
  ∧ analysisData (validateAndParse p data).1 = analysisData p
  ∧ (nullish data = false
     → truthy (prop data "session_id") = true
     → isArray (prop data "results") = true
     → ∃ metadata,
         sessionMetadata (validateAndParse p data).1 = Some metadata
         ∧ sessionId metadata = prop data "session_id")
  ∧ (nullish data = true
     ∨ truthy (prop data "session_id") = false
     ∨ isArray (prop data "results") = false
     → (validateAndParse p data).1 = p).
Proof.
  unfold validateAndParse.
  destruct (validateAndMetadata data) as [[metadata raw]| |] eqn:Hmd.
  - destruct (mapM parseResult raw) as [rs| |]; simpl; [done|..];
      intros _; (split_and!; try done);
      try (intros _ _ _; exists metadata; split; [done|];
           by apply validateAndMetadata_inv in Hmd as (_ & _ & ->));
      assert (Hr : returns (validateAndMetadata data)) by (by eexists);
      apply validateAndMetadata_returns in Hr as (Hn & Hs & Ha);
      intros [|[|]]; congruence.
  - intros _. simpl. split_and!; try done.
    intros Hn Hs Ha.
    assert (Hr : returns (validateAndMetadata data))
      by (by apply validateAndMetadata_returns).
    destruct Hr as [? Hr]. congruence.
  - intros _. simpl. split_and!; try done.
    intros Hn Hs Ha.
    assert (Hr : returns (validateAndMetadata data))
      by (by apply validateAndMetadata_returns).
    destruct Hr as [? Hr]. congruence.
Qed.

Lemma validateAndParse_failure_witness :
  JSONParser.results (validateAndParse sample_parser broken_document).1
    = [sample_result; bare_result]
  ∧ ∃ metadata,
      sessionMetadata (validateAndParse sample_parser broken_document).1
        = Some metadata
      ∧ sessionId metadata = VStr "s-3".
Proof.
  destruct (validateAndParse_failure sample_parser broken_document)
    as (Hrs & _ & _ & Hmd & _).
  - vm_compute. discriminate.
  - split.
    + rewrite Hrs. vm_compute. reflexivity.
    + destruct Hmd as (metadata & Hsome & Hid); [by vm_compute..|].
      exists metadata. split; [done|]. rewrite Hid. vm_compute. reflexivity.
Defined.

(** X2. The two checks of [validateAndParse]: a document whose
    [session_id] is missing or falsy (the empty string, [0]) is refused with
    the message of the missing [session_id], and a document with a
    [session_id] whose [results] is missing or not an array with the message
    of the results array; in both cases nothing of the parser changes. *)
Theorem validateAndParse_required_fields p data :
  nullish data = false →
  (truthy (prop data "session_id") = false →
   validateAndParse p data = (p, Throw "Missing required field: session_id"))
  ∧ (truthy (prop data "session_id") = true →
     isArray (prop data "results") = false →
     validateAndParse p data = (p, Throw "Missing or invalid results array")).
Proof.
  intros Hd. destruct (validateAndMetadata_errors data Hd) as [H1 H2].
  unfold validateAndParse. split.
  - intros Hs. by rewrite (H1 Hs).
  - intros Hs Ha. by rewrite (H2 Hs Ha).
Qed.

Lemma validateAndParse_required_fields_witness :
  validateAndParse sample_parser (obj [("session_id", VStr ""); ("results", VArr [])])
    = (sample_parser, Throw "Missing required field: session_id")
  ∧ validateAndParse sample_parser (obj [("session_id", VStr "s"); ("results", obj [])])
    = (sample_parser, Throw "Missing or invalid results array").
Proof.
  split.
  - apply (validateAndParse_required_fields sample_parser
             (obj [("session_id", VStr ""); ("results", VArr [])]));
      by vm_compute.
  - apply (validateAndParse_required_fields sample_parser
             (obj [("session_id", VStr "s"); ("results", obj [])]));
      by vm_compute.
Defined.

Lemma mapM_index raw rs :
  Forall2 (λ x r, parseResult x = Ok r) raw rs →
  map index rs = map (λ x, prop x "index") raw.
Proof.
  induction 1 as [|x r raw rs Hx _ IH]; simpl; [done|].
  rewrite IH. f_equal.
  by apply parseResult_inv in Hx
    as (? & ? & ? & ? & ? & ? & _ & _ & _ & _ & _ & _ & ->).
Qed.

(** X3. A call of [validateAndParse] that returns replaces the whole
    session: the parser it leaves does not depend on the parser it started
    from. It holds one result per entry of the [results] of the document, in
    the order of the document, each with the [index] of its entry, and the
    document itself as [analysisData]. *)
Theorem validateAndParse_replaces p data p' :
  validateAndParse p data = (p', Ok ()) →
  (∀ q, validateAndParse q data = (p', Ok ()))
  ∧ analysisData p' = data
  ∧ ∃ raw,
      prop data "results" = VArr raw
      ∧ length (JSONParser.results p') = length raw
      ∧ map index (JSONParser.results p') = map (λ x, prop x "index") raw.
Proof.
  intros Hp. split_and!.
  - intros q. revert Hp. unfold validateAndParse.
    destruct (validateAndMetadata data) as [[metadata raw]| |]; [|done..].
    destruct (mapM parseResult raw) as [rs| |]; [|done..].
    by intros [= <-].
  - by apply validateAndParse_results in Hp as (? & ? & _ & _ & _ & _ & ?).
  - apply validateAndParse_results in Hp as (metadata & raw & Hmd & Hrs & _).
    exists raw. apply validateAndMetadata_inv in Hmd as (_ & Hraw & _).
    split_and!; [done | symmetry; by eapply Forall2_length | by apply mapM_index].
Qed.

Lemma validateAndParse_replaces_witness :
  validateAndParse (clear sample_parser) sample_document = (sample_parser, Ok ())
  ∧ map index (JSONParser.results sample_parser) = [VNum 7; VNum 8].
Proof.
  destruct (validateAndParse_replaces JSONParser.constructor sample_document
              sample_parser) as (Hany & _ & raw & Hraw & _ & Hidx).
  - by vm_compute.
  - split; [apply Hany|]. rewrite Hidx.
    assert (Hr : prop sample_document "results" = VArr [sample_frame; bare_frame])
      by (by vm_compute).
    rewrite Hr in Hraw. injection Hraw as <-. by vm_compute.
Defined.

(** ** Statistics *)

Lemma filter_Prop_bool {A} (f : A → bool) (l : list A) :
  filter (λ x, f x = true) l = List.filter f l.
Proof.
  induction l as [|x l IH]; [done|].
  rewrite filter_cons. simpl. rewrite IH.
  destruct (f x); by case_decide.
Qed.

Lemma len_cons {A} (x : A) l : len (x :: l) = 1 + len l.
Proof. unfold len. simpl. lia. Qed.

Lemma len_nonneg {A} (l : list A) : 0 ≤ len l.
Proof. unfold len. lia. Qed.

Lemma len_filter_cons {A} (f : A → bool) x l :
  len (List.filter f (x :: l)) = (if f x then 1 else 0) + len (List.filter f l).
Proof. simpl. destruct (f x); [apply len_cons | lia]. Qed.

Lemma len_filter_le {A} (f : A → bool) l : len (List.filter f l) ≤ len l.
Proof.
  induction l as [|x l IH]; [done|].
  rewrite len_filter_cons, len_cons. destruct (f x); lia.
Qed.

Lemma len_filter_mono {A} (f g : A → bool) l :
  (∀ x, f x = true → g x = true) →
  len (List.filter f l) ≤ len (List.filter g l).
Proof.
  intros Hfg. induction l as [|x l IH]; [done|].
  rewrite !len_filter_cons. specialize (Hfg x).
  destruct (f x), (g x); first [lia | by specialize (Hfg eq_refl)].
Qed.

Lemma len_filter_or4 {A} (f1 f2 f3 f4 : A → bool) l :
  len (List.filter (λ x, f1 x || f2 x || f3 x || f4 x) l)
  ≤ len (List.filter f1 l) + len (List.filter f2 l)
    + len (List.filter f3 l) + len (List.filter f4 l).
Proof.
  induction l as [|x l IH]; [done|].
  rewrite !len_filter_cons.
  destruct (f1 x), (f2 x), (f3 x), (f4 x); simpl; lia.
Qed.

Lemma countFlags_eq stats r :
  truthy (discrepancyFlags r) = true →
  countFlags stats r =
    Ok {| st_total := st_total stats;
          withDiscrepancies := withDiscrepancies stats;
          mlVsPostprocessing :=
            mlVsPostprocessing stats
            + (if flagSet "ml_vs_postprocessing" r then 1 else 0);
          postprocessingVsDb :=
            postprocessingVsDb stats
            + (if flagSet "postprocessing_vs_db" r then 1 else 0);
          missingInDb :=
            missingInDb stats + (if flagSet "missing_in_db" r then 1 else 0);
          extraInDb :=
            extraInDb stats + (if flagSet "extra_in_db" r then 1 else 0) |}.
Proof.
  intros Hr. unfold countFlags, flagSet. rewrite !get_truthy by done. simpl.
  do 2 f_equal;
    match goal with |- context [truthy ?v] => destruct (truthy v) end; lia.
Qed.

Lemma foldM_countFlags_counts rs : ∀ stats,
  Forall flags_ok rs →
  ∃ stats',
    foldM countFlags stats rs = Ok stats'
    ∧ st_total stats' = st_total stats
    ∧ withDiscrepancies stats' = withDiscrepancies stats
    ∧ mlVsPostprocessing stats'
      = mlVsPostprocessing stats
        + len (List.filter (flagSet "ml_vs_postprocessing") rs)
    ∧ postprocessingVsDb stats'
      = postprocessingVsDb stats
        + len (List.filter (flagSet "postprocessing_vs_db") rs)
    ∧ missingInDb stats'
      = missingInDb stats + len (List.filter (flagSet "missing_in_db") rs)
    ∧ extraInDb stats'
      = extraInDb stats + len (List.filter (flagSet "extra_in_db") rs).
Proof.
  induction rs as [|r rs IH]; intros stats Hrs.
  - exists stats. simpl. unfold len. simpl. split_and!; [done..|lia|lia|lia|lia].
  - apply Forall_cons in Hrs as [[Hr _] Hrs].
    rewrite !len_filter_cons.
    change (foldM countFlags stats (r :: rs))
      with (countFlags stats r ≫= λ s', foldM countFlags s' rs).
    rewrite countFlags_eq by done. simpl.
    edestruct IH as (stats' & -> & Ht & Hw & H1 & H2 & H3 & H4); [done|].
    exists stats'. rewrite Ht, Hw, H1, H2, H3, H4. simpl.
    split_and!; try done; lia.
Qed.

Lemma getDiscrepancyStats_counts_lemma p :
  reachable p →
  ∃ stats,
    getDiscrepancyStats p = Ok stats
    ∧ withDiscrepancies stats
      = len (List.filter (λ r, truthy (hasDiscrepancy r)) (JSONParser.results p))
    ∧ mlVsPostprocessing stats
      = len (List.filter (flagSet "ml_vs_postprocessing") (JSONParser.results p))
    ∧ postprocessingVsDb stats
      = len (List.filter (flagSet "postprocessing_vs_db") (JSONParser.results p))
    ∧ missingInDb stats
      = len (List.filter (flagSet "missing_in_db") (JSONParser.results p))
    ∧ extraInDb stats
      = len (List.filter (flagSet "extra_in_db") (JSONParser.results p)).
Proof.
  intros [Hall Hcount]%reachable_inv. unfold getDiscrepancyStats.
  edestruct (foldM_countFlags_counts (JSONParser.results p))
    as (stats & -> & Ht & Hw & H1 & H2 & H3 & H4); [done|].
  simpl in *. exists stats. rewrite H1, H2, H3, H4, !Z.add_0_l.
  split_and!; try done.
  rewrite Hw, Hcount. unfold countDiscrepancies. by rewrite filter_Prop_bool.
Qed.

(** X4. In every state of the parser [getDiscrepancyStats] returns:
    [total] is the number of results, and each of the four category counts
    is the number of results with that flag set. A category count is at most
    [withDiscrepancies], which is at most [total] and at most the sum of the
    four category counts. *)
Theorem getDiscrepancyStats_counts p :
  reachable p →
  ∃ stats,
    getDiscrepancyStats p = Ok stats
    ∧ st_total stats = len (JSONParser.results p)
    ∧ mlVsPostprocessing stats
      = len (List.filter (flagSet "ml_vs_postprocessing") (JSONParser.results p))
    ∧ postprocessingVsDb stats
      = len (List.filter (flagSet "postprocessing_vs_db") (JSONParser.results p))
    ∧ missingInDb stats
      = len (List.filter (flagSet "missing_in_db") (JSONParser.results p))
    ∧ extraInDb stats
      = len (List.filter (flagSet "extra_in_db") (JSONParser.results p))
    ∧ mlVsPostprocessing stats ≤ withDiscrepancies stats
    ∧ postprocessingVsDb stats ≤ withDiscrepancies stats
    ∧ missingInDb stats ≤ withDiscrepancies stats
    ∧ extraInDb stats ≤ withDiscrepancies stats
    ∧ withDiscrepancies stats ≤ st_total stats
    ∧ withDiscrepancies stats
      ≤ mlVsPostprocessing stats + postprocessingVsDb stats
        + missingInDb stats + extraInDb stats.
Proof.
  intros [Hall Hcount]%reachable_inv. unfold getDiscrepancyStats.
  edestruct (foldM_countFlags_counts (JSONParser.results p))
    as (stats & -> & Ht & Hw & H1 & H2 & H3 & H4); [done|].
  simpl in *. exists stats.
  assert (Hany : withDiscrepancies stats
                 = len (List.filter (λ r, anyFlag (discrepancyFlags r))
                          (JSONParser.results p))).
  { by rewrite Hw, Hcount, count_any_flag, filter_Prop_bool. }
  rewrite Ht, H1, H2, H3, H4, Hany.
  split_and!; try done; try lia.
  - apply len_filter_mono. unfold flagSet, anyFlag. intros r ->. done.
  - apply len_filter_mono. unfold flagSet, anyFlag. intros r ->.
    by rewrite !orb_true_r.
  - apply len_filter_mono. unfold flagSet, anyFlag. intros r ->.
    by rewrite !orb_true_r.
  - apply len_filter_mono. unfold flagSet, anyFlag. intros r ->.
    by rewrite !orb_true_r.
  - apply len_filter_le.
  - rewrite !Z.add_0_l. unfold anyFlag. apply len_filter_or4.
Qed.

Lemma getDiscrepancyStats_counts_witness :
  ∃ stats,
    getDiscrepancyStats sample_parser = Ok stats
    ∧ st_total stats = 2
    ∧ mlVsPostprocessing stats = 1
    ∧ postprocessingVsDb stats = 0.
Proof.
  destruct (getDiscrepancyStats_counts sample_parser)
    as (stats & Hs & Ht & H1 & H2 & _).
  - apply reachable_parse, reachable_new.
  - exists stats. rewrite Ht, H1, H2. split_and!; by vm_compute.
Defined.

(** ** filterResults *)

Lemma criterion_insert criteria name v k :
  criterion (<[name := v]> criteria) k
  = if decide (name = k) then truthy v else criterion criteria k.
Proof.
  unfold criterion. case_decide as Hk.
  - subst. by rewrite lookup_insert_eq.
  - by rewrite lookup_insert_ne.
Qed.

Lemma matches_spec criteria r :
  matches criteria r = true ↔
    (criterion criteria "onlyDiscrepancies" = true → truthy (hasDiscrepancy r) = true)
    ∧ (criterion criteria "mlVsPost" = true → flagSet "ml_vs_postprocessing" r = true)
    ∧ (criterion criteria "postVsDb" = true → flagSet "postprocessing_vs_db" r = true)
    ∧ (criterion criteria "missingInDb" = true → flagSet "missing_in_db" r = true)
    ∧ (criterion criteria "extraInDb" = true → flagSet "extra_in_db" r = true).
Proof.
  unfold matches, flagSet.
  destruct (criterion criteria "onlyDiscrepancies"),
    (criterion criteria "mlVsPost"), (criterion criteria "postVsDb"),
    (criterion criteria "missingInDb"), (criterion criteria "extraInDb"),
    (truthy (hasDiscrepancy r)),
    (truthy (prop (discrepancyFlags r) "ml_vs_postprocessing")),
    (truthy (prop (discrepancyFlags r) "postprocessing_vs_db")),
    (truthy (prop (discrepancyFlags r) "missing_in_db")),
    (truthy (prop (discrepancyFlags r) "extra_in_db")); simpl;
    (split; [intros; try done; by repeat split | intros (?&?&?&?&?); auto]).
Qed.

Lemma filter_bool_ext {A} (f g : A → bool) l :
  Forall (λ x, f x = g x) l → List.filter f l = List.filter g l.
Proof.
  induction 1 as [|x l Hx _ IH]; simpl; [done|]. by rewrite Hx, IH.
Qed.

Lemma filter_bool_filter {A} (f g : A → bool) l :
  List.filter f (List.filter g l) = List.filter (λ x, g x && f x) l.
Proof.
  induction l as [|x l IH]; simpl; [done|].
  destruct (g x); simpl; [|done]. destruct (f x); by rewrite IH.
Qed.

Lemma filter_bool_all {A} (f : A → bool) l :
  Forall (λ x, f x = true) l → List.filter f l = l.
Proof.
  induction 1 as [|x l Hx _ IH]; simpl; [done|]. by rewrite Hx, IH.
Qed.

(** X5. In every state of the parser [filterResults] returns, whatever the
    criteria object. What it returns is a subsequence of the results (same
    order, nothing copied twice), and a result is in it exactly when it
    passes every criterion that is set: [hasDiscrepancy] for
    [onlyDiscrepancies], and the flag of each category toggle. *)
Theorem filterResults_and p criteria :
  reachable p →
  ∃ filtered,
    filterResults p criteria = Ok filtered
    ∧ sublist filtered (JSONParser.results p)
    ∧ ∀ r, r ∈ filtered ↔
        r ∈ JSONParser.results p
        ∧ (criterion criteria "onlyDiscrepancies" = true
           → truthy (hasDiscrepancy r) = true)
        ∧ (criterion criteria "mlVsPost" = true
           → flagSet "ml_vs_postprocessing" r = true)
        ∧ (criterion criteria "postVsDb" = true
           → flagSet "postprocessing_vs_db" r = true)
        ∧ (criterion criteria "missingInDb" = true
           → flagSet "missing_in_db" r = true)
        ∧ (criterion criteria "extraInDb" = true
           → flagSet "extra_in_db" r = true).
Proof.
  intros Hp%reachable_inv. eexists. split; [by apply filterResults_ok|].
  split; [apply filter_sublist|].
  intros r. by rewrite elem_of_filter_bool, matches_spec.
Qed.

Lemma filterResults_and_witness :
  ∃ filtered,
    filterResults sample_parser onlyDiscrepancies = Ok filtered
    ∧ sample_result ∈ filtered
    ∧ bare_result ∉ filtered.
Proof.
  destruct (filterResults_and sample_parser onlyDiscrepancies)
    as (filtered & Hf & _ & Hin).
  - apply reachable_parse, reachable_new.
  - exists filtered. split; [done|]. split.
    + apply Hin. split; [|vm_compute; split_and!; done].
      rewrite sample_document_parses. apply list_elem_of_here.
    + intros (_ & Hd & _)%Hin.
      assert (Hc : criterion onlyDiscrepancies "onlyDiscrepancies" = true)
        by (by vm_compute).
      by specialize (Hd Hc).
Defined.

(** X6. With none of the five criteria set (all false, or absent from the
    criteria object, whatever else the object holds) [filterResults] returns
    all the results, in their order. *)
Theorem filterResults_no_criteria p criteria :
  reachable p →
  criterion criteria "onlyDiscrepancies" = false →
  criterion criteria "mlVsPost" = false →
  criterion criteria "postVsDb" = false →
  criterion criteria "missingInDb" = false →
  criterion criteria "extraInDb" = false →
  filterResults p criteria = Ok (JSONParser.results p).
Proof.
  intros Hp%reachable_inv H0 H1 H2 H3 H4.
  rewrite filterResults_ok by done. f_equal.
  apply filter_bool_all, Forall_forall. intros r _.
  apply matches_spec. rewrite H0, H1, H2, H3, H4. done.
Qed.

Lemma filterResults_no_criteria_witness :
  filterResults sample_parser (<["highlight" := VBool true]> noCriteria)
  = Ok [sample_result; bare_result].
Proof.
  rewrite <- sample_document_parses.
  apply filterResults_no_criteria;
    [apply reachable_parse, reachable_new | by vm_compute..].
Defined.

Lemma categoryCriteria_cases (P : string → string → Prop) name flag :
  (name, flag) ∈ categoryCriteria →
  P "mlVsPost" "ml_vs_postprocessing" →
  P "postVsDb" "postprocessing_vs_db" →
  P "missingInDb" "missing_in_db" →
  P "extraInDb" "extra_in_db" →
  P name flag.
Proof.
  unfold categoryCriteria. intros Hin H1 H2 H3 H4.
  repeat (apply elem_of_cons in Hin as [[= -> ->]|Hin]; [done|]).
  by apply elem_of_nil in Hin.
Qed.

Lemma matches_insert_category criteria name flag enabled r :
  (name, flag) ∈ categoryCriteria →
  truthy enabled = true →
  matches (<[name := enabled]> criteria) r = matches criteria r && flagSet flag r.
Proof.
  intros Hin He.
  apply (categoryCriteria_cases
           (λ name flag, matches (<[name := enabled]> criteria) r
                         = matches criteria r && flagSet flag r) name flag Hin);
    unfold matches, flagSet; rewrite !criterion_insert, He; simpl;
    repeat (case_decide; [done|]); try (case_decide; [|done]);
    destruct (criterion criteria "onlyDiscrepancies" && _),
      (criterion criteria "mlVsPost"), (criterion criteria "postVsDb"),
      (criterion criteria "missingInDb"), (criterion criteria "extraInDb"),
      (truthy (prop (discrepancyFlags r) "ml_vs_postprocessing")),
      (truthy (prop (discrepancyFlags r) "postprocessing_vs_db")),
      (truthy (prop (discrepancyFlags r) "missing_in_db")),
      (truthy (prop (discrepancyFlags r) "extra_in_db")); done.
Qed.

Lemma matches_insert_onlyDiscrepancies criteria enabled r :
  truthy enabled = true →
  matches (<["onlyDiscrepancies" := enabled]> criteria) r
  = matches criteria r && truthy (hasDiscrepancy r).
Proof.
  intros He. unfold matches. rewrite !criterion_insert, He. simpl.
  destruct (criterion criteria "onlyDiscrepancies"),
    (truthy (hasDiscrepancy r)),
    (criterion criteria "mlVsPost" && _), (criterion criteria "postVsDb" && _),
    (criterion criteria "missingInDb" && _), (criterion criteria "extraInDb" && _);
    done.
Qed.

Lemma matches_noCriteria r : matches noCriteria r = true.
Proof. apply matches_spec. split_and!; by vm_compute. Qed.

(** X7. Setting one more category toggle filters what the other criteria
    had left: the results are those of the criteria before, in their order,
    that have the flag of the toggle. (So criteria combine by AND, a second
    criterion never brings a result back, and setting a toggle that is
    already set changes nothing.) *)
Theorem filterResults_add_category p criteria name flag enabled :
  reachable p →
  (name, flag) ∈ categoryCriteria →
  truthy enabled = true →
  ∃ filtered,
    filterResults p criteria = Ok filtered
    ∧ filterResults p (<[name := enabled]> criteria)
      = Ok (List.filter (flagSet flag) filtered).
Proof.
  intros Hp%reachable_inv Hin He. eexists. split; [by apply filterResults_ok|].
  rewrite filterResults_ok by done. f_equal.
  rewrite filter_bool_filter. apply filter_bool_ext, Forall_forall.
  intros r _. by apply matches_insert_category.
Qed.

Lemma filterResults_add_category_witness :
  ∃ filtered,
    filterResults sample_parser noCriteria = Ok filtered
    ∧ filterResults sample_parser (<["missingInDb" := VBool true]> noCriteria)
      = Ok (List.filter (flagSet "missing_in_db") filtered).
Proof.
  apply (filterResults_add_category sample_parser noCriteria "missingInDb"
           "missing_in_db" (VBool true)).
  - apply reachable_parse, reachable_new.
  - unfold categoryCriteria. do 2 apply list_elem_of_further.
    apply list_elem_of_here.
  - reflexivity.
Defined.

Lemma flagSet_anyFlag name flag r :
  (name, flag) ∈ categoryCriteria →
  flagSet flag r = true → anyFlag (discrepancyFlags r) = true.
Proof.
  intros Hin.
  apply (categoryCriteria_cases
           (λ _ flag, flagSet flag r = true → anyFlag (discrepancyFlags r) = true)
           name flag Hin);
    unfold flagSet, anyFlag; intros ->; by rewrite ?orb_true_r.
Qed.

Lemma criterion_category criteria name flag r :
  (name, flag) ∈ categoryCriteria →
  criterion criteria name = true →
  matches criteria r = true →
  flagSet flag r = true.
Proof.
  intros Hin Hc (_ & H1 & H2 & H3 & H4)%matches_spec. revert Hc.
  apply (categoryCriteria_cases
           (λ name flag, criterion criteria name = true → flagSet flag r = true)
           name flag Hin);
    auto.
Qed.

(** X8. A category toggle implies [onlyDiscrepancies]: when one of the four
    category criteria is set, setting [onlyDiscrepancies] as well does
    not change what [filterResults] returns. *)
Theorem filterResults_category_subsumes p criteria name flag enabled :
  reachable p →
  (name, flag) ∈ categoryCriteria →
  criterion criteria name = true →
  truthy enabled = true →
  filterResults p (<["onlyDiscrepancies" := enabled]> criteria)
  = filterResults p criteria.
Proof.
  intros Hp%reachable_inv Hin Hc He. rewrite !filterResults_ok by done.
  f_equal. destruct Hp as [Hall _].
  apply filter_bool_ext. eapply Forall_impl; [done|].
  intros r [_ Hr]. simpl. rewrite matches_insert_onlyDiscrepancies by done.
  destruct (matches criteria r) eqn:Hm; [|done]. simpl.
  rewrite Hr. eapply flagSet_anyFlag; [done|].
  by eapply criterion_category.
Qed.

Lemma filterResults_category_subsumes_witness :
  filterResults sample_parser
    (<["onlyDiscrepancies" := VBool true]> (<["extraInDb" := VBool true]> noCriteria))
  = filterResults sample_parser (<["extraInDb" := VBool true]> noCriteria).
Proof.
  apply (filterResults_category_subsumes sample_parser _ "extraInDb" "extra_in_db").
  - apply reachable_parse, reachable_new.
  - unfold categoryCriteria. do 3 apply list_elem_of_further.
    apply list_elem_of_here.
  - by vm_compute.
  - reflexivity.
Defined.

(** X9. The filter and the statistics count the same things: in every state
    of the parser, filtering on [onlyDiscrepancies] alone returns
    [withDiscrepancies] results, and filtering on one category toggle alone
    returns as many results as the count of that category. *)
Theorem filterResults_counts_are_stats p :
  reachable p →
  ∃ stats only ml post missing extra,
    getDiscrepancyStats p = Ok stats
    ∧ filterResults p (<["onlyDiscrepancies" := VBool true]> noCriteria) = Ok only
    ∧ len only = withDiscrepancies stats
    ∧ filterResults p (<["mlVsPost" := VBool true]> noCriteria) = Ok ml
    ∧ len ml = mlVsPostprocessing stats
    ∧ filterResults p (<["postVsDb" := VBool true]> noCriteria) = Ok post
    ∧ len post = postprocessingVsDb stats
    ∧ filterResults p (<["missingInDb" := VBool true]> noCriteria) = Ok missing
    ∧ len missing = missingInDb stats
    ∧ filterResults p (<["extraInDb" := VBool true]> noCriteria) = Ok extra
    ∧ len extra = extraInDb stats.
Proof.
  intros Hp.
  destruct (getDiscrepancyStats_counts_lemma p Hp)
    as (stats & Hs & Hw & H1 & H2 & H3 & H4).
  pose proof (reachable_inv p Hp) as Hinv.
  exists stats. do 5 eexists.
  split; [done|].
  rewrite !filterResults_ok by done.
  split_and!; try done.
  - rewrite Hw. f_equal. apply filter_bool_ext, Forall_forall. intros r _.
    rewrite matches_insert_onlyDiscrepancies, matches_noCriteria by done. done.
  - rewrite H1. f_equal. apply filter_bool_ext, Forall_forall. intros r _.
    rewrite (matches_insert_category _ _ "ml_vs_postprocessing"),
      matches_noCriteria; [done| |done].
    unfold categoryCriteria. apply list_elem_of_here.
  - rewrite H2. f_equal. apply filter_bool_ext, Forall_forall. intros r _.
    rewrite (matches_insert_category _ _ "postprocessing_vs_db"),
      matches_noCriteria; [done| |done].
    unfold categoryCriteria. apply list_elem_of_further, list_elem_of_here.
  - rewrite H3. f_equal. apply filter_bool_ext, Forall_forall. intros r _.
    rewrite (matches_insert_category _ _ "missing_in_db"),
      matches_noCriteria; [done| |done].
    unfold categoryCriteria. do 2 apply list_elem_of_further.
    apply list_elem_of_here.
  - rewrite H4. f_equal. apply filter_bool_ext, Forall_forall. intros r _.
    rewrite (matches_insert_category _ _ "extra_in_db"),
      matches_noCriteria; [done| |done].
    unfold categoryCriteria. do 3 apply list_elem_of_further.
    apply list_elem_of_here.
Qed.

Lemma filterResults_counts_are_stats_witness :
  ∃ stats only,
    getDiscrepancyStats sample_parser = Ok stats
    ∧ filterResults sample_parser (<["onlyDiscrepancies" := VBool true]> noCriteria)
      = Ok only
    ∧ len only = withDiscrepancies stats.
Proof.
  destruct (filterResults_counts_are_stats sample_parser)
    as (stats & only & ? & ? & ? & ? & Hs & Ho & Hlen & _).
  - apply reachable_parse, reachable_new.
  - by exists stats, only.
Defined.

(** ** The classifier, all categories *)

(** X10. For the result of a raw frame (with numeric counts),
    [analyzeResult] stores the result in [currentResult] and returns one
    record per flag that is set, in the fixed order ml-vs-post, post-vs-db,
    missing-in-db, extra-in-db; the list is empty exactly when
    [hasDiscrepancy] is falsy. *)
Theorem analyzeResult_reports (this : DiscrepancyManager.t) raw r :
  parseResult raw = Ok r →
  numericCounts r →
  ∃ ds,
    analyzeResult this r = ({| currentResult := Some r |}, Ok ds)
    ∧ map type ds =
        (if flagSet "ml_vs_postprocessing" r then ["ml-vs-post"] else [])
        ++ (if flagSet "postprocessing_vs_db" r then ["post-vs-db"] else [])
        ++ (if flagSet "missing_in_db" r then ["missing-in-db"] else [])
        ++ (if flagSet "extra_in_db" r then ["extra-in-db"] else [])
    ∧ (ds = [] ↔ truthy (hasDiscrepancy r) = false).
Proof.
  intros [Hflags Hhas]%parseResult_flags_ok Hn.
  destruct (analyses_numeric r) as (d1 & d2 & _ & Ht1 & _ & _ & Ht2 & Hds);
    [by apply truthy_not_nullish | done |].
  unfold analyzeResult. rewrite Hds. eexists. split; [done|].
  rewrite Hhas. unfold anyFlag, flagSet.
  destruct (truthy (prop (discrepancyFlags r) "ml_vs_postprocessing")),
    (truthy (prop (discrepancyFlags r) "postprocessing_vs_db")),
    (truthy (prop (discrepancyFlags r) "missing_in_db")),
    (truthy (prop (discrepancyFlags r) "extra_in_db")); simpl;
    rewrite ?Ht1, ?Ht2; (split; [done|]); split; done.
Qed.

Lemma analyzeResult_reports_witness :
  ∃ ds,
    (analyzeResult DiscrepancyManager.constructor sample_result).2 = Ok ds
    ∧ map type ds = ["ml-vs-post"; "missing-in-db"; "extra-in-db"].
Proof.
  destruct (analyzeResult_reports DiscrepancyManager.constructor sample_frame
              sample_result) as (ds & Hds & Hty & _).
  - by vm_compute.
  - split; intros ? [= <-]; by eexists.
  - exists ds. rewrite Hds. split; [done|]. rewrite Hty. by vm_compute.
Defined.

(** X11. For a result whose [postprocessing_vs_db] flag is set and whose
    counts are numbers, [analyzeResult] returns exactly one post-vs-db
    record. Its severity is [error] whatever the two counts are, equal counts
    included; its evidence is the games of the post-processed stage of the
    result and its database sessions; when the post-processed count is in
    the range that is printed in decimal, its description states that count
    ([0] for a result without the stage) and the number of database
    sessions. The count goes into the description as it is: when this flag
    is set, the ml-vs-post flag is not, and the count is a value that cannot
    be converted to a string, [analyzeResult] throws. *)
Theorem analyzeResult_post_vs_db (this : DiscrepancyManager.t) r :
  flagSet "postprocessing_vs_db" r = true →
  (numericCounts r →
   ∃ ds d,
     (analyzeResult this r).2 = Ok ds
     ∧ ofType "post-vs-db" ds = [d]
     ∧ severity d = "error"
     ∧ details d = PostVsDbDetails (postProcessedGames r) (dbSessions r)
     ∧ (safe (postProcessedCount r) = true →
        description d =
          Some ("Post-processing shows " +:+ pretty (postProcessedCount r)
                +:+ " game(s), but database has "
                +:+ pretty (len (dbSessions r))
                +:+ " session(s). This indicates a DB write issue.")))
  ∧ (flagSet "ml_vs_postprocessing" r = false →
     ∀ pp,
       postProcessed r = Some pp →
       convertible (gameCount pp) = false →
       (analyzeResult this r).2 = Throw conversion_error).
Proof.
  unfold flagSet. intros Hflag. pose proof (flag_set_object _ _ Hflag) as Hf.
  split.
  - intros Hn. simpl.
    destruct (analyses_numeric r Hf Hn)
      as (d1 & d2 & _ & Ht1 & _ & Hd2 & Ht2 & ->).
    eexists _, d2. split; [done|].
    split.
    { rewrite ofType_analyses, Hflag, Ht1, Ht2. simpl.
      by rewrite !andb_false_r. }
    revert Hd2. unfold analyzePostVsDb. rewrite (postCount_numeric r Hn).
    unfold template. simpl.
    destruct (safe (postProcessedCount r)); simpl; intros [= <-]; simpl;
      (split; [done|]); (split; [done|]); [|done].
    intros _. by rewrite length_text_len.
  - intros Hml pp Hpp Hcount. simpl. rewrite analyses_flags by done.
    rewrite Hml, Hflag. simpl.
    unfold analyzePostVsDb, postCount. rewrite Hpp.
    assert (Htruthy : truthy (gameCount pp) = true) by by destruct (gameCount pp).
    unfold js_or. rewrite Htruthy. unfold template. simpl.
    by rewrite (to_string_throws _ Hcount).
Qed.

Lemma analyzeResult_post_vs_db_witness :
  parseResult mixed_frame = Ok mixed_result
  ∧ ∃ ds d,
      (analyzeResult DiscrepancyManager.constructor mixed_result).2 = Ok ds
      ∧ ofType "post-vs-db" ds = [d]
      ∧ severity d = "error"
      ∧ details d = PostVsDbDetails [slots_game; poker_game]
                      [poker_session; roulette_session]
      ∧ description d =
          Some ("Post-processing shows 2 game(s), but database has 2"
                +:+ " session(s). This indicates a DB write issue.").
Proof.
  split; [by vm_compute|].
  destruct (analyzeResult_post_vs_db DiscrepancyManager.constructor mixed_result)
    as [Hrecord _]; [by vm_compute|].
  destruct Hrecord as (ds & d & Hds & Hd & Hs & Hdet & Hdesc).
  { split; intros ? [= <-]; by eexists. }
  exists ds, d. rewrite Hdet, Hdesc by by vm_compute.
  split_and!; try done; by vm_compute.
Defined.

Lemma filter_bool_nil_iff {A} (f : A → bool) l :
  List.filter f l = [] ↔ Forall (λ x, f x = false) l.
Proof.
  induction l as [|x l IH]; simpl; [by split; [constructor|]|].
  destruct (f x) eqn:Hx.
  - split; [done|]. intros [? _]%Forall_cons. congruence.
  - rewrite IH. split; [by constructor | by intros [_ ?]%Forall_cons].
Qed.

(** X12. The two database records at the edges. With no database session
    every game of the post-processed stage is missing and no session is
    extra; with no post-processed game nothing is missing and every session
    is extra. With primitive identifiers, both evidence lists are empty
    exactly when the post-processed games and the database sessions have the
    same set of [gameSessionId]s. *)
Theorem database_records_at_the_edges r :
  postIdsPrimitive r →
  dbIdsPrimitive r →
  (dbSessions r = [] →
   missingGamesOf (analyzeMissingInDb r) = postProcessedGames r
   ∧ extraSessionsOf (analyzeExtraInDb r) = [])
  ∧ (postProcessedGames r = [] →
     missingGamesOf (analyzeMissingInDb r) = []
     ∧ extraSessionsOf (analyzeExtraInDb r) = dbSessions r)
  ∧ (missingGamesOf (analyzeMissingInDb r) = []
     ∧ extraSessionsOf (analyzeExtraInDb r) = []
     ↔ ∀ id, id ∈ map pg_gameSessionId (postProcessedGames r)
             ↔ id ∈ map db_gameSessionId (dbSessions r)).
Proof.
  intros Hpost Hdb. unfold missingGamesOf, extraSessionsOf. simpl.
  unfold postIdsPrimitive in Hpost. unfold dbIdsPrimitive in Hdb.
  rewrite Forall_forall in Hpost. rewrite Forall_forall in Hdb.
  change (postGamesOf r) with (postProcessedGames r).
  split_and!.
  - intros ->. simpl. split; [|done]. by apply filter_bool_all, Forall_forall.
  - intros ->. simpl. split; [done|]. by apply filter_bool_all, Forall_forall.
  - rewrite !filter_bool_nil_iff, !Forall_forall. split.
    + intros [Hm He] id. rewrite !list_elem_of_In, !in_map_iff. split.
      * intros (g & <- & Hg%list_elem_of_In).
        specialize (Hm g Hg). apply negb_false_iff in Hm.
        apply set_has_elem_of in Hm; [|by apply Hpost].
        by apply list_elem_of_In, in_map_iff in Hm.
      * intros (s & <- & Hs%list_elem_of_In).
        specialize (He s Hs). apply negb_false_iff in He.
        apply set_has_elem_of in He; [|by apply Hdb].
        by apply list_elem_of_In, in_map_iff in He.
    + intros Hsame. split.
      * intros g Hg. apply negb_false_iff.
        apply set_has_elem_of; [by apply Hpost|].
        apply Hsame, list_elem_of_In, in_map. by apply list_elem_of_In.
      * intros s Hs. apply negb_false_iff.
        apply set_has_elem_of; [by apply Hdb|].
        apply Hsame, list_elem_of_In, in_map. by apply list_elem_of_In.
Qed.

Lemma database_records_at_the_edges_witness :
  (missingGamesOf (analyzeMissingInDb matched_result) = []
   ∧ extraSessionsOf (analyzeExtraInDb matched_result) = [])
  ∧ ¬ (missingGamesOf (analyzeMissingInDb mixed_result) = []
       ∧ extraSessionsOf (analyzeExtraInDb mixed_result) = []).
Proof.
  split.
  - destruct (database_records_at_the_edges matched_result) as (_ & _ & Hsame).
    + unfold postIdsPrimitive. vm_compute. repeat constructor.
    + unfold dbIdsPrimitive. vm_compute. repeat constructor.
    + apply Hsame. intros id.
      change (id ∈ [VStr "gs-1"; VStr "gs-2"] ↔ id ∈ [VStr "gs-2"; VStr "gs-1"]).
      rewrite !elem_of_cons, !elem_of_nil. tauto.
  - destruct (database_records_at_the_edges mixed_result) as (_ & _ & Hsame).
    + unfold postIdsPrimitive. vm_compute. repeat constructor.
    + unfold dbIdsPrimitive. vm_compute. repeat constructor.
    + intros Hnone. pose proof (proj1 Hsame Hnone) as Hids. clear Hnone.
      rename Hids into Hnone.
      specialize (Hnone (VStr "gs-1")).
      change (VStr "gs-1" ∈ [VStr "gs-1"; VStr "gs-2"]
              ↔ VStr "gs-1" ∈ [VStr "gs-2"; VStr "gs-3"]) in Hnone.
      destruct Hnone as [Hin _].
      specialize (Hin (list_elem_of_here _ _)).
      repeat (apply elem_of_cons in Hin as [Hin|Hin]; [discriminate|]).
      by apply elem_of_nil in Hin.
Defined.

(** ** Status badges *)












(** ** formatAirtime *)

Lemma digit_of_pretty_N_char (d : N) :
  (d < 10)%N → digit_of (pretty_N_char d) = Some (Z.of_N d).
Proof.
  intros Hd.
  assert (d = 0 ∨ d = 1 ∨ d = 2 ∨ d = 3 ∨ d = 4 ∨ d = 5 ∨ d = 6 ∨ d = 7
          ∨ d = 8 ∨ d = 9)%N as Hcases by lia.
  repeat destruct Hcases as [->|Hcases]; try subst d; reflexivity.
Qed.

Lemma append_assoc' (a b c : string) : (a +:+ b) +:+ c = a +:+ (b +:+ c).
Proof.
  induction a as [|x a IH]; [done|].
  change (String x ((a +:+ b) +:+ c) = String x (a +:+ (b +:+ c))).
  by rewrite IH.
Qed.

Lemma pretty_N_go_append x : ∀ s rest,
  pretty_N_go x s +:+ rest = pretty_N_go x (s +:+ rest).
Proof.
  induction (N.lt_wf_0 x) as [x _ IH]; intros s rest.
  assert (x = 0 ∨ 0 < x)%N as [->|Hx] by lia.
  - by rewrite !pretty_N_go_0.
  - rewrite (pretty_N_go_step x s), (pretty_N_go_step x (s +:+ rest)) by done.
    rewrite IH; [reflexivity|]. by apply N.div_lt.
Qed.

Lemma readAirtime_pretty_N_go x : ∀ s total,
  readAirtime (pretty_N_go x s) total 0 = readAirtime s total (Z.of_N x).
Proof.
  induction (N.lt_wf_0 x) as [x _ IH]; intros s total.
  assert (x = 0 ∨ 0 < x)%N as [->|Hx] by lia.
  - by rewrite pretty_N_go_0.
  - rewrite pretty_N_go_step by done. rewrite IH by (by apply N.div_lt).
    simpl. rewrite digit_of_pretty_N_char by (by apply N.mod_lt).
    f_equal. rewrite (N.div_mod x 10) at 3 by done. lia.
Qed.

Lemma readAirtime_pretty (z : Z) rest total :
  0 ≤ z →
  readAirtime (pretty z +:+ rest) total 0 = readAirtime rest total z.
Proof.
  intros Hz. destruct z as [|p|p]; [done| |lia].
  unfold pretty, pretty_Z, pretty, pretty_positive, pretty, pretty_N.
  rewrite decide_False by done.
  by rewrite pretty_N_go_append, readAirtime_pretty_N_go.
Qed.

Lemma readAirtime_last (z : Z) total :
  0 ≤ z →
  readAirtime (pretty z +:+ "h") total 0 = total + 3600 * z
  ∧ readAirtime (pretty z +:+ "m") total 0 = total + 60 * z
  ∧ readAirtime (pretty z +:+ "s") total 0 = total + z.
Proof. intros Hz. by rewrite !readAirtime_pretty. Qed.

Lemma readAirtime_then (z : Z) rest total :
  0 ≤ z →
  readAirtime ((pretty z +:+ "h") +:+ " " +:+ rest) total 0
    = readAirtime rest (total + 3600 * z) 0
  ∧ readAirtime ((pretty z +:+ "m") +:+ " " +:+ rest) total 0
    = readAirtime rest (total + 60 * z) 0.
Proof. intros Hz. by rewrite !append_assoc', !readAirtime_pretty. Qed.

Lemma airtime_components n :
  0 ≤ n →
  0 ≤ n / 3600 ∧ 0 ≤ Z.rem n 3600 / 60 ∧ 0 ≤ Z.rem n 60
  ∧ 3600 * (n / 3600) + 60 * (Z.rem n 3600 / 60) + Z.rem n 60 = n.
Proof.
  intros Hn. rewrite !Z.rem_mod_nonneg by lia.
  pose proof (Z.mod_pos_bound n 3600 ltac:(lia)).
  pose proof (Z.mod_pos_bound n 60 ltac:(lia)).
  split_and!; try (apply Z.div_pos; lia); try lia.
  assert (H60 : n mod 60 = (n mod 3600) mod 60).
  { rewrite (Z.div_mod n 3600) at 1 by lia.
    replace (3600 * (n / 3600) + n mod 3600)
      with (n mod 3600 + (60 * (n / 3600)) * 60) by lia.
    apply Z.mod_add. lia. }
  rewrite H60.
  pose proof (Z.div_mod n 3600 ltac:(lia)).
  pose proof (Z.div_mod (n mod 3600) 60 ltac:(lia)).
  lia.
Qed.

Lemma readAirtime_parts n :
  0 ≤ n → readAirtime (join " " (airtimeParts n)) 0 0 = n.
Proof.
  intros Hn. destruct (airtime_components n Hn) as (Hh & Hm & Hs & Hsum).
  unfold airtimeParts.
  set (h := n / 3600) in *. set (m := Z.rem n 3600 / 60) in *.
  set (s := Z.rem n 60) in *.
  pose proof (λ total, proj1 (readAirtime_last h total Hh)) as Lh.
  pose proof (λ total, proj1 (proj2 (readAirtime_last m total Hm))) as Lm.
  pose proof (λ total, proj2 (proj2 (readAirtime_last s total Hs))) as Ls.
  pose proof (λ rest total, proj1 (readAirtime_then h rest total Hh)) as Th.
  pose proof (λ rest total, proj2 (readAirtime_then m rest total Hm)) as Tm.
  destruct (Z.ltb_spec 0 h), (Z.ltb_spec 0 m), (Z.ltb_spec 0 s); simpl;
    rewrite ?Th, ?Tm, ?Lh, ?Lm, ?Ls; lia.
Qed.

Lemma formatAirtime_number n :
  n ≠ 0 → n < 2 ^ 53 →
  formatAirtime (VNum n) = Ok (join " " (airtimeParts n)).
Proof.
  intros Hn0 Hn. unfold formatAirtime. simpl.
  destruct (Z.eqb_spec n 0) as [->|_]; [done|]. simpl.
  by rewrite (proj2 (Z.ltb_lt n (2 ^ 53)) Hn).
Qed.

(** X14. [formatAirtime] can be read back. For a whole number of seconds
    that is not negative and is below [2^53] it returns a text that is not
    empty, and reading the text back ([readAirtime]: digits, then [h], [m]
    or [s]) gives the number of seconds again; so two different airtimes
    of that range are never shown as the same text. An airtime that is
    absent or [0] is shown as [0s]. *)
Theorem formatAirtime_reads_back n n' :
  0 ≤ n < 2 ^ 53 →
  0 ≤ n' < 2 ^ 53 →
  (∃ text,
     formatAirtime (VNum n) = Ok text
     ∧ text ≠ ""
     ∧ readAirtime text 0 0 = n)
  ∧ (formatAirtime (VNum n) = formatAirtime (VNum n') → n = n')
  ∧ formatAirtime (VNum 0) = Ok "0s"
  ∧ formatAirtime VUndef = Ok "0s".
Proof.
  intros Hn Hn'.
  assert (Hread : ∀ k, 0 ≤ k < 2 ^ 53 →
            ∃ text, formatAirtime (VNum k) = Ok text
                    ∧ readAirtime text 0 0 = k).
  { intros k [Hk Hk']. destruct (Z.eq_dec k 0) as [->|Hk0]; [by eexists|].
    rewrite formatAirtime_number by done.
    eexists. split; [done|]. by apply readAirtime_parts. }
  split_and!; try done.
  - destruct (Hread n Hn) as (text & Htext & Hback).
    exists text. split_and!; try done.
    intros ->. destruct (Z.eq_dec n 0) as [->|Hn0]; [done|].
    simpl in Hback. lia.
  - intros Heq.
    destruct (Hread n Hn) as (text & Htext & Hback).
    destruct (Hread n' Hn') as (text' & Htext' & Hback').
    rewrite Htext, Htext' in Heq. injection Heq as ->. lia.
Qed.

Lemma formatAirtime_reads_back_witness :
  formatAirtime (VNum 3725) = Ok "1h 2m 5s"
  ∧ readAirtime "1h 2m 5s" 0 0 = 3725
  ∧ formatAirtime (VNum 3600) = Ok "1h".
Proof.
  destruct (formatAirtime_reads_back 3725 3600) as ((text & Htext & _ & Hback) & _);
    [done..|].
  assert (Ht : formatAirtime (VNum 3725) = Ok "1h 2m 5s") by (by vm_compute).
  rewrite Ht in Htext. injection Htext as <-.
  split_and!; [done | done | by vm_compute].
Defined.

(** X15. A negative number of seconds loses its hours and minutes:
    [formatAirtime] shows only the remainder of the division by 60, with its
    sign. *)
Theorem formatAirtime_negative n :
  n < 0 →
  formatAirtime (VNum n) = Ok (pretty (Z.rem n 60) +:+ "s").
Proof.
  intros Hn. rewrite formatAirtime_number by (by change (2 ^ 53) with 9007199254740992; lia).
  f_equal. unfold airtimeParts.
  assert (Hh : n / 3600 < 0) by (apply Z.div_lt_upper_bound; lia).
  assert (Hr : Z.rem n 3600 ≤ 0) by (apply Z.rem_nonpos; lia).
  assert (Hm : Z.rem n 3600 / 60 ≤ 0).
  { destruct (Z.eq_dec (Z.rem n 3600) 0) as [->|Hne]; [done|].
    assert (Z.rem n 3600 / 60 < 0) by (apply Z.div_lt_upper_bound; lia). lia. }
  assert (Hs : Z.rem n 60 ≤ 0) by (apply Z.rem_nonpos; lia).
  rewrite (proj2 (Z.ltb_ge 0 (n / 3600))) by lia.
  rewrite (proj2 (Z.ltb_ge 0 (Z.rem n 3600 / 60))) by lia.
  rewrite (proj2 (Z.ltb_ge 0 (Z.rem n 60))) by lia.
  done.
Qed.

Lemma formatAirtime_negative_witness :
  formatAirtime (VNum (-3700)) = Ok "-40s".
Proof.
  rewrite (formatAirtime_negative (-3700)) by lia. by vm_compute.
Defined.

(** ** The buttons and the position *)

Lemma set_currentIndex_same v i :
  set_currentIndex i v = v ↔ i = currentIndex v.
Proof.
  split.
  - intros Hv. by apply (f_equal currentIndex) in Hv.
  - intros ->. by destruct v.
Qed.

(** X16. The buttons tell what the navigation would do. On a viewer whose
    position is inside the view, each of the four navigation buttons is
    disabled by [updateNavigationButtons] exactly when its operation would
    leave the viewer as it is. *)
Theorem buttons_disabled_when_idle v :
  inView v →
  (prevBtn (updateNavigationButtons v) = true ↔ previous v = v)
  ∧ (firstBtn (updateNavigationButtons v) = true ↔ first v = v)
  ∧ (nextBtn (updateNavigationButtons v) = true ↔ next v = v)
  ∧ (lastBtn (updateNavigationButtons v) = true ↔ last v = v).
Proof.
  intros [Hlo Hhi]. unfold previous, first, next, last. simpl.
  rewrite Z.eqb_eq, Z.leb_le.
  split_and!.
  - destruct (Z.ltb_spec 0 (currentIndex v)); rewrite ?set_currentIndex_same;
      split; try done; lia.
  - rewrite set_currentIndex_same. split; lia.
  - destruct (Z.ltb_spec (currentIndex v) (len (filteredResults v) - 1));
      rewrite ?set_currentIndex_same; split; try done; lia.
  - rewrite set_currentIndex_same. split; lia.
Qed.

Lemma buttons_disabled_when_idle_witness :
  prevBtn (updateNavigationButtons sample_viewer) = true
  ∧ previous sample_viewer = sample_viewer
  ∧ nextBtn (updateNavigationButtons sample_viewer) = false.
Proof.
  destruct (buttons_disabled_when_idle sample_viewer) as (Hprev & _ & Hnext & _).
  - by vm_compute.
  - assert (Hp : prevBtn (updateNavigationButtons sample_viewer) = true)
      by (by vm_compute).
    split_and!; [done | by apply Hprev | by vm_compute].
Defined.

(** X17. [next] and [previous] undo each other: inside the view, [previous]
    after a [next] that moved, and [next] after a [previous] that moved,
    give the viewer back; and the two ends are stable, [next] after [last]
    and [previous] after [first] change nothing. *)
Theorem next_previous_undo v :
  inView v →
  (currentIndex v < len (filteredResults v) - 1 → previous (next v) = v)
  ∧ (0 < currentIndex v → next (previous v) = v)
  ∧ next (last v) = last v
  ∧ previous (first v) = first v.
Proof.
  intros [Hlo Hhi]. unfold previous, next, last, first. split_and!.
  - intros Hlt. apply Z.ltb_lt in Hlt as Hb. rewrite Hb. simpl.
    rewrite (proj2 (Z.ltb_lt 0 (currentIndex v + 1))) by lia.
    destruct v; unfold set_currentIndex; simpl in *. f_equal. lia.
  - intros Hgt. apply Z.ltb_lt in Hgt as Hb. rewrite Hb. simpl.
    rewrite (proj2 (Z.ltb_lt (currentIndex v - 1) (len (filteredResults v) - 1)))
      by lia.
    destruct v; unfold set_currentIndex; simpl in *. f_equal. lia.
  - simpl. by rewrite Z.ltb_irrefl.
  - done.
Qed.

Lemma next_previous_undo_witness :
  previous (next sample_viewer) = sample_viewer.
Proof.
  destruct (next_previous_undo sample_viewer) as (Hundo & _).
  - by vm_compute.
  - apply Hundo. by vm_compute.
Defined.

Lemma find_findIndex {A} (f : A → bool) (l : list A) :
  match List.find f l with
  | Some x => ∃ k : nat, findIndex f l = Z.of_nat k ∧ l !! k = Some x
  | None => findIndex f l = -1
  end.
Proof.
  induction l as [|a l IH]; simpl; [done|].
  destruct (f a); [by exists 0%nat|].
  destruct (List.find f l) as [x|].
  - destruct IH as (k & -> & Hk). exists (S k).
    destruct (Z.eqb_spec (Z.of_nat k) (-1)); [lia|]. split; [lia|done].
  - by rewrite IH.
Qed.

Lemma getCurrentResult_set v (k : nat) :
  getCurrentResult (set_currentIndex (Z.of_nat k) v) = filteredResults v !! k.
Proof.
  unfold getCurrentResult. simpl.
  rewrite (proj2 (Z.ltb_ge _ _)) by lia. by rewrite Nat2Z.id.
Qed.

(** X18. [jumpTo] and [getResult] find the same result. On a view that
    shows all the results of the parser, [jumpTo(index)] returns true
    exactly when the parser's [getResult(index)] finds a result, and the
    result the viewer then shows ([getCurrentResult]) is the one [getResult]
    returns: the first result with that index. When [getResult] finds
    nothing, [jumpTo] returns false. *)
Theorem jumpTo_agrees_with_getResult p v i :
  filteredResults v = JSONParser.results p →
  match getResult p i with
  | Some r =>
      (jumpTo v i).2 = true
      ∧ getCurrentResult (jumpTo v i).1 = Some r
      ∧ index r = VNum i
      ∧ r ∈ JSONParser.results p
  | None => jumpTo v i = (v, false)
  end.
Proof.
  intros Hview. unfold getResult.
  pose proof (find_findIndex (λ r, strict_eq (index r) (VNum i))
                (JSONParser.results p)) as Hfind.
  destruct (List.find _ _) as [r|] eqn:Hr.
  - destruct Hfind as (k & Hk & Hlook). rewrite <- Hview in Hk, Hlook.
    rewrite (jumpTo_found v i k Hk). simpl.
    rewrite getCurrentResult_set.
    apply find_some in Hr as [Hin Hidx].
    split_and!; [done | done | by apply index_is | by apply list_elem_of_In].
  - apply jumpTo_missing. by rewrite Hview.
Qed.

Lemma jumpTo_agrees_with_getResult_witness :
  getResult sample_parser 8 = Some bare_result
  ∧ getCurrentResult (jumpTo sample_viewer 8).1 = Some bare_result.
Proof.
  assert (Hg : getResult sample_parser 8 = Some bare_result) by (by vm_compute).
  pose proof (jumpTo_agrees_with_getResult sample_parser sample_viewer 8) as H.
  rewrite Hg in H. split; [done|].
  by destruct H as (_ & Hcur & _); [by vm_compute|].
Defined.

(** X19. The empty view. On a viewer whose filtered view is empty and whose
    position is [0], [getCurrentResult] is [undefined]; [next], [previous]
    and [first] leave the viewer as it is, but [last] moves the position
    to [-1]. From there, [next] and [previous] do not move, and
    [applyFilters] does not repair the position as long as the view stays
    empty; [first] sets it back to [0]. *)
Theorem empty_view_position p v :
  filteredResults v = [] →
  results v = [] →
  currentIndex v = 0 →
  filterResults p (filterCriteria v) = Ok [] →
  getCurrentResult v = None
  ∧ next v = v ∧ previous v = v ∧ first v = v
  ∧ currentIndex (last v) = -1
  ∧ getCurrentResult (last v) = None
  ∧ next (last v) = last v
  ∧ previous (last v) = last v
  ∧ currentIndex (applyFilters p (last v)).1 = -1
  ∧ first (last v) = v.
Proof.
  intros Hview Hrs Hci Hf.
  assert (Happ : currentIndex (applyFilters p (last v)).1 = -1).
  { rewrite (applyFilters_ok p (last v) []) by done. simpl.
    unfold shown. by rewrite Hrs, Hview. }
  revert Happ. unfold getCurrentResult, next, previous, first, last.
  rewrite Hview, Hci. simpl. intros Happ.
  split_and!; try done;
    destruct v; unfold set_currentIndex; simpl in *; by subst.
Qed.

Lemma empty_view_position_witness :
  currentIndex
    (last (loadResults JSONParser.constructor ScreenshotViewer.constructor []).1)
  = -1.
Proof.
  destruct (empty_view_position JSONParser.constructor
              (loadResults JSONParser.constructor ScreenshotViewer.constructor []).1)
    as (_ & _ & _ & _ & Hlast & _); by vm_compute.
Defined.

(** ** Changing the criteria *)

Lemma applyFilters_view p v :
  parser_inv p →
  applyFilters p v =
    ({| results := results v;
        filteredResults :=
          shown (List.filter (matches (filterCriteria v)) (JSONParser.results p))
            (results v);
        currentIndex :=
          if len (shown (List.filter (matches (filterCriteria v))
                           (JSONParser.results p)) (results v))
             <=? currentIndex v
          then 0 else currentIndex v;
        filterCriteria := filterCriteria v;
        showBoundingBoxes := showBoundingBoxes v |}, Ok VUndef).
Proof.
  intros Hp. by rewrite (applyFilters_ok p v _ (filterResults_ok p _ Hp)).
Qed.

Lemma matches_insert_other criteria name enabled r :
  name ∉ criteriaNames →
  matches (<[name := enabled]> criteria) r = matches criteria r.
Proof.
  intros Hname. unfold matches. rewrite !criterion_insert.
  rewrite !decide_False
    by (intros ->; apply Hname; unfold criteriaNames; repeat constructor).
  done.
Qed.

(** X20. [updateFilter] twice with the same name and value is [updateFilter]
    once: the second call changes nothing, position included. And a name
    that is none of the five criteria is stored but not used: the view is
    the one [applyFilters] gives without it. *)
Theorem updateFilter_idempotent p v filterName enabled :
  reachable p →
  updateFilter p (updateFilter p v filterName enabled).1 filterName enabled
  = updateFilter p v filterName enabled
  ∧ (filterName ∉ criteriaNames →
     filteredResults (updateFilter p v filterName enabled).1
     = filteredResults (applyFilters p v).1).
Proof.
  intros Hp%reachable_inv. unfold updateFilter.
  rewrite !applyFilters_view by done. simpl. split.
  - rewrite insert_insert_eq. f_equal.
    set (view := shown _ _). f_equal.
    destruct (Z.leb_spec (len view) (currentIndex v)) as [Hle|Hgt].
    + destruct (Z.leb_spec (len view) 0); done.
    + by rewrite (proj2 (Z.leb_gt _ _) Hgt).
  - intros Hname. f_equal. apply filter_bool_ext, Forall_forall.
    intros r _. by apply matches_insert_other.
Qed.

Lemma updateFilter_idempotent_witness :
  filteredResults
    (updateFilter sample_parser sample_viewer "highlight" (VBool true)).1
  = filteredResults (applyFilters sample_parser sample_viewer).1.
Proof.
  destruct (updateFilter_idempotent sample_parser sample_viewer "highlight"
              (VBool true)) as [_ Hother].
  - apply reachable_parse, reachable_new.
  - apply Hother. unfold criteriaNames.
    rewrite !not_elem_of_cons. split_and!; try done. apply not_elem_of_nil.
Defined.

(** ** preloadAdjacent *)

Lemma preloadCandidate_spec v i k :
  k ∈ preloadCandidate v i →
  truthy k = true
  ∧ i ≠ 0
  ∧ ∃ (j : nat) r s,
      Z.of_nat j = currentIndex v + i
      ∧ filteredResults v !! j = Some r
      ∧ screenshot r = Some s
      ∧ s3Key s = k.
Proof.
  unfold preloadCandidate.
  destruct (Z.leb_spec 0 (currentIndex v + i)) as [Hlo|]; simpl;
    [|by intros ?%elem_of_nil].
  destruct (Z.ltb_spec (currentIndex v + i) (len (filteredResults v)));
    simpl; [|by intros ?%elem_of_nil].
  destruct (Z.eqb_spec (currentIndex v + i) (currentIndex v)); simpl;
    [by intros ?%elem_of_nil|].
  destruct (filteredResults v !! Z.to_nat (currentIndex v + i)) as [r|] eqn:Hr;
    [|by intros ?%elem_of_nil].
  destruct (screenshot r) as [s|] eqn:Hs; simpl; [|by intros ?%elem_of_nil].
  destruct (truthy (s3Key s)) eqn:Hk; [|by intros ?%elem_of_nil].
  intros ->%list_elem_of_singleton.
  split; [done|]. split; [lia|].
  exists (Z.to_nat (currentIndex v + i)), r, s. split_and!; try done. lia.
Qed.

Lemma preloadCandidate_length v i : (length (preloadCandidate v i) ≤ 1)%nat.
Proof.
  unfold preloadCandidate.
  repeat (match goal with
          | |- context [if ?b then _ else _] => destruct b
          | |- context [match ?o with Some _ => _ | None => _ end] => destruct o
          end; simpl; try lia).
Qed.

(** X21. What [preloadAdjacent] asks the storage client to fetch: at most
    four keys, each the truthy [s3Key] of the screenshot of a filtered
    result that lies one position before the current one or up to three
    after it, never of the current one, and never of a position outside the
    view. *)
Theorem preloadAdjacent_neighbours v :
  (length (preloadAdjacent v) ≤ 4)%nat
  ∧ ∀ k, k ∈ preloadAdjacent v →
      truthy k = true
      ∧ ∃ (j : nat) r s,
          filteredResults v !! j = Some r
          ∧ screenshot r = Some s
          ∧ s3Key s = k
          ∧ Z.of_nat j ≠ currentIndex v
          ∧ currentIndex v - 1 ≤ Z.of_nat j ≤ currentIndex v + 3.
Proof.
  unfold preloadAdjacent. split.
  - simpl. rewrite !length_app. simpl.
    pose proof (preloadCandidate_length v (-1)).
    pose proof (preloadCandidate_length v 0).
    pose proof (preloadCandidate_length v 1).
    pose proof (preloadCandidate_length v 2).
    pose proof (preloadCandidate_length v 3).
    assert (Hcur : preloadCandidate v 0 = []).
    { unfold preloadCandidate. rewrite Z.add_0_r, Z.eqb_refl.
      by rewrite andb_false_r. }
    rewrite Hcur in *. simpl in *. lia.
  - intros k Hk. simpl in Hk. rewrite app_nil_r in Hk.
    rewrite !elem_of_app in Hk.
    destruct Hk as [Hk|[Hk|[Hk|[Hk|Hk]]]];
      apply preloadCandidate_spec in Hk
        as (Ht & Hi & j & r & s & Hj & Hr & Hs & Hkey);
      (split; [done|]); exists j, r, s; split_and!; try done; lia.
Qed.

Lemma preloadAdjacent_neighbours_witness :
  preloadAdjacent long_viewer = [VStr "shots/9.png"]
  ∧ ∃ (j : nat) r s,
      filteredResults long_viewer !! j = Some r
      ∧ screenshot r = Some s
      ∧ s3Key s = VStr "shots/9.png"
      ∧ Z.of_nat j ≠ currentIndex long_viewer.
Proof.
  assert (Hp : preloadAdjacent long_viewer = [VStr "shots/9.png"])
    by (by vm_compute).
  split; [done|].
  destruct (preloadAdjacent_neighbours long_viewer) as [_ Hkeys].
  destruct (Hkeys (VStr "shots/9.png")) as (_ & j & r & s & Hr & Hs & Hk & Hj & _).
  - rewrite Hp. apply list_elem_of_here.
  - exists j, r, s. split_and!; assumption.
Defined.

(** ** The page as a whole *)

Import Main.

Lemma shown_spec filtered all :
  shown filtered all = match filtered with [] => all | _ => filtered end.
Proof.
  unfold shown. destruct filtered as [|x filtered]; simpl.
  - destruct all as [|y all]; [done|].
    assert (Hpos : 0 < len (y :: all)) by (by apply len_pos).
    by rewrite (proj2 (Z.ltb_lt _ _) Hpos).
  - destruct (Z.eqb_spec (len (x :: filtered)) 0) as [H0|]; [|done].
    by apply len_nil_iff in H0.
Qed.

Lemma getDiscrepancyStats_returns p :
  parser_inv p → returns (getDiscrepancyStats p).
Proof.
  intros [Hall _]. unfold getDiscrepancyStats.
  edestruct (foldM_countFlags (JSONParser.results p)) as (stats & -> & _); [done|].
  by eexists.
Qed.

Lemma validateAndParse_results_kept p data :
  (validateAndParse p data).2 ≠ Ok () →
  JSONParser.results (validateAndParse p data).1 = JSONParser.results p.
Proof.
  unfold validateAndParse.
  destruct (validateAndMetadata data) as [[metadata raw]| |]; [|done..].
  by destruct (mapM parseResult raw).
Qed.

Lemma loadResults_view p v rs :
  parser_inv p →
  loadResults p v rs =
    ({| results := rs;
        filteredResults :=
          shown (List.filter (matches (filterCriteria v)) (JSONParser.results p)) rs;
        currentIndex := 0;
        filterCriteria := filterCriteria v;
        showBoundingBoxes := showBoundingBoxes v |}, Ok VUndef).
Proof.
  intros Hp. unfold loadResults. by rewrite applyFilters_view.
Qed.

Lemma step_keeps_view p v o :
  (∀ filterName enabled, o ≠ UpdateFilter filterName enabled) →
  o ≠ ClearFilters →
  results (step p v o) = results v
  ∧ filteredResults (step p v o) = filteredResults v
  ∧ filterCriteria (step p v o) = filterCriteria v.
Proof.
  intros Hu Hc. destruct o as [n e| | | | | |i]; simpl; try done.
  - by destruct (Hu n e).
  - unfold next. by destruct (_ <? _).
  - unfold previous. by destruct (_ <? _).
  - unfold jumpTo. by destruct (negb _).
Qed.

(** *** What the page writes *)

Lemma convertible_js_or a b :
  convertible b = true → convertible (js_or a b) = convertible a.
Proof.
  intros Hb. unfold js_or. destruct (truthy a) eqn:Ha; [done|].
  rewrite Hb. by destruct a.
Qed.

Lemma timelineTitle_writable r :
  timelineTitle r = if titleWritable r then Ok () else Throw conversion_error.
Proof.
  unfold timelineTitle, titleWritable.
  rewrite !converts_convertible, convertible_js_or by done.
  destruct (convertible (index r)); simpl; [|done].
  destruct (screenshot r) as [s|]; [|done]. by destruct (convertible (timestamp s)).
Qed.

Lemma timelineItems_spec rs : ∀ i,
  timelineItems rs i =
    (map (λ k, i + Z.of_nat k) (seq 0 (titledPrefix rs)),
     if forallb titleWritable rs then Ok VUndef else Throw conversion_error).
Proof.
  induction rs as [|r rs IH]; intros i; simpl; [done|].
  rewrite timelineTitle_writable. destruct (titleWritable r); simpl; [|done].
  rewrite IH. simpl. f_equal. f_equal; [f_equal; lia|].
  rewrite <- seq_shift, map_map. apply map_ext. intros k. lia.
Qed.

Lemma renderTimeline_spec v :
  renderTimeline v =
    (map Z.of_nat (seq 0 (titledPrefix (filteredResults v))),
     if forallb titleWritable (filteredResults v)
     then Ok VUndef else Throw conversion_error).
Proof. unfold renderTimeline. by rewrite timelineItems_spec. Qed.

Lemma titledPrefix_le rs : (titledPrefix rs ≤ length rs)%nat.
Proof.
  induction rs as [|r rs IH]; simpl; [done|]. destruct (titleWritable r); lia.
Qed.

Lemma titledPrefix_all rs :
  forallb titleWritable rs = true → titledPrefix rs = length rs.
Proof.
  induction rs as [|r rs IH]; simpl; [done|].
  destruct (titleWritable r); simpl; [|done]. intros H. by rewrite IH.
Qed.

Lemma renderTimeline_range v :
  Forall (λ i, 0 ≤ i < len (filteredResults v)) (renderTimeline v).1.
Proof.
  rewrite renderTimeline_spec. simpl. apply Forall_forall. intros i Hi.
  apply list_elem_of_fmap in Hi as (k & -> & Hk).
  apply elem_of_seq in Hk. pose proof (titledPrefix_le (filteredResults v)).
  unfold len. lia.
Qed.

Lemma rendered_ok before v :
  rendered before (v, Ok VUndef) = (v, (renderTimeline v).1, (renderTimeline v).2).
Proof. unfold rendered. by destruct (renderTimeline v). Qed.

(** The session information of a parsed document is shown exactly when
    its six fields can be converted. *)
Lemma displaySessionInfo_writable q data p :
  validateAndParse q data = (p, Ok ()) →
  parser_inv p →
  displaySessionInfo p (sessionMetadata p)
  = if sessionWritable data then Ok () else Throw conversion_error.
Proof.
  intros (metadata & raw & Hmeta & _ & -> & _)%validateAndParse_results Hp.
  apply validateAndMetadata_inv in Hmeta as (Hid & _ & ->).
  destruct (getDiscrepancyStats_returns p Hp) as [stats Hstats].
  unfold displaySessionInfo, sessionWritable, sessionFields. simpl.
  rewrite Hstats, !converts_convertible, !convertible_js_or by done.
  assert (Htime : showTimestamp (js_or (prop data "analyzed_at") VNull)
                  = if convertible (prop data "analyzed_at")
                    then Ok () else Throw conversion_error).
  { unfold showTimestamp, js_or.
    destruct (truthy (prop data "analyzed_at")) eqn:Ht; simpl.
    - by rewrite Ht, converts_convertible.
    - by destruct (prop data "analyzed_at"). }
  rewrite Htime.
  by destruct (convertible (prop data "platform")),
    (convertible (prop data "channel")), (convertible (prop data "date")),
    (convertible (prop data "session_id")), (convertible (prop data "total")),
    (convertible (prop data "analyzed_at")).
Qed.

(** *** What holds in every state of the page *)

Lemma moved_app_inv app v :
  app_inv app →
  filteredResults v = filteredResults (viewer app) →
  app_inv (moved app v).
Proof. intros [Hp Htl] Hf. split; [done|]. simpl. by rewrite Hf. Qed.

Lemma refiltered_spec app v :
  refiltered app (v, Ok VUndef) =
    {| parser := parser app; viewer := v;
       timeline := (renderTimeline v).1; jsonLoaded := jsonLoaded app |}.
Proof. unfold refiltered. rewrite rendered_ok. done. Qed.

Lemma refiltered_app_inv app criteria :
  app_inv app →
  app_inv (refiltered app
             (applyFilters (parser app) (set_filterCriteria criteria (viewer app)))).
Proof.
  intros [Hp Htl]. rewrite applyFilters_view, refiltered_spec by done.
  split; [done|]. apply renderTimeline_range.
Qed.

(** What a load does, past the parse. *)
Lemma loadAnalysis_parsed app data p :
  parser_inv (parser app) →
  validateAndParse (parser app) data = (p, Ok ()) →
  let v := (loadResults p (viewer app) (JSONParser.results p)).1 in
  loadAnalysis app (Some data) =
    if sessionWritable data then
      {| parser := p; viewer := v;
         timeline := map Z.of_nat (seq 0 (titledPrefix (filteredResults v)));
         jsonLoaded := forallb titleWritable (filteredResults v) |}
    else
      {| parser := p; viewer := viewer app; timeline := timeline app;
         jsonLoaded := false |}.
Proof.
  intros Hp Hparse. simpl.
  pose proof (validateAndParse_inv (parser app) data Hp) as Hp'.
  rewrite Hparse in Hp'. simpl in Hp'.
  unfold loadAnalysis. rewrite Hparse.
  rewrite (displaySessionInfo_writable _ _ _ Hparse Hp').
  destruct (sessionWritable data); [|done].
  rewrite loadResults_view by done. rewrite rendered_ok, renderTimeline_spec.
  simpl. by destruct (forallb titleWritable _).
Qed.

Lemma loadAnalysis_not_parsed app data :
  (validateAndParse (parser app) data).2 ≠ Ok () →
  loadAnalysis app (Some data) =
    {| parser := (validateAndParse (parser app) data).1;
       viewer := viewer app; timeline := timeline app; jsonLoaded := false |}.
Proof.
  unfold loadAnalysis.
  destruct (validateAndParse (parser app) data) as [p [[]| |]]; done.
Qed.

Lemma handle_app_inv app e : app_inv app → app_inv (handle app e).
Proof.
  intros Happ. pose proof Happ as [Hp Htl].
  destruct e as [data|o|k|n|checked|]; simpl.
  - destruct data as [data|]; [|done].
    pose proof (validateAndParse_inv (parser app) data Hp) as Hp'.
    destruct (validateAndParse (parser app) data) as [p o] eqn:Hparse.
    simpl in Hp'.
    assert (Ho : o = Ok () ∨ o ≠ Ok ())
      by (destruct o as [[]| |]; [by left | by right..]).
    destruct Ho as [->|Ho].
    + rewrite (loadAnalysis_parsed app data p Hp Hparse).
      destruct (sessionWritable data); [|done].
      split; [done|]. simpl.
      pose proof (renderTimeline_range
                    (loadResults p (viewer app) (JSONParser.results p)).1) as Hr.
      by rewrite renderTimeline_spec in Hr.
    + rewrite loadAnalysis_not_parsed by by rewrite Hparse.
      rewrite Hparse. done.
  - destruct o as [filterName enabled| | | | | |i];
      [by apply refiltered_app_inv..|idtac|idtac|idtac|idtac|idtac];
      apply moved_app_inv; try done; by apply step_keeps_view.
  - destruct (jsonLoaded app); [|done].
    destruct k as [| | | |checked]; apply moved_app_inv; try done.
    + by apply (step_keeps_view (parser app) (viewer app) Previous).
    + by apply (step_keeps_view (parser app) (viewer app) Next).
  - destruct (timeline app !! n) as [i|] eqn:Hi; [|done].
    by apply moved_app_inv.
  - by apply moved_app_inv.
  - split; [done|]. simpl. apply renderTimeline_range.
Qed.

Lemma init_app_inv : app_inv init.
Proof. split; [|by constructor]. by split; [constructor|]. Qed.

Lemma handleAll_app_inv events : ∀ app, app_inv app → app_inv (handleAll app events).
Proof.
  induction events as [|e events IH]; intros app Happ; simpl; [done|].
  by apply IH, handle_app_inv.
Qed.

(** *** The viewer in step with the parser *)

Lemma moved_in_step app v :
  in_step app →
  results v = results (viewer app) →
  filteredResults v = filteredResults (viewer app) →
  filterCriteria v = filterCriteria (viewer app) →
  (JSONParser.results (parser app) ≠ [] → inView v) →
  in_step (moved app v).
Proof.
  intros (Hrs & Hview & _) Hr Hf Hc Hin.
  unfold in_step, moved. simpl. by rewrite Hr, Hf, Hc.
Qed.

Lemma in_step_viewer_inv app :
  in_step app →
  JSONParser.results (parser app) ≠ [] →
  viewer_inv (viewer app).
Proof.
  intros (Hrs & _ & Hin) Hne. specialize (Hin Hne).
  split; [by rewrite Hrs|]. split; [|done].
  intros Hnil. unfold inView in Hin. rewrite Hnil in Hin. unfold len in Hin.
  simpl in Hin. lia.
Qed.

Lemma step_inView app o :
  app_inv app →
  in_step app →
  JSONParser.results (parser app) ≠ [] →
  inView (step (parser app) (viewer app) o).
Proof.
  intros [Hp _] Hstep Hne.
  destruct (step_inv (parser app) (viewer app) o) as (_ & _ & Hin).
  - done.
  - by apply in_step_viewer_inv.
  - exact Hin.
Qed.

Lemma step_moved_in_step app o :
  (∀ filterName enabled, o ≠ UpdateFilter filterName enabled) →
  o ≠ ClearFilters →
  app_inv app →
  in_step app →
  in_step (moved app (step (parser app) (viewer app) o)).
Proof.
  intros Hu Hc Happ Hstep.
  destruct (step_keeps_view (parser app) (viewer app) o Hu Hc) as (Hr & Hf & Hk).
  apply moved_in_step; try done. intros Hne. by apply step_inView.
Qed.

Lemma loaded_in_step p v timeline' loaded :
  parser_inv p →
  in_step {| parser := p;
             viewer := (loadResults p v (JSONParser.results p)).1;
             timeline := timeline'; jsonLoaded := loaded |}.
Proof.
  intros Hp. rewrite loadResults_view by done. unfold in_step. simpl.
  split_and!; try done.
  intros Hne. unfold inView. simpl.
  pose proof (shown_nonempty
                (List.filter (matches (filterCriteria v)) (JSONParser.results p))
                _ Hne) as Hshown.
  apply len_pos in Hshown. lia.
Qed.

Lemma refiltered_in_step app criteria :
  app_inv app →
  in_step app →
  in_step (refiltered app
             (applyFilters (parser app) (set_filterCriteria criteria (viewer app)))).
Proof.
  intros [Hp _] (Hrs & Hview & Hin).
  rewrite applyFilters_view, refiltered_spec by done.
  unfold in_step. simpl. rewrite Hrs. split_and!; try done.
  intros Hne.
  pose proof (shown_nonempty
                (List.filter (matches criteria) (JSONParser.results (parser app)))
                _ Hne) as Hshown.
  apply len_pos in Hshown. specialize (Hin Hne). destruct Hin as [Hlo _].
  unfold inView. simpl.
  destruct (Z.leb_spec
              (len (shown (List.filter (matches criteria)
                             (JSONParser.results (parser app)))
                      (JSONParser.results (parser app))))
              (currentIndex (viewer app))); lia.
Qed.

Lemma handle_in_step app e :
  app_inv app → in_step app → clean e → in_step (handle app e).
Proof.
  intros Happ Hstep Hclean. pose proof Happ as [Hp Htl].
  destruct e as [data|o|k|n|checked|]; simpl.
  - destruct data as [data|]; [|done]. simpl in Hclean.
    pose proof (validateAndParse_inv (parser app) data Hp) as Hp'.
    pose proof (validateAndParse_results_kept (parser app) data) as Hkept.
    destruct (validateAndParse (parser app) data) as [p o] eqn:Hparse.
    simpl in Hp', Hkept.
    assert (Ho : o = Ok () ∨ o ≠ Ok ())
      by (destruct o as [[]| |]; [by left | by right..]).
    destruct Ho as [->|Ho].
    + rewrite (loadAnalysis_parsed app data p Hp Hparse), Hclean.
      by apply loaded_in_step.
    + rewrite loadAnalysis_not_parsed by by rewrite Hparse.
      rewrite Hparse. simpl. destruct Hstep as (Hrs & Hview & Hin).
      unfold in_step. simpl. by rewrite (Hkept Ho).
  - destruct o as [filterName enabled| | | | | |i];
      [by apply refiltered_in_step..|idtac|idtac|idtac|idtac|idtac];
      by apply step_moved_in_step.
  - destruct (jsonLoaded app); [|done].
    destruct k as [| | | |checked].
    + by apply (step_moved_in_step app Previous).
    + by apply (step_moved_in_step app Next).
    + by apply (step_moved_in_step app First).
    + by apply (step_moved_in_step app Last).
    + apply moved_in_step; try done. by destruct Hstep as (_ & _ & Hin).
  - destruct (timeline app !! n) as [i|] eqn:Hi; [|done].
    apply moved_in_step; try done. intros _.
    rewrite Forall_forall in Htl. apply (Htl i).
    by apply list_elem_of_lookup_2 in Hi.
  - apply moved_in_step; try done. by destruct Hstep as (_ & _ & Hin).
  - done.
Qed.

Lemma init_in_step : in_step init.
Proof. by split_and!. Qed.

Lemma handleAll_in_step events : ∀ app,
  app_inv app → in_step app → Forall clean events →
  in_step (handleAll app events).
Proof.
  induction events as [|e events IH]; intros app Happ Hstep Hclean; simpl;
    [done|].
  apply Forall_cons in Hclean as [He Hclean].
  apply IH; [by apply handle_app_inv | by apply handle_in_step | done].
Qed.

(** X22. What the page shows is what the check boxes say, as long as no
    load stops at the session information. After any sequence of events
    (loads that succeed or fail, buttons, keys, clicks on the timeline) in
    which every document loaded has session information that can be
    written to the page, the viewer holds the results of the parser, and
    its filtered view is what [filterResults] returns for the current
    criteria, or all the results when that is empty. *)
Theorem view_follows_criteria events :
  Forall clean events →
  let app := handleAll init events in
  results (viewer app) = JSONParser.results (parser app)
  ∧ ∃ filtered,
      filterResults (parser app) (filterCriteria (viewer app)) = Ok filtered
      ∧ filteredResults (viewer app)
        = match filtered with
          | [] => JSONParser.results (parser app)
          | _ => filtered
          end.
Proof.
  intros Hclean app.
  destruct (handleAll_app_inv events init init_app_inv) as [Hp _].
  destruct (handleAll_in_step events init init_app_inv init_in_step Hclean)
    as (Hrs & Hview & _).
  split; [done|]. eexists. split; [by apply filterResults_ok|].
  fold app in Hview. by rewrite Hview, shown_spec.
Qed.

Lemma view_follows_criteria_witness :
  let app :=
    handleAll init [Load (Some sample_document);
                    Button (UpdateFilter "missingInDb" (VBool true))] in
  results (viewer app) = [sample_result; bare_result]
  ∧ filteredResults (viewer app) = [sample_result].
Proof.
  intros app.
  destruct (view_follows_criteria
              [Load (Some sample_document);
               Button (UpdateFilter "missingInDb" (VBool true))])
    as (Hrs & filtered & Hf & Hview).
  - repeat constructor.
  - fold app in Hrs, Hf, Hview.
    assert (Hp : JSONParser.results (parser app) = [sample_result; bare_result])
      by (by vm_compute).
    assert (Hfiltered : filterResults (parser app) (filterCriteria (viewer app))
                        = Ok [sample_result]) by (by vm_compute).
    rewrite Hfiltered in Hf. injection Hf as <-.
    rewrite Hrs, Hview, Hp. split; reflexivity.
Defined.

(** X23. Whenever the session has results, the position is inside the view
    and [getCurrentResult] returns one of the results of the session,
    after any sequence of events (loads, buttons, keys and clicks on
    timeline items) in which every document loaded has session
    information that can be written to the page. *)
Theorem current_result_of_session events :
  Forall clean events →
  let app := handleAll init events in
  JSONParser.results (parser app) ≠ [] →
  0 ≤ currentIndex (viewer app) < len (filteredResults (viewer app))
  ∧ ∃ r, getCurrentResult (viewer app) = Some r
         ∧ r ∈ JSONParser.results (parser app).
Proof.
  intros Hclean app Hne.
  destruct (handleAll_in_step events init init_app_inv init_in_step Hclean)
    as (Hrs & Hview & Hin).
  fold app in Hrs, Hview, Hin. specialize (Hin Hne). split; [done|].
  destruct Hin as [Hlo Hhi]. unfold getCurrentResult.
  rewrite (proj2 (Z.ltb_ge _ _)) by lia.
  destruct (lookup_lt_is_Some_2 (filteredResults (viewer app))
              (Z.to_nat (currentIndex (viewer app)))) as [r Hr].
  { unfold len in Hhi. lia. }
  exists r. split; [done|].
  apply list_elem_of_lookup_2 in Hr. rewrite Hview, shown_spec in Hr.
  destruct (List.filter _ _) eqn:Hf; [done|].
  rewrite <- Hf in Hr. by apply elem_of_filter_bool in Hr as [? _].
Qed.

Lemma current_result_of_session_witness :
  getCurrentResult long_viewer = Some bare_result.
Proof.
  destruct (current_result_of_session
              [Load (Some long_document); Key ArrowRight])
    as (_ & r & Hr & _).
  - repeat constructor.
  - by vm_compute.
  - assert (Hc : getCurrentResult long_viewer = Some bare_result)
      by (by vm_compute).
    done.
Defined.

(** X24. [clearFilters] brings the whole session back: after any sequence
    of events in which every document loaded has session information that
    can be written to the page, the clear button leaves a view that is all
    the results of the parser, in their order, and a criteria object with
    the five criteria false. *)
Theorem clearFilters_shows_all events :
  Forall clean events →
  let app := handle (handleAll init events) (Button ClearFilters) in
  filteredResults (viewer app) = JSONParser.results (parser app)
  ∧ filterCriteria (viewer app) = noCriteria.
Proof.
  intros Hclean app.
  destruct (handleAll_app_inv events init init_app_inv) as [Hp _].
  destruct (handleAll_in_step events init init_app_inv init_in_step Hclean)
    as (Hrs & _).
  unfold app. simpl. unfold clearFilters.
  rewrite applyFilters_view, refiltered_spec by done. simpl. split; [|done].
  rewrite Hrs, shown_spec.
  rewrite filter_bool_all; [by destruct (JSONParser.results _)|].
  apply Forall_forall. intros r _. apply matches_noCriteria.
Qed.

Lemma clearFilters_shows_all_witness :
  let app :=
    handle (handleAll init [Load (Some sample_document);
                            Button (UpdateFilter "missingInDb" (VBool true))])
      (Button ClearFilters) in
  filteredResults (viewer app) = [sample_result; bare_result].
Proof.
  intros app.
  destruct (clearFilters_shows_all
              [Load (Some sample_document);
               Button (UpdateFilter "missingInDb" (VBool true))])
    as [Hview _].
  - repeat constructor.
  - fold app in Hview. rewrite Hview. by vm_compute.
Defined.

(** X25. Where a load stops decides what it leaves. A load of a file that
    cannot be read, or of a document that does not parse, leaves the
    viewer, the timeline and the results of the parser as they were. A
    document that parses replaces the parser; when its session information
    cannot be written the load stops there, with the viewer and the
    timeline as they were, on the results of the document before. When it
    can, the viewer is loaded with the results of the document, at
    position [0]; the timeline gets the items of the results at the head
    of the view whose titles can be written, and [jsonLoaded] ends true
    exactly when that is all of them. *)
Theorem load_stops_where_it_fails events data :
  let app := handleAll init events in
  let app' := handle app (Load data) in
  (match data with
   | None => True
   | Some document => (validateAndParse (parser app) document).2 ≠ Ok ()
   end →
   jsonLoaded app' = false
   ∧ viewer app' = viewer app
   ∧ timeline app' = timeline app
   ∧ JSONParser.results (parser app') = JSONParser.results (parser app))
  ∧ (∀ document p,
       data = Some document →
       validateAndParse (parser app) document = (p, Ok ()) →
       parser app' = p
       ∧ (sessionWritable document = false →
          jsonLoaded app' = false
          ∧ viewer app' = viewer app
          ∧ timeline app' = timeline app)
       ∧ (sessionWritable document = true →
          results (viewer app') = JSONParser.results p
          ∧ filteredResults (viewer app')
            = shown (List.filter (matches (filterCriteria (viewer app)))
                       (JSONParser.results p))
                (JSONParser.results p)
          ∧ currentIndex (viewer app') = 0
          ∧ timeline app'
            = map Z.of_nat (seq 0 (titledPrefix (filteredResults (viewer app'))))
          ∧ jsonLoaded app'
            = forallb titleWritable (filteredResults (viewer app')))).
Proof.
  intros app app'.
  destruct (handleAll_app_inv events init init_app_inv) as [Hp _].
  fold app in Hp. unfold app'. simpl. split.
  - destruct data as [document|]; [|done]. intros Hfail.
    rewrite loadAnalysis_not_parsed by done. simpl. split_and!; try done.
    by apply validateAndParse_results_kept.
  - intros document p -> Hparse.
    rewrite (loadAnalysis_parsed app document p Hp Hparse).
    pose proof (validateAndParse_inv (parser app) document Hp) as Hp'.
    rewrite Hparse in Hp'. simpl in Hp'.
    destruct (sessionWritable document); (split; [done|]); split; try done.
    intros _. by rewrite loadResults_view.
Qed.

Lemma load_stops_where_it_fails_witness :
  let app := handleAll init [Load (Some sample_document)] in
  let app' := handle app (Load (Some unwritable_document)) in
  let app'' := handle app (Load (Some untitled_document)) in
  JSONParser.results (parser app') = [bare_result]
  ∧ results (viewer app') = [sample_result; bare_result]
  ∧ jsonLoaded app' = false
  ∧ results (viewer app'') = [bare_result; untitled_result]
  ∧ timeline app'' = [0]
  ∧ jsonLoaded app'' = false.
Proof.
  intros app app' app''.
  destruct (load_stops_where_it_fails [Load (Some sample_document)]
              (Some unwritable_document)) as [_ Hparsed].
  destruct (Hparsed unwritable_document
              (validateAndParse (parser app) unwritable_document).1)
    as (Hp & Hstop & _); [done | by vm_compute |].
  destruct Hstop as (Hloaded & Hviewer & _); [by vm_compute|].
  destruct (load_stops_where_it_fails [Load (Some sample_document)]
              (Some untitled_document)) as [_ Hparsed'].
  destruct (Hparsed' untitled_document
              (validateAndParse (parser app) untitled_document).1)
    as (Hp' & _ & Hgoes); [done | by vm_compute |].
  destruct Hgoes as (Hrs & Hview & _ & Htl & Hloaded'); [by vm_compute|].
  fold app in Hp, Hloaded, Hviewer, Hp', Hrs, Hview, Htl, Hloaded'.
  fold app' in Hp, Hloaded, Hviewer. fold app'' in Hp', Hrs, Hview, Htl, Hloaded'.
  split_and!.
  - rewrite Hp. by vm_compute.
  - rewrite Hviewer. by vm_compute.
  - done.
  - rewrite Hrs. by vm_compute.
  - rewrite Htl, Hview. by vm_compute.
  - rewrite Hloaded', Hview. by vm_compute.
Defined.

(** ** exportAsCSV *)

Lemma mapM_pure {A B} (f : A → outcome B) (g : A → B) l :
  Forall (λ x, f x = Ok (g x)) l → mapM f l = Ok (map g l).
Proof.
  induction 1 as [|x l Hx _ IH]; simpl; [done|]. by rewrite Hx, IH.
Qed.

Lemma csvRow_cells r :
  truthy (discrepancyFlags r) = true → csvRow r = Ok (csvCells r).
Proof.
  intros Hr. unfold csvRow, csvCells. rewrite !get_truthy by done. simpl.
  by rewrite js_or_num.
Qed.

Lemma join_cell_convertible v :
  (convertible v = true → ∀ e, join_cell v ≠ Throw e)
  ∧ (convertible v = false → join_cell v = Throw conversion_error).
Proof.
  unfold join_cell. destruct (to_string_convertible v) as [Hyes Hno]. split.
  - intros Hv e. destruct (nullish v); [done|]. by apply Hyes.
  - intros Hv. rewrite (Hno Hv). by destruct v.
Qed.

Lemma join_cell_printable v : printable v = true → returns (join_cell v).
Proof.
  intros Hv. unfold join_cell. destruct (nullish v); [by eexists|].
  by apply to_string_printable.
Qed.

(** The conversions of a list of cells: all return when the cells are
    printable, and one throws when a cell cannot be converted. *)
Lemma collect_printable {A B} (f : A → outcome B) cells :
  Forall (λ v, returns (f v)) cells →
  ∃ texts, collect (map f cells) = Ok texts
           ∧ Forall2 (λ v text, f v = Ok text) cells texts.
Proof.
  induction 1 as [|v cells [text Hv] _ (texts & IH & Htexts)]; simpl.
  - exists []. by split; [|constructor].
  - exists (text :: texts). rewrite Hv, IH. by split; [|constructor].
Qed.

Lemma array_join_printable sep cells :
  forallb printable cells = true →
  ∃ texts, array_join sep cells = Ok (join sep texts)
           ∧ Forall2 (λ v text, join_cell v = Ok text) cells texts.
Proof.
  intros Hall. rewrite forallb_forall in Hall.
  destruct (collect_printable join_cell cells) as (texts & Hc & Htexts).
  { apply Forall_forall. intros v Hv%list_elem_of_In.
    by apply join_cell_printable, Hall. }
  exists texts. unfold array_join. by rewrite Hc.
Qed.

Lemma array_join_throws sep cells :
  forallb convertible cells = false →
  array_join sep cells = Throw conversion_error.
Proof.
  intros (v & Hv & Hcv)%forallb_false. unfold array_join.
  assert (Hmsg : Forall (λ o, ∀ e, o = Throw e → e = conversion_error)
            (map join_cell cells)).
  { apply Forall_map, Forall_forall. intros x _ e He.
    destruct (join_cell_convertible x) as [Hyes Hno].
    destruct (convertible x).
    - by destruct (Hyes eq_refl e).
    - rewrite (Hno eq_refl) in He. by injection He. }
  destruct (collect_throws _ _ Hmsg) as [Hthrow _].
  rewrite Hthrow; [done|]. apply Exists_map, Exists_exists.
  exists v. split; [done|]. by apply join_cell_convertible.
Qed.

Lemma array_join_not_throws sep cells e :
  forallb convertible cells = true → array_join sep cells ≠ Throw e.
Proof.
  intros Hall. rewrite forallb_forall in Hall. unfold array_join.
  assert (Hmsg : Forall (λ o, ∀ e, o = Throw e → e = conversion_error)
            (map join_cell cells)).
  { apply Forall_map, Forall_forall. intros x _ e' He.
    destruct (join_cell_convertible x) as [Hyes Hno].
    destruct (convertible x).
    - by destruct (Hyes eq_refl e').
    - rewrite (Hno eq_refl) in He. by injection He. }
  destruct (collect_throws _ _ Hmsg) as [_ Hnot].
  destruct (collect _) as [texts|e'|] eqn:Hc; [done| |done].
  destruct (Hnot) with e'; [|done].
  apply Forall_map, Forall_forall. intros x Hx%list_elem_of_In.
  apply join_cell_convertible. by apply Hall.
Qed.

(** X26. What [exportAsCSV] returns, and when. In every state the parser
    can reach, when the cells of every result are printable (no object
    with an own [toString] property, numbers in the range that is printed
    in decimal) [exportAsCSV] returns the header line and one line per
    result, in the order of the results, joined by line feeds. The line of
    a result is nine texts joined by commas: the first is the text of its
    [index], the fifth the number of its database sessions, and the last
    four are [YES] or [NO] as its four flags are set or not. When a cell of
    some result cannot be converted to a string, [exportAsCSV] throws a
    TypeError. *)
Theorem exportAsCSV_rows p :
  reachable p →
  (Forall (λ r, forallb printable (csvCells r) = true) (JSONParser.results p) →
   ∃ lines,
     exportAsCSV p = Ok (join newline (join "," csvHeaders :: lines))
     ∧ length lines = length (JSONParser.results p)
     ∧ ∀ (i : nat) r,
         JSONParser.results p !! i = Some r →
         ∃ texts,
           lines !! i = Some (join "," texts)
           ∧ length texts = length csvHeaders
           ∧ (∃ text, texts !! 0%nat = Some text ∧ join_cell (index r) = Ok text)
           ∧ texts !! 4%nat = Some (pretty (len (dbSessions r)))
           ∧ texts !! 5%nat
             = Some (if flagSet "ml_vs_postprocessing" r then "YES" else "NO")
           ∧ texts !! 6%nat
             = Some (if flagSet "postprocessing_vs_db" r then "YES" else "NO")
           ∧ texts !! 7%nat
             = Some (if flagSet "missing_in_db" r then "YES" else "NO")
           ∧ texts !! 8%nat
             = Some (if flagSet "extra_in_db" r then "YES" else "NO"))
  ∧ (Exists (λ r, forallb convertible (csvCells r) = false) (JSONParser.results p) →
     exportAsCSV p = Throw conversion_error).
Proof.
  intros [Hall _]%reachable_inv.
  assert (Hrows : mapM csvRow (JSONParser.results p)
                  = Ok (map csvCells (JSONParser.results p))).
  { apply mapM_pure. eapply Forall_impl; [done|].
    intros r [Hr _]. by apply csvRow_cells. }
  unfold exportAsCSV. rewrite Hrows. cbn [mbind outcome_bind].
  rewrite map_map. split.
  - intros Hprint.
    destruct (collect_printable (λ r, csvLine (csvCells r)) (JSONParser.results p))
      as (lines & -> & Hlines).
    { eapply Forall_impl; [done|]. intros r Hr.
      destruct (array_join_printable "," (csvCells r) Hr) as (texts & Ht & _).
      by eexists. }
    exists lines. split; [done|]. split.
    { symmetry. by eapply Forall2_length. }
    intros i r Hr.
    destruct (Forall2_lookup_l _ _ _ i r Hlines Hr) as (line & Hline & Hjoin).
    rewrite Forall_forall in Hprint.
    destruct (array_join_printable "," (csvCells r)) as (texts & Ht & Htexts).
    { apply Hprint. by eapply list_elem_of_lookup_2. }
    unfold csvLine in Hjoin. rewrite Ht in Hjoin. injection Hjoin as <-.
    exists texts. split; [done|].
    unfold csvCells in Htexts.
    repeat match goal with
           | H : Forall2 _ (_ :: _) _ |- _ =>
               apply Forall2_cons_inv_l in H as (? & ? & ? & H & ->)
           | H : Forall2 _ [] _ |- _ => apply Forall2_nil_inv_l in H as ->
           end.
    split; [done|]. split; [by eexists|].
    unfold yesNo, flagSet in *. simpl in *.
    pose proof (Hprint r ltac:(by eapply list_elem_of_lookup_2)) as Hr'.
    unfold csvCells in Hr'. simpl in Hr'.
    repeat match goal with
           | H : join_cell (VStr _) = Ok _ |- _ => injection H as <-
           end.
    match goal with
    | H : join_cell (VNum (len (dbSessions r))) = Ok _ |- _ =>
        unfold join_cell in H; simpl in H;
        destruct (safe (len (dbSessions r))); [injection H as <-|done]
    end.
    by split_and!.
  - intros (r & Hr & Hcells)%Exists_exists.
    assert (Hmsg : Forall (λ o, ∀ e, o = Throw e → e = conversion_error)
              (map (λ r, csvLine (csvCells r)) (JSONParser.results p))).
    { apply Forall_map, Forall_forall. intros x _ e He. unfold csvLine in He.
      destruct (forallb convertible (csvCells x)) eqn:Hx.
      - by destruct (array_join_not_throws "," (csvCells x) e).
      - rewrite array_join_throws in He by done. by injection He. }
    destruct (collect_throws _ _ Hmsg) as [Hthrow _].
    rewrite Hthrow; [done|]. apply Exists_map, Exists_exists.
    exists r. split; [done|]. by apply array_join_throws.
Qed.

Lemma exportAsCSV_rows_witness :
  (∃ lines texts,
     exportAsCSV sample_parser
     = Ok (join newline (join "," csvHeaders :: lines))
     ∧ length lines = 2%nat
     ∧ lines !! 0%nat = Some (join "," texts)
     ∧ texts !! 0%nat = Some "7"
     ∧ texts !! 4%nat = Some "1"
     ∧ texts !! 7%nat = Some "YES")
  ∧ exportAsCSV sample_parser
    = Ok (join newline
            ["Index,Timestamp,ML Games,Post-Processed Games,DB Sessions,"
             +:+ "ML vs Post,Post vs DB,Missing in DB,Extra in DB";
             "7,,2,1,1,YES,NO,YES,YES";
             "8,,0,0,0,NO,NO,NO,NO"])
  ∧ exportAsCSV (validateAndParse JSONParser.constructor untitled_document).1
    = Throw conversion_error.
Proof.
  split_and!.
  - destruct (exportAsCSV_rows sample_parser) as [Hreturns _].
    { apply reachable_parse, reachable_new. }
    destruct Hreturns as (lines & Hcsv & Hlen & Hrows).
    { rewrite sample_document_parses. repeat constructor. }
    destruct (Hrows 0%nat sample_result)
      as (texts & Hline & _ & (text & Hfirst & Hindex) & Hfifth & _ & _ & Hmissing & _).
    { by rewrite sample_document_parses. }
    exists lines, texts. rewrite Hlen, sample_document_parses.
    injection Hindex as <-.
    split_and!; [done | done | done | done | by rewrite Hfifth | by rewrite Hmissing].
  - by vm_compute.
  - destruct (exportAsCSV_rows
                (validateAndParse JSONParser.constructor untitled_document).1)
      as [_ Hthrows].
    { apply reachable_parse, reachable_new. }
    apply Hthrows.
    assert (Hrs : JSONParser.results
                    (validateAndParse JSONParser.constructor untitled_document).1
                  = [bare_result; untitled_result]) by (by vm_compute).
    rewrite Hrs. apply Exists_cons_tl, Exists_cons_hd. by vm_compute.
Defined.

(** ** The sliding window *)

Lemma renderSlidingWindow_throws items e :
  items ≠ [] →
  collect (map to_string items) = Throw e →
  ComparisonDisplay.renderSlidingWindow (VArr items) = Throw e.
Proof.
  intros Hne Hc. unfold ComparisonDisplay.renderSlidingWindow.
  destruct items as [|y items]; [done|].
  cbn [truthy negb orb ComparisonDisplay.lengthIsZero length Nat.eqb].
  by rewrite Hc.
Qed.

(** X27. [renderSlidingWindow] at its edges: a window state that is falsy,
    or an empty array, renders as the empty string; an array whose
    elements are printable renders; an array with an element that cannot be
    converted to a string (an object with an own [toString] property)
    makes it throw a TypeError, and so does any other truthy value whose
    [length] is not [0] (a string, a number, an object). On the
    post-processed stage of a document whose [sliding_window_state] is
    absent, or an array of printable elements, it returns. *)
Theorem renderSlidingWindow_edges w x pp :
  (truthy w = false → ComparisonDisplay.renderSlidingWindow w = Ok "")
  ∧ ComparisonDisplay.renderSlidingWindow (VArr []) = Ok ""
  ∧ (∀ items,
       w = VArr items →
       (forallb printable items = true →
        returns (ComparisonDisplay.renderSlidingWindow w))
       ∧ (forallb convertible items = false →
          ComparisonDisplay.renderSlidingWindow w = Throw conversion_error))
  ∧ (truthy w = true →
     isArray w = false →
     ComparisonDisplay.lengthIsZero w = false →
     ComparisonDisplay.renderSlidingWindow w
     = Throw "TypeError: forEach is not a function")
  ∧ (parsePostProcessed x = Ok (Some pp) →
     prop x "sliding_window_state" = VUndef
     ∨ (∃ items, prop x "sliding_window_state" = VArr items
                 ∧ forallb printable items = true) →
     returns (ComparisonDisplay.renderSlidingWindow (slidingWindowState pp))).
Proof.
  assert (Harr : ∀ items, forallb printable items = true →
            returns (ComparisonDisplay.renderSlidingWindow (VArr items))).
  { intros items Hall. rewrite forallb_forall in Hall.
    unfold ComparisonDisplay.renderSlidingWindow. simpl.
    destruct (_ =? _)%nat; [by eexists|].
    destruct (collect_printable to_string items) as (texts & -> & _).
    { apply Forall_forall. intros v Hv%list_elem_of_In.
      by apply to_string_printable, Hall. }
    by eexists. }
  split_and!.
  - unfold ComparisonDisplay.renderSlidingWindow. by intros ->.
  - done.
  - intros items ->. split; [apply Harr|].
    intros (v & Hv & Hcv)%forallb_false.
    apply renderSlidingWindow_throws.
    { intros ->. by apply elem_of_nil in Hv. }
    assert (Hmsg : Forall (λ o, ∀ e, o = Throw e → e = conversion_error)
              (map to_string items)).
    { apply Forall_map, Forall_forall. intros z _ e He.
      destruct (to_string_convertible z) as [Hyes Hno].
      destruct (convertible z).
      - by destruct (Hyes eq_refl e).
      - rewrite (Hno eq_refl) in He. by injection He. }
    destruct (collect_throws _ _ Hmsg) as [Hthrow _].
    apply Hthrow, Exists_map, Exists_exists.
    exists v. split; [done|]. by apply to_string_throws.
  - intros Ht Ha Hl. unfold ComparisonDisplay.renderSlidingWindow.
    rewrite Ht, Hl. simpl. by destruct w.
  - rewrite parsePostProcessed_eq. destruct (truthy x); [|done].
    destruct (array_map _ _); [|done..]. intros [= <-] Hw. simpl.
    destruct Hw as [->|(items & -> & Hitems)]; [by exists ""|].
    unfold js_or. simpl. by apply Harr.
Qed.

Lemma renderSlidingWindow_edges_witness :
  ComparisonDisplay.renderSlidingWindow (VStr "slots")
  = Throw "TypeError: forEach is not a function"
  ∧ returns (ComparisonDisplay.renderSlidingWindow (VArr [VStr "slots"; VNum 3]))
  ∧ ComparisonDisplay.renderSlidingWindow
      (VArr [VStr "slots"; obj [("toString", VNum 1)]])
    = Throw conversion_error.
Proof.
  destruct (renderSlidingWindow_edges (VStr "slots") VUndef
              {| pp_games := []; gameCount := VNum 0; eventType := VNull;
                 appliedThreshold := VNull; slidingWindowState := VNull;
                 pp_error := VNull |}) as (_ & _ & _ & Hthrow & _).
  destruct (renderSlidingWindow_edges (VArr [VStr "slots"; VNum 3]) VUndef
              {| pp_games := []; gameCount := VNum 0; eventType := VNull;
                 appliedThreshold := VNull; slidingWindowState := VNull;
                 pp_error := VNull |}) as (_ & _ & Harr & _).
  destruct (renderSlidingWindow_edges
              (VArr [VStr "slots"; obj [("toString", VNum 1)]]) VUndef
              {| pp_games := []; gameCount := VNum 0; eventType := VNull;
                 appliedThreshold := VNull; slidingWindowState := VNull;
                 pp_error := VNull |}) as (_ & _ & Hbad & _).
  split_and!.
  - by apply Hthrow.
  - by apply (Harr _ eq_refl).
  - by apply (Hbad _ eq_refl).
Defined.

(** ** Lists of the wrong type *)

(** X28. A list field that holds something else than an array is not
    treated alike everywhere. A truthy [db_sessions] or [db_game_counts]
    that is not an array is read as the empty list, without an error; a
    truthy [games] that is not an array makes [parseMLInference] and
    [parsePostProcessed] throw. *)
Theorem lists_of_the_wrong_type stage g :
  truthy g = true →
  isArray g = false →
  parseDBSessions g = Ok []
  ∧ parseDBGameCounts g = Ok []
  ∧ (truthy stage = true →
     prop stage "games" = g →
     parseMLInference stage = Throw "TypeError: map is not a function"
     ∧ parsePostProcessed stage = Throw "TypeError: map is not a function").
Proof.
  intros Hg Ha. split_and!.
  - unfold parseDBSessions. by rewrite Ha, orb_true_r.
  - unfold parseDBGameCounts. by rewrite Ha, orb_true_r.
  - intros Hs Hgames.
    rewrite parseMLInference_eq, parsePostProcessed_eq, Hs, Hgames.
    unfold js_or. rewrite Hg. by destruct g.
Qed.

Lemma lists_of_the_wrong_type_witness :
  parseDBSessions (VStr "none") = Ok []
  ∧ parseMLInference (obj [("games", VStr "none")])
    = Throw "TypeError: map is not a function".
Proof.
  destruct (lists_of_the_wrong_type (obj [("games", VStr "none")]) (VStr "none"))
    as (Hdb & _ & Hml); [done..|].
  split; [done|]. by destruct Hml.
Defined.
